(** * Gps-Uber: the ride-tracking map component, three iterations

    A shallow embedding of the three iterations of the map component:

    - [V1]   the first [RideMapMultiLeg] (two legs, 300 ms debounce);
    - [Vias] [RideMapWithVias] (one chain user -> vias -> destination);
    - [V3]   the last [RideMapMultiLeg] (rate/distance gate, abortable
             fetches, stale-response check).

    Conventions of the embedding.

    - A JavaScript number is idealised as a real number ([R]); the
      rounding of IEEE doubles, NaN and the infinities are not modelled.
    - A point variable ([position], [driver], [dest]) holds [null] or a
      two-element array of finite numbers: these are the only values the
      setters of the components ever store, so it is an [option LatLng].
    - React state is a record; an event handler, the re-render and the
      effects it triggers form one atomic step.  An [async] function is
      split at its [await]s: the part before the first one runs in the
      step that calls it, the rest in the step that settles the promise.
    - Formatting of numbers ([toFixed], template literals, [Number]) is the
      runtime's and is taken as an interface, [JsNumber]. *)

From Stdlib Require Import Reals Lra Lia ZArith List String Ascii Bool.
From Stdlib Require Import DecimalString.
Import ListNotations.

Open Scope string_scope.
Open Scope R_scope.

(** ** Runtime interface *)

Class JsNumber : Type := {
  (** [x.toFixed(d)] *)
  toFixed : nat -> R -> string;
  (** [`${x}`] *)
  numToString : R -> string;
  (** [Number(s)] *)
  Number_ : string -> R
}.

(** [Math.round]: the nearest integer, halves towards +infinity. *)
Definition Math_round (x : R) : Z := Int_part (x + / 2).

(** [Math.max] on integers. *)
Definition Math_max (a b : Z) : Z := Z.max a b.

(** [`${n}`] for an integer. *)
Definition intToString (n : Z) : string := NilZero.string_of_int (Z.to_int n).

(** ** Geometry helpers (identical in the three files) *)

Definition LatLng : Type := (R * R)%type.

(** A state variable holding [null] or [[lat, lon]]. *)
Definition Point : Type := option LatLng.

Definition isLatLng (v : Point) : bool :=
  match v with
  | Some _ => true
  | None => false
  end.

(** The formula of the three files, on real numbers: what is proved of it
    is proved of the formula, not of its rounding on doubles. *)
Definition haversineKm (p q : LatLng) : R :=
  let '(lat1, lon1) := p in
  let '(lat2, lon2) := q in
  let R_ := 6371 in
  let dLat := ((lat2 - lat1) * PI) / 180 in
  let dLon := ((lon2 - lon1) * PI) / 180 in
  let a :=
    sin (dLat / 2) ^ 2 +
    cos ((lat1 * PI) / 180) * cos ((lat2 * PI) / 180) * sin (dLon / 2) ^ 2 in
  2 * R_ * asin (sqrt a).

Definition distanceMeters (a b : LatLng) : R := haversineKm a b * 1000.

Definition roundGPS `{JsNumber} (p : LatLng) : LatLng :=
  let '(lat, lon) := p in
  (Number_ (toFixed 5 lat), Number_ (toFixed 5 lon)).

(** ** The haversine formula as the specification words it *)

Module HaversineSpec.

Definition earthRadiusKm : R := 6371.

Definition radians (deg : R) : R := deg * PI / 180.

(** [2 R asin (sqrt (sin^2 (dLat/2) + cos lat1 cos lat2 sin^2 (dLon/2)))],
    every angle in radians. *)
Definition greatCircleKm (p q : LatLng) : R :=
  let phi1 := radians (fst p) in
  let phi2 := radians (fst q) in
  let dLat := phi2 - phi1 in
  let dLon := radians (snd q) - radians (snd p) in
  2 * earthRadiusKm *
  asin (sqrt (Rsqr (sin (dLat / 2)) + cos phi1 * cos phi2 * Rsqr (sin (dLon / 2)))).

(** The pairs of consecutive points of a chain. *)
Definition legs (pts : list LatLng) : list (LatLng * LatLng) :=
  combine pts (tl pts).

(** The length of a chain: the sum of its legs. *)
Definition chainKm (pts : list LatLng) : R :=
  fold_right Rplus 0 (map (fun l => greatCircleKm (fst l) (snd l)) (legs pts)).

(** The term under the square root, for the latitudes [phi1], [phi2] and
    the difference of longitudes [dlam]. *)
Definition hav (phi1 phi2 dlam : R) : R :=
  Rsqr (sin ((phi2 - phi1) / 2)) + cos phi1 * cos phi2 * Rsqr (sin (dlam / 2)).

(** The point of the unit sphere at a latitude and longitude. *)
Definition onSphere (p : LatLng) : R * R * R :=
  let phi := radians (fst p) in
  let lam := radians (snd p) in
  (cos phi * cos lam, cos phi * sin lam, sin phi).

Definition dot (u v : R * R * R) : R :=
  let '(x1, y1, z1) := u in
  let '(x2, y2, z2) := v in
  x1 * x2 + y1 * y2 + z1 * z2.

(** The central angle between two points, in [0, PI]. *)
Definition centralAngle (p q : LatLng) : R := acos (dot (onSphere p) (onSphere q)).

End HaversineSpec.

(** ** What a route request settles to *)

(** One element of [data.routes] of an OSRM answer; [geometry] lists
    [[lon, lat]] pairs. *)
Record Route : Type := {
  geometry : list (R * R);
  distance : R;
  duration : R
}.

(** A thrown value: [e.name] and [e.message]. *)
Record JsError : Type := {
  name : string;
  message : string
}.

(** [new Error(msg)] *)
Definition Error (msg : string) : JsError := {| name := "Error"; message := msg |}.

(** How the awaited part of a route request ends:
    - [Rejected e]: [fetch], a body read or the decoding of the route threw
      [e] (network failure, abort, malformed body);
    - [NotOk status msg]: [res.ok] is false, [msg] is what the component
      extracted from the body ([j?.message || j?.code || ""]);
    - [Json routes]: [res.ok] and [data.routes] (absent counts as empty). *)
Inductive Settled : Type :=
| Rejected (e : JsError)
| NotOk (status : Z) (msg : string)
| Json (routes : list Route).

(** What [fetch] and the reads of a body reject with once the signal has
    been aborted. *)
Definition AbortError : JsError :=
  {| name := "AbortError"; message := "The user aborted a request." |}.

(** [s || d] on strings *)
Definition orElse (s d : string) : string :=
  if String.eqb s "" then d else s.

(** The [try] body of the three [fetchLeg]s between the [await fetch] and
    the first state update: the route, or the value thrown. *)
Definition awaited (r : Settled) : JsError + Route :=
  match r with
  | Rejected e => inl e
  | NotOk status msg =>
      inl (Error ("OSRM " ++ intToString status ++
                  (if String.eqb msg "" then "" else ": " ++ msg)))
  | Json routes =>
      match routes with
      | [] => inl (Error "No route found")
      | r :: _ => inr r
      end
  end.

(** [r.geometry.coordinates.map(([lon, lat]) => [lat, lon])] *)
Definition toPath (r : Route) : list LatLng :=
  map (fun c => (snd c, fst c)) (geometry r).

Definition osrmBase : string := "https://router.project-osrm.org/route/v1/driving/".

(** The scheme of a URL: what stands before the first colon. *)
Fixpoint urlScheme (u : string) : string :=
  match u with
  | EmptyString => EmptyString
  | String c rest => if Ascii.eqb c ":" then EmptyString else String c (urlScheme rest)
  end.

Definition Rltb (x y : R) : bool := if Rlt_dec x y then true else false.

(** ** Third version: [RideMapMultiLeg] with gating and abortable fetches *)

Module V3.
Section Component.
Context `{JsNumber}.

Inductive Leg : Type := DU | UD.

Inductive TapMode : Type := TapDriver | TapDest.

(** The identity of an [AbortController] object. *)
Definition Ctrl : Type := nat.

Definition MIN_MOVE_M : R := 30.
Definition MIN_FETCH_INTERVAL_MS : Z := 5000.
Definition DEBOUNCE_MS : Z := 350.

(** [lastDU.current], [lastUD.current] *)
Record LastRec : Type := {
  from : Point;
  to : Point;
  ts : Z
}.

(** A pending [setTimeout] of the fetch effect with the arguments its
    closure captured. *)
Record Timer : Type := {
  due : Z;
  tFrom : Point;
  tTo : Point
}.

(** The variables of one leg: [routeXX], [kmXX], [minXX], [loadingXX],
    [lastXX.current], [abortXX.current] and the leg's debounce timer. *)
Record LegState : Type := {
  route : list LatLng;
  km : option string;
  min_ : option Z;
  loading : bool;
  last : LastRec;
  abort : option Ctrl;
  timer : option Timer
}.

(** A call of [fetch(url, { signal })]. *)
Record Request : Type := {
  url : string;
  signal : Ctrl
}.

Record State : Type := {
  position : Point;
  accuracy : option R;
  driver : Point;
  dest : Point;
  legDU : LegState;
  legUD : LegState;
  error : string;
  tapMode : option TapMode;
  follow : bool;
  (** [movedRef.current] of [TapToSet] *)
  moved : bool;
  (** controllers whose [abort()] has been called *)
  aborted : list Ctrl;
  (** the next controller [new AbortController()] returns *)
  nextCtrl : Ctrl;
  (** every [fetch] call so far, oldest first *)
  fetched : list Request;
  (** the requests issued so far, newest first, with the leg of their
      closure *)
  issued : list (Ctrl * Leg);
  (** the requests whose promise has settled *)
  settled : list Ctrl;
  (** the time of the last step, in ms *)
  clock : Z
}.

Definition legOf (leg : Leg) (s : State) : LegState :=
  match leg with
  | DU => legDU s
  | UD => legUD s
  end.

Definition routeDU (s : State) := route (legDU s).
Definition routeUD (s : State) := route (legUD s).
Definition kmDU (s : State) := km (legDU s).
Definition kmUD (s : State) := km (legUD s).
Definition minDU (s : State) := min_ (legDU s).
Definition minUD (s : State) := min_ (legUD s).
Definition loadingDU (s : State) := loading (legDU s).
Definition loadingUD (s : State) := loading (legUD s).
Definition lastDU (s : State) := last (legDU s).
Definition lastUD (s : State) := last (legUD s).
Definition abortDU (s : State) := abort (legDU s).
Definition abortUD (s : State) := abort (legUD s).

(** *** Setters *)

Definition withRoute (v : list LatLng) (l : LegState) : LegState :=
  {| route := v; km := km l; min_ := min_ l; loading := loading l;
     last := last l; abort := abort l; timer := timer l |}.
Definition withKm (v : option string) (l : LegState) : LegState :=
  {| route := route l; km := v; min_ := min_ l; loading := loading l;
     last := last l; abort := abort l; timer := timer l |}.
Definition withMin (v : option Z) (l : LegState) : LegState :=
  {| route := route l; km := km l; min_ := v; loading := loading l;
     last := last l; abort := abort l; timer := timer l |}.
Definition withLoading (v : bool) (l : LegState) : LegState :=
  {| route := route l; km := km l; min_ := min_ l; loading := v;
     last := last l; abort := abort l; timer := timer l |}.
Definition withLast (v : LastRec) (l : LegState) : LegState :=
  {| route := route l; km := km l; min_ := min_ l; loading := loading l;
     last := v; abort := abort l; timer := timer l |}.
Definition withAbort (v : option Ctrl) (l : LegState) : LegState :=
  {| route := route l; km := km l; min_ := min_ l; loading := loading l;
     last := last l; abort := v; timer := timer l |}.
Definition withTimer (v : option Timer) (l : LegState) : LegState :=
  {| route := route l; km := km l; min_ := min_ l; loading := loading l;
     last := last l; abort := abort l; timer := v |}.

(** Apply an update to the variables of one leg. *)
Definition onLeg (leg : Leg) (f : LegState -> LegState) (s : State) : State :=
  {| position := position s; accuracy := accuracy s; driver := driver s; dest := dest s;
     legDU := match leg with DU => f (legDU s) | UD => legDU s end;
     legUD := match leg with DU => legUD s | UD => f (legUD s) end;
     error := error s; tapMode := tapMode s; follow := follow s; moved := moved s;
     aborted := aborted s; nextCtrl := nextCtrl s; fetched := fetched s;
     issued := issued s; settled := settled s; clock := clock s |}.

Definition setRoute (leg : Leg) (v : list LatLng) := onLeg leg (withRoute v).
Definition setKm (leg : Leg) (v : option string) := onLeg leg (withKm v).
Definition setMin (leg : Leg) (v : option Z) := onLeg leg (withMin v).
Definition setLoading (leg : Leg) (v : bool) := onLeg leg (withLoading v).
Definition setLast (leg : Leg) (v : LastRec) := onLeg leg (withLast v).
Definition setAbort (leg : Leg) (v : option Ctrl) := onLeg leg (withAbort v).
Definition setTimer (leg : Leg) (v : option Timer) := onLeg leg (withTimer v).

Definition setPosition (v : Point) (s : State) : State :=
  {| position := v; accuracy := accuracy s; driver := driver s; dest := dest s;
     legDU := legDU s; legUD := legUD s;
     error := error s; tapMode := tapMode s; follow := follow s; moved := moved s;
     aborted := aborted s; nextCtrl := nextCtrl s; fetched := fetched s;
     issued := issued s; settled := settled s; clock := clock s |}.
Definition setAccuracy (v : option R) (s : State) : State :=
  {| position := position s; accuracy := v; driver := driver s; dest := dest s;
     legDU := legDU s; legUD := legUD s;
     error := error s; tapMode := tapMode s; follow := follow s; moved := moved s;
     aborted := aborted s; nextCtrl := nextCtrl s; fetched := fetched s;
     issued := issued s; settled := settled s; clock := clock s |}.
Definition setDriver (v : Point) (s : State) : State :=
  {| position := position s; accuracy := accuracy s; driver := v; dest := dest s;
     legDU := legDU s; legUD := legUD s;
     error := error s; tapMode := tapMode s; follow := follow s; moved := moved s;
     aborted := aborted s; nextCtrl := nextCtrl s; fetched := fetched s;
     issued := issued s; settled := settled s; clock := clock s |}.
Definition setDest (v : Point) (s : State) : State :=
  {| position := position s; accuracy := accuracy s; driver := driver s; dest := v;
     legDU := legDU s; legUD := legUD s;
     error := error s; tapMode := tapMode s; follow := follow s; moved := moved s;
     aborted := aborted s; nextCtrl := nextCtrl s; fetched := fetched s;
     issued := issued s; settled := settled s; clock := clock s |}.
Definition setError (v : string) (s : State) : State :=
  {| position := position s; accuracy := accuracy s; driver := driver s; dest := dest s;
     legDU := legDU s; legUD := legUD s;
     error := v; tapMode := tapMode s; follow := follow s; moved := moved s;
     aborted := aborted s; nextCtrl := nextCtrl s; fetched := fetched s;
     issued := issued s; settled := settled s; clock := clock s |}.
Definition setTapMode (v : option TapMode) (s : State) : State :=
  {| position := position s; accuracy := accuracy s; driver := driver s; dest := dest s;
     legDU := legDU s; legUD := legUD s;
     error := error s; tapMode := v; follow := follow s; moved := moved s;
     aborted := aborted s; nextCtrl := nextCtrl s; fetched := fetched s;
     issued := issued s; settled := settled s; clock := clock s |}.
Definition setFollow (v : bool) (s : State) : State :=
  {| position := position s; accuracy := accuracy s; driver := driver s; dest := dest s;
     legDU := legDU s; legUD := legUD s;
     error := error s; tapMode := tapMode s; follow := v; moved := moved s;
     aborted := aborted s; nextCtrl := nextCtrl s; fetched := fetched s;
     issued := issued s; settled := settled s; clock := clock s |}.
Definition setMoved (v : bool) (s : State) : State :=
  {| position := position s; accuracy := accuracy s; driver := driver s; dest := dest s;
     legDU := legDU s; legUD := legUD s;
     error := error s; tapMode := tapMode s; follow := follow s; moved := v;
     aborted := aborted s; nextCtrl := nextCtrl s; fetched := fetched s;
     issued := issued s; settled := settled s; clock := clock s |}.
Definition setClock (v : Z) (s : State) : State :=
  {| position := position s; accuracy := accuracy s; driver := driver s; dest := dest s;
     legDU := legDU s; legUD := legUD s;
     error := error s; tapMode := tapMode s; follow := follow s; moved := moved s;
     aborted := aborted s; nextCtrl := nextCtrl s; fetched := fetched s;
     issued := issued s; settled := settled s; clock := v |}.

(** [c.abort()] *)
Definition callAbort (c : Ctrl) (s : State) : State :=
  {| position := position s; accuracy := accuracy s; driver := driver s; dest := dest s;
     legDU := legDU s; legUD := legUD s;
     error := error s; tapMode := tapMode s; follow := follow s; moved := moved s;
     aborted := c :: aborted s; nextCtrl := nextCtrl s; fetched := fetched s;
     issued := issued s; settled := settled s; clock := clock s |}.

(** [ref.current?.abort()] *)
Definition abortCurrent (leg : Leg) (s : State) : State :=
  match abort (legOf leg s) with
  | Some c => callAbort c s
  | None => s
  end.

(** [new AbortController()]: the state after the allocation; the new
    controller is [nextCtrl] of the state before. *)
Definition newAbortController (s : State) : State :=
  {| position := position s; accuracy := accuracy s; driver := driver s; dest := dest s;
     legDU := legDU s; legUD := legUD s;
     error := error s; tapMode := tapMode s; follow := follow s; moved := moved s;
     aborted := aborted s; nextCtrl := S (nextCtrl s); fetched := fetched s;
     issued := issued s; settled := settled s; clock := clock s |}.

(** [fetch(u, { signal: c.signal })] called from the closure of [leg]. *)
Definition callFetch (leg : Leg) (u : string) (c : Ctrl) (s : State) : State :=
  {| position := position s; accuracy := accuracy s; driver := driver s; dest := dest s;
     legDU := legDU s; legUD := legUD s;
     error := error s; tapMode := tapMode s; follow := follow s; moved := moved s;
     aborted := aborted s; nextCtrl := nextCtrl s;
     fetched := (fetched s ++ [{| url := u; signal := c |}])%list;
     issued := (c, leg) :: issued s; settled := settled s; clock := clock s |}.

(** The promise of request [c] has settled. *)
Definition settle (c : Ctrl) (s : State) : State :=
  {| position := position s; accuracy := accuracy s; driver := driver s; dest := dest s;
     legDU := legDU s; legUD := legUD s;
     error := error s; tapMode := tapMode s; follow := follow s; moved := moved s;
     aborted := aborted s; nextCtrl := nextCtrl s; fetched := fetched s;
     issued := issued s; settled := c :: settled s; clock := clock s |}.

(** *** Straight-line fallbacks *)

(** The effect on [[driver, position]]. *)
Definition fallbackDU (s : State) : State :=
  match driver s, position s with
  | Some d, Some p =>
      let dKm := haversineKm d p in
      setMin DU (Some (Math_max 1 (Math_round ((dKm / 25) * 60))))
        (setKm DU (Some (toFixed 2 dKm)) s)
  | _, _ => setMin DU None (setKm DU None s)
  end.

(** The effect on [[position, dest]]. *)
Definition fallbackUD (s : State) : State :=
  match position s, dest s with
  | Some p, Some d =>
      let dKm := haversineKm p d in
      setMin UD (Some (Math_max 1 (Math_round ((dKm / 25) * 60))))
        (setKm UD (Some (toFixed 2 dKm)) s)
  | _, _ => setMin UD None (setKm UD None s)
  end.

(** *** [fetchLeg] *)

(** [distChange]; [None] stands for [Infinity]. *)
Definition distChange (rec : LastRec) (f t : LatLng) : option R :=
  match from rec, to rec with
  | Some rf, Some rt => Some (Rmax (distanceMeters rf f) (distanceMeters rt t))
  | _, _ => None
  end.

(** [now - rec.ts < MIN_FETCH_INTERVAL_MS && distChange < MIN_MOVE_M] *)
Definition gated (now : Z) (rec : LastRec) (f t : LatLng) : bool :=
  (now - ts rec <? MIN_FETCH_INTERVAL_MS)%Z &&
  match distChange rec f t with
  | Some d => Rltb d MIN_MOVE_M
  | None => false
  end.

Definition routeUrl (f t : LatLng) : string :=
  let coords :=
    numToString (snd f) ++ "," ++ numToString (fst f) ++ ";" ++
    numToString (snd t) ++ "," ++ numToString (fst t) in
  osrmBase ++ coords ++
  "?overview=full&geometries=geojson&alternatives=false&steps=false&continue_straight=true".

(** [fetchLeg(leg, from, to)] called at time [now], up to its
    [await fetch(...)]. *)
Definition fetchLeg (now : Z) (leg : Leg) (from_ to_ : Point) (s : State) : State :=
  match from_, to_ with
  | Some f, Some t =>
      let rec := last (legOf leg s) in
      if gated now rec f t then s
      else
        let s1 := abortCurrent leg s in
        let controller := nextCtrl s1 in
        let s2 := setAbort leg (Some controller) (newAbortController s1) in
        let s3 := setLast leg {| from := Some f; to := Some t; ts := now |} s2 in
        let s4 := setLoading leg true s3 in
        callFetch leg (routeUrl f t) controller s4
  | _, _ => s
  end.

Definition errorSuffix : string := " — showing straight-line estimate.".

(** The rest of [fetchLeg] for the request of [controller], run when its
    awaited part has ended with [r]. *)
Definition fetchLegResume (leg : Leg) (controller : Ctrl) (r : Settled) (s : State) : State :=
  let s' :=
    match awaited r with
    | inr rt =>
        let path := toPath rt in
        let stillLatest :=
          match abort (legOf leg s) with
          | Some c => Nat.eqb c controller
          | None => false
          end in
        if stillLatest then
          setMin leg (Some (Math_max 1 (Math_round (duration rt / 60))))
            (setKm leg (Some (toFixed 2 (distance rt / 1000)))
               (setRoute leg path s))
        else s
    | inl e =>
        if String.eqb (name e) "AbortError" then s
        else setError (orElse (message e) "Route fetch failed" ++ errorSuffix) s
    end in
  setLoading leg false s'.

(** The fetch effect on [[driver, position, dest]]: its cleanup clears both
    timers, its body sets them anew. *)
Definition fetchEffect (now : Z) (s : State) : State :=
  let t1 := {| due := now + DEBOUNCE_MS; tFrom := driver s; tTo := position s |} in
  let t2 := {| due := now + DEBOUNCE_MS; tFrom := position s; tTo := dest s |} in
  setTimer UD (Some t2) (setTimer DU (Some t1) s).

(** The timer of [leg] runs its callback. *)
Definition timerFires (now : Z) (leg : Leg) (s : State) : State :=
  match timer (legOf leg s) with
  | Some t => fetchLeg now leg (tFrom t) (tTo t) (setTimer leg None s)
  | None => s
  end.

(** *** Event handlers *)

(** The success callback of [watchPosition], then the three effects. *)
Definition onGpsFix (now : Z) (lat lon acc : R) (s : State) : State :=
  let s1 := setAccuracy (Some acc) (setPosition (Some (roundGPS (lat, lon))) (setError "" s)) in
  fetchEffect now (fallbackUD (fallbackDU s1)).

Definition onGpsError (msg : string) (s : State) : State :=
  setError (orElse msg "Unable to get location") s.

(** [onSet(latlng, which)], then the effects that depend on the point set. *)
Definition onSet (now : Z) (latlng : LatLng) (which : TapMode) (s : State) : State :=
  match which with
  | TapDriver => fetchEffect now (fallbackDU (setTapMode None (setDriver (Some latlng) s)))
  | TapDest => fetchEffect now (fallbackUD (setTapMode None (setDest (Some latlng) s)))
  end.

(** The [click] handler of [TapToSet]. *)
Definition onMapClick (now : Z) (lat lng : R) (s : State) : State :=
  match tapMode s with
  | Some mode => if moved s then s else onSet now (lat, lng) mode s
  | None => s
  end.

(** [dragstart] and [zoomstart]: [movedRef.current = true], [onUserPan()]. *)
Definition onUserPan (s : State) : State := setFollow false (setMoved true s).

Definition onMoveEnd (s : State) : State := setMoved false s.

Definition toggleTap (m : TapMode) (s : State) : State :=
  match tapMode s, m with
  | Some TapDriver, TapDriver => setTapMode None s
  | Some TapDest, TapDest => setTapMode None s
  | _, _ => setTapMode (Some m) s
  end.

Definition onFollow (s : State) : State := setFollow true s.

Definition emptyRec : LastRec := {| from := None; to := None; ts := 0 |}.

(** The [onClick] of the Clear button. *)
Definition clearHandler (s : State) : State :=
  let s1 := setDest None (setDriver None s) in
  let s2 := setMin UD None (setMin DU None (setKm UD None (setKm DU None s1))) in
  let s3 := setFollow true (setError "" s2) in
  let s4 := setRoute UD [] (setRoute DU [] s3) in
  let s5 := setLast UD emptyRec (setLast DU emptyRec s4) in
  abortCurrent UD (abortCurrent DU s5).

(** Clear, then the effects whose dependencies changed ([null] set over
    [null] is no change). *)
Definition onClear (now : Z) (s : State) : State :=
  let s1 := clearHandler s in
  let s2 := if isLatLng (driver s) then fallbackDU s1 else s1 in
  let s3 := if isLatLng (dest s) then fallbackUD s2 else s2 in
  if isLatLng (driver s) || isLatLng (dest s) then fetchEffect now s3 else s3.

(** *** Steps *)

Inductive Event : Type :=
| GpsFix (lat lon acc : R)
| GpsError (msg : string)
| MapClick (lat lng : R)
| MapDragStart
| MapZoomStart
| MapMoveEnd
| ClickSetDriver
| ClickSetDestination
| ClickFollow
| ClickClear
| TimerFires (leg : Leg)
| FetchSettles (c : Ctrl) (leg : Leg) (r : Settled).

Definition handle (now : Z) (e : Event) (s : State) : State :=
  setClock now
    match e with
    | GpsFix lat lon acc => onGpsFix now lat lon acc s
    | GpsError msg => onGpsError msg s
    | MapClick lat lng => onMapClick now lat lng s
    | MapDragStart | MapZoomStart => onUserPan s
    | MapMoveEnd => onMoveEnd s
    | ClickSetDriver => toggleTap TapDriver s
    | ClickSetDestination => toggleTap TapDest s
    | ClickFollow => onFollow s
    | ClickClear => onClear now s
    | TimerFires leg => timerFires now leg s
    | FetchSettles c leg r => fetchLegResume leg c r (settle c s)
    end.

(** What the browser can deliver in a state: the map and the buttons exist
    once [position] is set; a timer runs no earlier than its delay; a
    request settles once, and brings no route once its controller has been
    aborted ([fetch] and the reads of the body then reject with an
    [AbortError]). *)
Definition enabled (now : Z) (e : Event) (s : State) : Prop :=
  (clock s <= now)%Z /\
  match e with
  | GpsFix _ _ _ | GpsError _ => True
  | MapClick _ _ | MapDragStart | MapZoomStart | MapMoveEnd
  | ClickSetDriver | ClickSetDestination | ClickClear => position s <> None
  | ClickFollow => position s <> None /\ follow s = false
  | TimerFires leg => exists t, timer (legOf leg s) = Some t /\ (due t <= now)%Z
  | FetchSettles c leg r =>
      In (c, leg) (issued s) /\ ~ In c (settled s) /\
      (In c (aborted s) -> exists e, awaited r = inl e)
  end.

Definition emptyLeg : LegState :=
  {| route := []; km := None; min_ := None; loading := false;
     last := emptyRec; abort := None; timer := None |}.

(** The component before its first effects. *)
Definition initial (now : Z) : State :=
  {| position := None; accuracy := None; driver := None; dest := None;
     legDU := emptyLeg; legUD := emptyLeg;
     error := ""; tapMode := None; follow := true; moved := false;
     aborted := []; nextCtrl := O; fetched := []; issued := []; settled := []; clock := now |}.

(** The component once mounted at time [now]; [geolocation] tells whether
    the browser has the geolocation API. *)
Definition mounted (now : Z) (geolocation : bool) : State :=
  let s := initial now in
  let s1 := if geolocation then s else setError "Geolocation not supported." s in
  fetchEffect now (fallbackUD (fallbackDU s1)).

Inductive reachable : State -> Prop :=
| reach_mounted now geolocation : reachable (mounted now geolocation)
| reach_step s now e : reachable s -> enabled now e s -> reachable (handle now e s).

Definition other (leg : Leg) : Leg :=
  match leg with
  | DU => UD
  | UD => DU
  end.

Definition sameLeg (a b : Leg) : bool :=
  match a, b with
  | DU, DU | UD, UD => true
  | _, _ => false
  end.

(** The controller of the request issued last for a leg. *)
Fixpoint latestIssued (leg : Leg) (l : list (Ctrl * Leg)) : option Ctrl :=
  match l with
  | [] => None
  | (c, l') :: rest => if sameLeg l' leg then Some c else latestIssued leg rest
  end.

(** The route state of a leg: polyline, distance, ETA. *)
Definition routeState (leg : Leg) (s : State) : list LatLng * option string * option Z :=
  (route (legOf leg s), km (legOf leg s), min_ (legOf leg s)).

(** The points a leg is routed between. *)
Definition inputs (leg : Leg) (s : State) : Point * Point :=
  match leg with
  | DU => (driver s, position s)
  | UD => (position s, dest s)
  end.

(** *** What is rendered *)

Definition placeholder : string := "—".

(** [totalMin] *)
Definition totalMin (s : State) : option Z :=
  let a := match minDU s with Some m => m | None => 0%Z end in
  let b := match minUD s with Some m => m | None => 0%Z end in
  let sum := (a + b)%Z in
  if (0 <? sum)%Z then Some sum else None.

(** [{km ? `${km} km` : "—"}] *)
Definition kmText (v : option string) : string :=
  match v with
  | Some k => if String.eqb k "" then placeholder else k ++ " km"
  | None => placeholder
  end.

(** [{min ? `${min} min` : "—"}] *)
Definition minText (v : option Z) : string :=
  match v with
  | Some m => if (m =? 0)%Z then placeholder else intToString m ++ " min"
  | None => placeholder
  end.

Record InfoBar : Type := {
  driverToYouKm : string;
  driverToYouMin : string;
  youToDestinationKm : string;
  youToDestinationMin : string;
  totalMinText : string
}.

Inductive View : Type :=
| Waiting (text : string)
| Map (bar : InfoBar) (status : string) (err : string).

Definition render (s : State) : View :=
  match position s with
  | None =>
      Waiting (if String.eqb (error s) "" then "Allow location access to see the map…"
               else "Error: " ++ error s)
  | Some _ =>
      Map {| driverToYouKm := kmText (kmDU s);
             driverToYouMin := minText (minDU s);
             youToDestinationKm := kmText (kmUD s);
             youToDestinationMin := minText (minUD s);
             totalMinText := minText (totalMin s) |}
          (if loadingDU s || loadingUD s then "Fetching routes…" else "Idle")
          (error s)
  end.

End Component.
End V3.

(** ** First version: [RideMapMultiLeg] *)

Module V1.
Section Component.
Context `{JsNumber}.

Inductive Leg : Type := DU | UD.

Inductive TapMode : Type := TapDriver | TapDest.

Definition DEBOUNCE_MS : Z := 300.

Record Timer : Type := {
  due : Z;
  tFrom : Point;
  tTo : Point
}.

(** The variables of one leg ([routeXX], [kmXX], [minXX], [loadingXX]) and
    the leg's debounce timer. *)
Record LegState : Type := {
  route : list LatLng;
  km : option string;
  min_ : option Z;
  loading : bool;
  timer : option Timer
}.

Record State : Type := {
  position : Point;
  accuracy : option R;
  driver : Point;
  dest : Point;
  legDU : LegState;
  legUD : LegState;
  error : string;
  tapMode : option TapMode;
  (** every [fetch] call so far, oldest first *)
  fetched : list string;
  (** the calls of [fetchLeg] not settled yet, with the leg of their setters *)
  inflight : list (nat * Leg);
  nextCall : nat;
  clock : Z
}.

Definition legOf (leg : Leg) (s : State) : LegState :=
  match leg with
  | DU => legDU s
  | UD => legUD s
  end.

Definition routeDU (s : State) := route (legDU s).
Definition routeUD (s : State) := route (legUD s).
Definition kmDU (s : State) := km (legDU s).
Definition kmUD (s : State) := km (legUD s).
Definition minDU (s : State) := min_ (legDU s).
Definition minUD (s : State) := min_ (legUD s).
Definition loadingDU (s : State) := loading (legDU s).
Definition loadingUD (s : State) := loading (legUD s).

Definition withRoute (v : list LatLng) (l : LegState) : LegState :=
  {| route := v; km := km l; min_ := min_ l; loading := loading l; timer := timer l |}.
Definition withKm (v : option string) (l : LegState) : LegState :=
  {| route := route l; km := v; min_ := min_ l; loading := loading l; timer := timer l |}.
Definition withMin (v : option Z) (l : LegState) : LegState :=
  {| route := route l; km := km l; min_ := v; loading := loading l; timer := timer l |}.
Definition withLoading (v : bool) (l : LegState) : LegState :=
  {| route := route l; km := km l; min_ := min_ l; loading := v; timer := timer l |}.
Definition withTimer (v : option Timer) (l : LegState) : LegState :=
  {| route := route l; km := km l; min_ := min_ l; loading := loading l; timer := v |}.

Definition onLeg (leg : Leg) (f : LegState -> LegState) (s : State) : State :=
  {| position := position s; accuracy := accuracy s; driver := driver s; dest := dest s;
     legDU := match leg with DU => f (legDU s) | UD => legDU s end;
     legUD := match leg with DU => legUD s | UD => f (legUD s) end;
     error := error s; tapMode := tapMode s; fetched := fetched s;
     inflight := inflight s; nextCall := nextCall s; clock := clock s |}.

Definition setCoords (leg : Leg) (v : list LatLng) := onLeg leg (withRoute v).
Definition setKm (leg : Leg) (v : option string) := onLeg leg (withKm v).
Definition setMin (leg : Leg) (v : option Z) := onLeg leg (withMin v).
Definition setLoading (leg : Leg) (v : bool) := onLeg leg (withLoading v).
Definition setTimer (leg : Leg) (v : option Timer) := onLeg leg (withTimer v).

Definition setPosition (v : Point) (s : State) : State :=
  {| position := v; accuracy := accuracy s; driver := driver s; dest := dest s;
     legDU := legDU s; legUD := legUD s;
     error := error s; tapMode := tapMode s; fetched := fetched s;
     inflight := inflight s; nextCall := nextCall s; clock := clock s |}.
Definition setAccuracy (v : option R) (s : State) : State :=
  {| position := position s; accuracy := v; driver := driver s; dest := dest s;
     legDU := legDU s; legUD := legUD s;
     error := error s; tapMode := tapMode s; fetched := fetched s;
     inflight := inflight s; nextCall := nextCall s; clock := clock s |}.
Definition setDriver (v : Point) (s : State) : State :=
  {| position := position s; accuracy := accuracy s; driver := v; dest := dest s;
     legDU := legDU s; legUD := legUD s;
     error := error s; tapMode := tapMode s; fetched := fetched s;
     inflight := inflight s; nextCall := nextCall s; clock := clock s |}.
Definition setDest (v : Point) (s : State) : State :=
  {| position := position s; accuracy := accuracy s; driver := driver s; dest := v;
     legDU := legDU s; legUD := legUD s;
     error := error s; tapMode := tapMode s; fetched := fetched s;
     inflight := inflight s; nextCall := nextCall s; clock := clock s |}.
Definition setError (v : string) (s : State) : State :=
  {| position := position s; accuracy := accuracy s; driver := driver s; dest := dest s;
     legDU := legDU s; legUD := legUD s;
     error := v; tapMode := tapMode s; fetched := fetched s;
     inflight := inflight s; nextCall := nextCall s; clock := clock s |}.
Definition setTapMode (v : option TapMode) (s : State) : State :=
  {| position := position s; accuracy := accuracy s; driver := driver s; dest := dest s;
     legDU := legDU s; legUD := legUD s;
     error := error s; tapMode := v; fetched := fetched s;
     inflight := inflight s; nextCall := nextCall s; clock := clock s |}.
Definition setClock (v : Z) (s : State) : State :=
  {| position := position s; accuracy := accuracy s; driver := driver s; dest := dest s;
     legDU := legDU s; legUD := legUD s;
     error := error s; tapMode := tapMode s; fetched := fetched s;
     inflight := inflight s; nextCall := nextCall s; clock := v |}.

(** [fetch(u)] in a call of [fetchLeg] with the setters of [leg]. *)
Definition callFetch (leg : Leg) (u : string) (s : State) : State :=
  {| position := position s; accuracy := accuracy s; driver := driver s; dest := dest s;
     legDU := legDU s; legUD := legUD s;
     error := error s; tapMode := tapMode s;
     fetched := (fetched s ++ [u])%list;
     inflight := (nextCall s, leg) :: inflight s;
     nextCall := S (nextCall s); clock := clock s |}.

Definition settle (c : nat) (s : State) : State :=
  {| position := position s; accuracy := accuracy s; driver := driver s; dest := dest s;
     legDU := legDU s; legUD := legUD s;
     error := error s; tapMode := tapMode s; fetched := fetched s;
     inflight := filter (fun r => negb (Nat.eqb (fst r) c)) (inflight s);
     nextCall := nextCall s; clock := clock s |}.

(** The effect on [[driver, position]]. *)
Definition fallbackDU (s : State) : State :=
  match driver s, position s with
  | Some d, Some p =>
      let dKm := haversineKm d p in
      let eta := Math_max 1 (Math_round ((dKm / 25) * 60)) in
      setCoords DU [] (setMin DU (Some eta) (setKm DU (Some (toFixed 2 dKm)) s))
  | _, _ => setCoords DU [] (setMin DU None (setKm DU None s))
  end.

(** The effect on [[position, dest]]. *)
Definition fallbackUD (s : State) : State :=
  match position s, dest s with
  | Some p, Some d =>
      let dKm := haversineKm p d in
      let eta := Math_max 1 (Math_round ((dKm / 25) * 60)) in
      setCoords UD [] (setMin UD (Some eta) (setKm UD (Some (toFixed 2 dKm)) s))
  | _, _ => setCoords UD [] (setMin UD None (setKm UD None s))
  end.

Definition routeUrl (f t : LatLng) : string :=
  let coords :=
    numToString (snd f) ++ "," ++ numToString (fst f) ++ ";" ++
    numToString (snd t) ++ "," ++ numToString (fst t) in
  osrmBase ++ coords ++
  "?overview=full&geometries=geojson&alternatives=false&steps=false&continue_straight=true".

(** [fetchLeg(from, to, ...setters of leg)] up to its [await fetch(url)]. *)
Definition fetchLeg (leg : Leg) (from_ to_ : Point) (s : State) : State :=
  match from_, to_ with
  | Some f, Some t => callFetch leg (routeUrl f t) (setLoading leg true s)
  | _, _ => s
  end.

Definition errorSuffix : string := " — showing straight-line estimate.".

(** The rest of [fetchLeg], run when its awaited part has ended with [r]. *)
Definition fetchLegResume (leg : Leg) (r : Settled) (s : State) : State :=
  let s' :=
    match awaited r with
    | inr rt =>
        let path := toPath rt in
        setMin leg (Some (Math_max 1 (Math_round (duration rt / 60))))
          (setKm leg (Some (toFixed 2 (distance rt / 1000)))
             (setCoords leg path s))
    | inl e => setError (orElse (message e) "Route fetch failed" ++ errorSuffix) s
    end in
  setLoading leg false s'.

(** The fetch effect on [[driver, position, dest]]. *)
Definition fetchEffect (now : Z) (s : State) : State :=
  let t1 := {| due := now + DEBOUNCE_MS; tFrom := driver s; tTo := position s |} in
  let t2 := {| due := now + DEBOUNCE_MS; tFrom := position s; tTo := dest s |} in
  setTimer UD (Some t2) (setTimer DU (Some t1) s).

Definition timerFires (leg : Leg) (s : State) : State :=
  match timer (legOf leg s) with
  | Some t => fetchLeg leg (tFrom t) (tTo t) (setTimer leg None s)
  | None => s
  end.

Definition onGpsFix (now : Z) (lat lon acc : R) (s : State) : State :=
  let s1 := setAccuracy (Some acc) (setPosition (Some (lat, lon)) (setError "" s)) in
  fetchEffect now (fallbackUD (fallbackDU s1)).

Definition onGpsError (msg : string) (s : State) : State :=
  setError (orElse msg "Unable to get location") s.

Definition onSet (now : Z) (latlng : LatLng) (which : TapMode) (s : State) : State :=
  match which with
  | TapDriver => fetchEffect now (fallbackDU (setTapMode None (setDriver (Some latlng) s)))
  | TapDest => fetchEffect now (fallbackUD (setTapMode None (setDest (Some latlng) s)))
  end.

Definition onMapClick (now : Z) (lat lng : R) (s : State) : State :=
  match tapMode s with
  | Some mode => onSet now (lat, lng) mode s
  | None => s
  end.

Definition toggleTap (m : TapMode) (s : State) : State :=
  match tapMode s, m with
  | Some TapDriver, TapDriver => setTapMode None s
  | Some TapDest, TapDest => setTapMode None s
  | _, _ => setTapMode (Some m) s
  end.

(** The [onClick] of the Clear button. *)
Definition clearHandler (s : State) : State :=
  let s1 := setDest None (setDriver None s) in
  let s2 := setCoords UD [] (setCoords DU [] s1) in
  let s3 := setKm UD None (setKm DU None s2) in
  let s4 := setMin UD None (setMin DU None s3) in
  setError "" s4.

Definition onClear (now : Z) (s : State) : State :=
  let s1 := clearHandler s in
  let s2 := if isLatLng (driver s) then fallbackDU s1 else s1 in
  let s3 := if isLatLng (dest s) then fallbackUD s2 else s2 in
  if isLatLng (driver s) || isLatLng (dest s) then fetchEffect now s3 else s3.

Inductive Event : Type :=
| GpsFix (lat lon acc : R)
| GpsError (msg : string)
| MapClick (lat lng : R)
| ClickSetDriver
| ClickSetDestination
| ClickClear
| TimerFires (leg : Leg)
| FetchSettles (c : nat) (leg : Leg) (r : Settled).

Definition handle (now : Z) (e : Event) (s : State) : State :=
  setClock now
    match e with
    | GpsFix lat lon acc => onGpsFix now lat lon acc s
    | GpsError msg => onGpsError msg s
    | MapClick lat lng => onMapClick now lat lng s
    | ClickSetDriver => toggleTap TapDriver s
    | ClickSetDestination => toggleTap TapDest s
    | ClickClear => onClear now s
    | TimerFires leg => timerFires leg s
    | FetchSettles c leg r => fetchLegResume leg r (settle c s)
    end.

Definition enabled (now : Z) (e : Event) (s : State) : Prop :=
  (clock s <= now)%Z /\
  match e with
  | GpsFix _ _ _ | GpsError _ => True
  | MapClick _ _ | ClickSetDriver | ClickSetDestination | ClickClear => position s <> None
  | TimerFires leg => exists t, timer (legOf leg s) = Some t /\ (due t <= now)%Z
  | FetchSettles c leg r => In (c, leg) (inflight s)
  end.

Definition emptyLeg : LegState :=
  {| route := []; km := None; min_ := None; loading := false; timer := None |}.

Definition initial (now : Z) : State :=
  {| position := None; accuracy := None; driver := None; dest := None;
     legDU := emptyLeg; legUD := emptyLeg;
     error := ""; tapMode := None; fetched := []; inflight := [];
     nextCall := O; clock := now |}.

Definition mounted (now : Z) (geolocation : bool) : State :=
  let s := initial now in
  let s1 := if geolocation then s else setError "Geolocation not supported." s in
  fetchEffect now (fallbackUD (fallbackDU s1)).

Inductive reachable : State -> Prop :=
| reach_mounted now geolocation : reachable (mounted now geolocation)
| reach_step s now e : reachable s -> enabled now e s -> reachable (handle now e s).

(** [totalMin] *)
Definition totalMin (s : State) : option Z :=
  let a := match minDU s with Some m => m | None => 0%Z end in
  let b := match minUD s with Some m => m | None => 0%Z end in
  let sum := (a + b)%Z in
  if (0 <? sum)%Z then Some sum else None.

End Component.
End V1.

(** ** The version with via points: [RideMapWithVias] *)

(** [xs.join(sep)] *)
Fixpoint join (sep : string) (xs : list string) : string :=
  match xs with
  | [] => ""
  | [x] => x
  | x :: rest => x ++ sep ++ join sep rest
  end.

Definition hexDigit (n : N) : ascii :=
  ascii_of_N (if (n <? 10)%N then 48 + n else 55 + n).

(** The characters [encodeURIComponent] leaves as they are. *)
Definition unreserved (c : ascii) : bool :=
  let n := N_of_ascii c in
  ((65 <=? n) && (n <=? 90) || (97 <=? n) && (n <=? 122) || (48 <=? n) && (n <=? 57))%N ||
  existsb (Ascii.eqb c) ["-"; "_"; "."; "!"; "~"; "*"; "'"; "("; ")"]%char.

(** [encodeURIComponent] on a string of UTF-8 bytes. *)
Fixpoint encodeURIComponent (s : string) : string :=
  match s with
  | EmptyString => EmptyString
  | String c rest =>
      if unreserved c then String c (encodeURIComponent rest)
      else
        let n := N_of_ascii c in
        String "%" (String (hexDigit (n / 16)) (String (hexDigit (n mod 16))
          (encodeURIComponent rest)))
  end.

Module Vias.
Section Component.
Context `{JsNumber}.

Definition DEBOUNCE_MS : Z := 300.

(** A pending [setTimeout] of the fetch effect: the URL its closure
    captured and the run of the effect it belongs to. *)
Record Timer : Type := {
  due : Z;
  tUrl : string;
  tRun : nat
}.

Record State : Type := {
  position : Point;
  accuracy : option R;
  dest : Point;
  vias : list LatLng;
  routeCoords : list LatLng;
  distanceKm : option string;
  durationMin : option Z;
  loading : bool;
  error : string;
  avoidMotorway : bool;
  avoidFerry : bool;
  avoidToll : bool;
  timer : option Timer;
  (** the run of the fetch effect whose cleanup is registered *)
  live : option nat;
  (** the runs whose [canceled] variable is true *)
  canceled : list nat;
  nextRun : nat;
  (** every [fetch] call so far, oldest first *)
  fetched : list string;
  (** the runs whose request has not settled yet *)
  inflight : list nat;
  clock : Z
}.

Definition setPosition (v : Point) (s : State) : State :=
  {| position := v; accuracy := accuracy s; dest := dest s; vias := vias s;
     routeCoords := routeCoords s; distanceKm := distanceKm s; durationMin := durationMin s;
     loading := loading s; error := error s; avoidMotorway := avoidMotorway s;
     avoidFerry := avoidFerry s; avoidToll := avoidToll s; timer := timer s; live := live s;
     canceled := canceled s; nextRun := nextRun s; fetched := fetched s;
     inflight := inflight s; clock := clock s |}.
Definition setAccuracy (v : option R) (s : State) : State :=
  {| position := position s; accuracy := v; dest := dest s; vias := vias s;
     routeCoords := routeCoords s; distanceKm := distanceKm s; durationMin := durationMin s;
     loading := loading s; error := error s; avoidMotorway := avoidMotorway s;
     avoidFerry := avoidFerry s; avoidToll := avoidToll s; timer := timer s; live := live s;
     canceled := canceled s; nextRun := nextRun s; fetched := fetched s;
     inflight := inflight s; clock := clock s |}.
Definition setDest (v : Point) (s : State) : State :=
  {| position := position s; accuracy := accuracy s; dest := v; vias := vias s;
     routeCoords := routeCoords s; distanceKm := distanceKm s; durationMin := durationMin s;
     loading := loading s; error := error s; avoidMotorway := avoidMotorway s;
     avoidFerry := avoidFerry s; avoidToll := avoidToll s; timer := timer s; live := live s;
     canceled := canceled s; nextRun := nextRun s; fetched := fetched s;
     inflight := inflight s; clock := clock s |}.
Definition setVias (v : list LatLng) (s : State) : State :=
  {| position := position s; accuracy := accuracy s; dest := dest s; vias := v;
     routeCoords := routeCoords s; distanceKm := distanceKm s; durationMin := durationMin s;
     loading := loading s; error := error s; avoidMotorway := avoidMotorway s;
     avoidFerry := avoidFerry s; avoidToll := avoidToll s; timer := timer s; live := live s;
     canceled := canceled s; nextRun := nextRun s; fetched := fetched s;
     inflight := inflight s; clock := clock s |}.
Definition setRouteCoords (v : list LatLng) (s : State) : State :=
  {| position := position s; accuracy := accuracy s; dest := dest s; vias := vias s;
     routeCoords := v; distanceKm := distanceKm s; durationMin := durationMin s;
     loading := loading s; error := error s; avoidMotorway := avoidMotorway s;
     avoidFerry := avoidFerry s; avoidToll := avoidToll s; timer := timer s; live := live s;
     canceled := canceled s; nextRun := nextRun s; fetched := fetched s;
     inflight := inflight s; clock := clock s |}.
Definition setDistanceKm (v : option string) (s : State) : State :=
  {| position := position s; accuracy := accuracy s; dest := dest s; vias := vias s;
     routeCoords := routeCoords s; distanceKm := v; durationMin := durationMin s;
     loading := loading s; error := error s; avoidMotorway := avoidMotorway s;
     avoidFerry := avoidFerry s; avoidToll := avoidToll s; timer := timer s; live := live s;
     canceled := canceled s; nextRun := nextRun s; fetched := fetched s;
     inflight := inflight s; clock := clock s |}.
Definition setDurationMin (v : option Z) (s : State) : State :=
  {| position := position s; accuracy := accuracy s; dest := dest s; vias := vias s;
     routeCoords := routeCoords s; distanceKm := distanceKm s; durationMin := v;
     loading := loading s; error := error s; avoidMotorway := avoidMotorway s;
     avoidFerry := avoidFerry s; avoidToll := avoidToll s; timer := timer s; live := live s;
     canceled := canceled s; nextRun := nextRun s; fetched := fetched s;
     inflight := inflight s; clock := clock s |}.
Definition setLoading (v : bool) (s : State) : State :=
  {| position := position s; accuracy := accuracy s; dest := dest s; vias := vias s;
     routeCoords := routeCoords s; distanceKm := distanceKm s; durationMin := durationMin s;
     loading := v; error := error s; avoidMotorway := avoidMotorway s;
     avoidFerry := avoidFerry s; avoidToll := avoidToll s; timer := timer s; live := live s;
     canceled := canceled s; nextRun := nextRun s; fetched := fetched s;
     inflight := inflight s; clock := clock s |}.
Definition setError (v : string) (s : State) : State :=
  {| position := position s; accuracy := accuracy s; dest := dest s; vias := vias s;
     routeCoords := routeCoords s; distanceKm := distanceKm s; durationMin := durationMin s;
     loading := loading s; error := v; avoidMotorway := avoidMotorway s;
     avoidFerry := avoidFerry s; avoidToll := avoidToll s; timer := timer s; live := live s;
     canceled := canceled s; nextRun := nextRun s; fetched := fetched s;
     inflight := inflight s; clock := clock s |}.
Definition setAvoid (m f t : bool) (s : State) : State :=
  {| position := position s; accuracy := accuracy s; dest := dest s; vias := vias s;
     routeCoords := routeCoords s; distanceKm := distanceKm s; durationMin := durationMin s;
     loading := loading s; error := error s; avoidMotorway := m;
     avoidFerry := f; avoidToll := t; timer := timer s; live := live s;
     canceled := canceled s; nextRun := nextRun s; fetched := fetched s;
     inflight := inflight s; clock := clock s |}.
Definition setClock (v : Z) (s : State) : State :=
  {| position := position s; accuracy := accuracy s; dest := dest s; vias := vias s;
     routeCoords := routeCoords s; distanceKm := distanceKm s; durationMin := durationMin s;
     loading := loading s; error := error s; avoidMotorway := avoidMotorway s;
     avoidFerry := avoidFerry s; avoidToll := avoidToll s; timer := timer s; live := live s;
     canceled := canceled s; nextRun := nextRun s; fetched := fetched s;
     inflight := inflight s; clock := v |}.

(** The bookkeeping of the fetch effect and of the network: timer, live
    run, cancelled runs, run counter, calls of [fetch], unsettled runs. *)
Definition setWorld (t : option Timer) (l : option nat) (c : list nat) (n : nat)
  (f : list string) (i : list nat) (s : State) : State :=
  {| position := position s; accuracy := accuracy s; dest := dest s; vias := vias s;
     routeCoords := routeCoords s; distanceKm := distanceKm s; durationMin := durationMin s;
     loading := loading s; error := error s; avoidMotorway := avoidMotorway s;
     avoidFerry := avoidFerry s; avoidToll := avoidToll s; timer := t; live := l;
     canceled := c; nextRun := n; fetched := f; inflight := i; clock := clock s |}.

(** The [for] loop of the fallback effect:
    [for (i = 0; i < pts.length - 1; i++) km += haversineKm(pts[i], pts[i+1])]. *)
Definition chainKm (pts : list LatLng) : R :=
  fold_left
    (fun km i => km + haversineKm (nth i pts (0, 0)) (nth (i + 1) pts (0, 0)))
    (seq 0 (List.length pts - 1)) 0.

(** The fallback effect on [[position, dest, vias]]. *)
Definition fallback (s : State) : State :=
  match position s, dest s with
  | Some p, Some d =>
      let pts := (p :: vias s ++ [d])%list in
      let km := chainKm pts in
      let eta := Math_max 1 (Math_round ((km / 25) * 60)) in
      setRouteCoords [] (setDurationMin (Some eta) (setDistanceKm (Some (toFixed 2 km)) s))
  | _, _ => s
  end.

(** [buildRouteUrl()]; [None] is [null]. *)
Definition buildRouteUrl (s : State) : option string :=
  match position s, dest s with
  | Some p, Some d =>
      let all := (p :: vias s ++ [d])%list in
      let coordsStr :=
        join ";" (map (fun c => numToString (snd c) ++ "," ++ numToString (fst c)) all) in
      let exclude :=
        join ","
          ((if avoidMotorway s then ["motorway"] else []) ++
           (if avoidFerry s then ["ferry"] else []) ++
           (if avoidToll s then ["toll"] else []))%list in
      Some (osrmBase ++ coordsStr ++
            "?overview=full&geometries=geojson&steps=false&alternatives=false&continue_straight=true" ++
            (if String.eqb exclude "" then "" else "&exclude=" ++ encodeURIComponent exclude))
  | _, _ => None
  end.

(** The cleanup of the live run of the fetch effect:
    [clearTimeout(t); canceled = true]. *)
Definition cleanup (s : State) : State :=
  match live s with
  | Some run =>
      setWorld None None (run :: canceled s) (nextRun s) (fetched s) (inflight s) s
  | None => s
  end.

(** The fetch effect on [[position, dest, vias, avoidMotorway, avoidFerry,
    avoidToll]]: the cleanup of the previous run, then the body. *)
Definition fetchEffect (now : Z) (s : State) : State :=
  let s0 := cleanup s in
  match buildRouteUrl s0 with
  | Some u =>
      let run := nextRun s0 in
      let s1 := setError "" (setLoading true s0) in
      setWorld (Some {| due := now + DEBOUNCE_MS; tUrl := u; tRun := run |})
               (Some run) (canceled s1) (S run) (fetched s1) (inflight s1) s1
  | None => s0
  end.

(** The timer runs its callback, up to [await fetch(url)]. *)
Definition timerFires (s : State) : State :=
  match timer s with
  | Some t =>
      setWorld None (live s) (canceled s) (nextRun s)
               (fetched s ++ [tUrl t])%list (tRun t :: inflight s) s
  | None => s
  end.

Definition errorSuffix : string := " — showing straight-line.".

(** The rest of the timer callback of [run], once its awaited part has
    ended with [r]. *)
Definition fetchResume (run : nat) (r : Settled) (s : State) : State :=
  let isCanceled := existsb (Nat.eqb run) (canceled s) in
  let s' :=
    match awaited r with
    | inr rt =>
        if isCanceled then s
        else
          let coords := toPath rt in
          setDurationMin (Some (Math_max 1 (Math_round (duration rt / 60))))
            (setDistanceKm (Some (toFixed 2 (distance rt / 1000)))
               (setRouteCoords coords s))
    | inl e =>
        if isCanceled then s
        else setError (orElse (message e) "Route fetch failed" ++ errorSuffix) s
    end in
  if isCanceled then s' else setLoading false s'.

Definition settle (run : nat) (s : State) : State :=
  setWorld (timer s) (live s) (canceled s) (nextRun s) (fetched s)
           (filter (fun r => negb (Nat.eqb r run)) (inflight s)) s.

Definition effects (now : Z) (s : State) : State := fetchEffect now (fallback s).

Definition onGpsFix (now : Z) (lat lon acc : R) (s : State) : State :=
  effects now (setAccuracy (Some acc) (setPosition (Some (lat, lon)) (setError "" s))).

Definition onGpsError (msg : string) (s : State) : State :=
  setError (orElse msg "Unable to get location") s.

(** [onSetDest] *)
Definition onSetDest (pt : LatLng) (s : State) : State := setDest (Some pt) s.

(** [onAddVia]: [setVias(v => [...v, pt])] *)
Definition onAddVia (pt : LatLng) (s : State) : State := setVias (vias s ++ [pt])%list s.

(** The [click] handler of [TapHandler], before the effects. *)
Definition click (shiftKey : bool) (lat lng : R) (s : State) : State :=
  if shiftKey then onAddVia (lat, lng) s else onSetDest (lat, lng) s.

Definition onMapClick (now : Z) (shiftKey : bool) (lat lng : R) (s : State) : State :=
  effects now (click shiftKey lat lng s).

(** [prev.map((p, idx) => idx === i ? [ll.lat, ll.lng] : p)] *)
Fixpoint replaceAt (i : nat) (v : LatLng) (l : list LatLng) : list LatLng :=
  match l, i with
  | [], _ => []
  | _ :: rest, O => v :: rest
  | p :: rest, S j => p :: replaceAt j v rest
  end.

Definition onViaDragEnd (now : Z) (i : nat) (lat lng : R) (s : State) : State :=
  effects now (setVias (replaceAt i (lat, lng) (vias s)) s).

(** A checkbox changes: only the fetch effect depends on it. *)
Definition onAvoid (now : Z) (m f t : bool) (s : State) : State :=
  fetchEffect now (setAvoid m f t s).

Definition onClearVias (now : Z) (s : State) : State :=
  effects now (setVias [] s).

(** The [onClick] of the Clear button. *)
Definition clearHandler (s : State) : State :=
  setError "" (setDurationMin None (setDistanceKm None
    (setRouteCoords [] (setVias [] (setDest None s))))).

Definition onClear (now : Z) (s : State) : State := effects now (clearHandler s).

Inductive Event : Type :=
| GpsFix (lat lon acc : R)
| GpsError (msg : string)
| MapClick (shiftKey : bool) (lat lng : R)
| ViaDragEnd (i : nat) (lat lng : R)
| ToggleMotorway
| ToggleFerry
| ToggleToll
| ClickClearVias
| ClickClear
| TimerFires
| FetchSettles (run : nat) (r : Settled).

Definition handle (now : Z) (e : Event) (s : State) : State :=
  setClock now
    match e with
    | GpsFix lat lon acc => onGpsFix now lat lon acc s
    | GpsError msg => onGpsError msg s
    | MapClick shiftKey lat lng => onMapClick now shiftKey lat lng s
    | ViaDragEnd i lat lng => onViaDragEnd now i lat lng s
    | ToggleMotorway => onAvoid now (negb (avoidMotorway s)) (avoidFerry s) (avoidToll s) s
    | ToggleFerry => onAvoid now (avoidMotorway s) (negb (avoidFerry s)) (avoidToll s) s
    | ToggleToll => onAvoid now (avoidMotorway s) (avoidFerry s) (negb (avoidToll s)) s
    | ClickClearVias => onClearVias now s
    | ClickClear => onClear now s
    | TimerFires => timerFires s
    | FetchSettles run r => fetchResume run r (settle run s)
    end.

(** The map and the controls exist once [position] is set, a via marker for
    each via, the Clear button while [dest] is set. *)
Definition enabled (now : Z) (e : Event) (s : State) : Prop :=
  (clock s <= now)%Z /\
  match e with
  | GpsFix _ _ _ | GpsError _ => True
  | MapClick _ _ _ | ToggleMotorway | ToggleFerry | ToggleToll | ClickClearVias =>
      position s <> None
  | ViaDragEnd i _ _ => position s <> None /\ (i < List.length (vias s))%nat
  | ClickClear => position s <> None /\ dest s <> None
  | TimerFires => exists t, timer s = Some t /\ (due t <= now)%Z
  | FetchSettles run r => In run (inflight s)
  end.

Definition initial (now : Z) : State :=
  {| position := None; accuracy := None; dest := None; vias := [];
     routeCoords := []; distanceKm := None; durationMin := None;
     loading := false; error := ""; avoidMotorway := false;
     avoidFerry := false; avoidToll := false; timer := None; live := None;
     canceled := []; nextRun := O; fetched := []; inflight := []; clock := now |}.

Definition mounted (now : Z) (geolocation : bool) : State :=
  let s := initial now in
  let s1 := if geolocation then s else setError "Geolocation not supported." s in
  effects now s1.

Inductive reachable : State -> Prop :=
| reach_mounted now geolocation : reachable (mounted now geolocation)
| reach_step s now e : reachable s -> enabled now e s -> reachable (handle now e s).

(** *** The bottom bar *)

Definition placeholder : string := "—".

Inductive BottomBar : Type :=
| Prompt (text : string)
| Fields (distanceText etaText : string).

Inductive View : Type :=
| Waiting (text : string)
| Map (bar : BottomBar) (status : string) (err : string).

Definition render (s : State) : View :=
  match position s with
  | None => Waiting "Allow location access…"
  | Some _ =>
      Map
        match dest s with
        | None => Prompt "Click to set destination · Shift+Click to add via"
        | Some _ =>
            Fields
              match distanceKm s with Some k => k | None => placeholder end
              match durationMin s with Some m => intToString m | None => placeholder end
        end
        (if loading s then "Fetching route…" else "Idle")
        (error s)
  end.

End Component.
End Vias.

(** ** Vocabulary of the properties *)

(** A stored ETA is [null] or at least one minute. *)
Definition etaOk (v : option Z) : Prop :=
  match v with
  | Some m => (1 <= m)%Z
  | None => True
  end.

(** [s] ends with [suffix]. *)
Definition endsWith (s suffix : string) : Prop := exists pre, s = pre ++ suffix.

(** A number formatting to evaluate closed examples with; no example
    depends on what it prints. *)
Definition sampleNumbers : JsNumber :=
  {| toFixed := fun _ _ => "0.00"; numToString := fun _ => "0"; Number_ := fun _ => 0 |}.

(** *** Invariants of the third version *)

Module V3Inv.
Section Invariants.
Context `{JsNumber}.
Import V3.

Definition https (q : Request) : Prop := urlScheme (url q) = "https".

(** Every stored ETA is at least one minute. *)
Definition etas (s : State) : Prop := etaOk (minDU s) /\ etaOk (minUD s).

(** The controller stored for a leg is the one of the request issued last
    for it. *)
Definition latest (s : State) : Prop :=
  forall leg, abort (legOf leg s) = latestIssued leg (issued s).

(** A pending timer holds the current points of its leg and was set no
    later than the last step. *)
Definition timersFresh (s : State) : Prop :=
  forall leg t, timer (legOf leg s) = Some t ->
    (tFrom t, tTo t) = inputs leg s /\ (due t - DEBOUNCE_MS <= clock s)%Z.

(** Controllers are handed out in increasing order. *)
Definition allocated (s : State) : Prop :=
  (forall c l, In (c, l) (issued s) -> (c < nextCtrl s)%nat) /\
  (forall c, In c (aborted s) -> (c < nextCtrl s)%nat) /\
  (forall leg c, abort (legOf leg s) = Some c -> (c < nextCtrl s)%nat).

(** Every request but the last of its leg has been aborted. *)
Definition superseded (s : State) : Prop :=
  forall c l, In (c, l) (issued s) -> abort (legOf l s) = Some c \/ In c (aborted s).


(** What the fallback effects store for a leg between [a] and [b]. *)
Definition fallbackKm (a b : Point) : option string :=
  match a, b with
  | Some x, Some y => Some (toFixed 2 (haversineKm x y))
  | _, _ => None
  end.

Definition fallbackMin (a b : Point) : option Z :=
  match a, b with
  | Some x, Some y => Some (Math_max 1 (Math_round ((haversineKm x y / 25) * 60)))
  | _, _ => None
  end.

(** The top of the state: what no request and no timer touches. *)
Definition top (s : State) :
  Point * option R * Point * Point * option TapMode * bool * bool :=
  (position s, accuracy s, driver s, dest s, tapMode s, follow s, moved s).

(** The request bookkeeping: requests issued, controllers aborted, next
    controller, the stored controllers, the calls of [fetch]. *)
Definition book (s : State) :
  list (Ctrl * Leg) * list Ctrl * Ctrl * option Ctrl * option Ctrl * list Request :=
  (issued s, aborted s, nextCtrl s, abortDU s, abortUD s, fetched s).

(** The events that touch the request bookkeeping. *)
Definition touchesBook (e : Event) : bool :=
  match e with
  | TimerFires _ | ClickClear => true
  | _ => false
  end.

(** [runsTo s s']: the steps the browser can deliver lead from [s] to
    [s']. *)
Inductive runsTo (s : State) : State -> Prop :=
| runs_here : runsTo s s
| runs_step s' now e : runsTo s s' -> enabled now e s' -> runsTo s (handle now e s').

(** Since the time [T] no timer of the leg is due earlier than
    [DEBOUNCE_MS] after [T]. *)
Definition quiet (leg : Leg) (T : Z) (s : State) : Prop :=
  (T <= clock s)%Z /\
  forall t, timer (legOf leg s) = Some t -> (T + DEBOUNCE_MS <= due t)%Z.

End Invariants.
End V3Inv.

(** *** Invariants of the first version and of the version with vias *)

Module V1Inv.
Section Invariants.
Context `{JsNumber}.
Import V1.

Definition etas (s : State) : Prop := etaOk (minDU s) /\ etaOk (minUD s).

Definition https (u : string) : Prop := urlScheme u = "https".

End Invariants.
End V1Inv.

Module ViasInv.
Section Invariants.
Context `{JsNumber}.
Import Vias.

Definition https (u : string) : Prop := urlScheme u = "https".

(** Every call of [fetch], and the URL a pending timer holds, is https. *)
Definition urls (s : State) : Prop :=
  Forall https (fetched s) /\ forall t, timer s = Some t -> https (tUrl t).

(** A request not settled belongs to the live run of the fetch effect or to
    a cancelled one; a pending timer belongs to the live run; while the
    destination is unset there is no distance. *)
Definition runs0 (s : State) : Prop :=
  (forall run, In run (inflight s) -> live s = Some run \/ In run (canceled s)) /\
  (forall t, timer s = Some t -> live s = Some (tRun t)) /\
  (dest s = None -> distanceKm s = None).

(** ... and, once the fetch effect has run, no live run either. *)
Definition runs (s : State) : Prop :=
  runs0 s /\ (dest s = None -> live s = None).

End Invariants.
End ViasInv.

(** *** Sample runs *)

(** A run of the third version: a GPS fix, a destination set by a tap, the
    debounce timer of the leg to it, a second fix and a second timer. *)
Module V3Run.
Import V3.

Definition start : State := @mounted sampleNumbers 0 true.
Definition located : State := @handle sampleNumbers 1000 (GpsFix 0 0 5) start.
Definition armed : State := @handle sampleNumbers 2000 ClickSetDestination located.
Definition destined : State := @handle sampleNumbers 3000 (MapClick 1 1) armed.
Definition requested : State := @handle sampleNumbers 10000 (TimerFires UD) destined.
Definition relocated : State := @handle sampleNumbers 20000 (GpsFix 0 0 5) requested.
Definition requestedAgain : State := @handle sampleNumbers 30000 (TimerFires UD) relocated.

Definition someRoute : Route :=
  {| geometry := [(0, 0); (1, 1)]; distance := 157000; duration := 600 |}.

End V3Run.

(** A run of the version with vias: a GPS fix, a destination, its request,
    then a second destination while the request is in flight. *)
Module ViasRun.
Import Vias.

Definition start : State := @mounted sampleNumbers 0 true.
Definition located : State := @handle sampleNumbers 1000 (GpsFix 0 0 5) start.
Definition destined : State := @handle sampleNumbers 2000 (MapClick false 1 1) located.
Definition requested : State := @handle sampleNumbers 3000 TimerFires destined.
Definition redirected : State := @handle sampleNumbers 4000 (MapClick false 2 2) requested.

End ViasRun.

(** A run of the first version up to a request for the leg to the
    destination. *)
Module V1Run.
Import V1.

Definition start : State := @mounted sampleNumbers 0 true.
Definition located : State := @handle sampleNumbers 1000 (GpsFix 0 0 5) start.
Definition armed : State := @handle sampleNumbers 2000 ClickSetDestination located.
Definition destined : State := @handle sampleNumbers 3000 (MapClick 1 1) armed.
Definition requested : State := @handle sampleNumbers 4000 (TimerFires UD) destined.
Definition cleared : State := @handle sampleNumbers 5000 ClickClear requested.
Definition late : State :=
  @handle sampleNumbers 6000 (FetchSettles 0 UD (Json [V3Run.someRoute])) cleared.

End V1Run.

(** ** The viewport: bounds, [RecenterOnce], [ViewportController] *)

(** [if (isLatLng(v)) pts.push(v)] *)
Definition pushPoint (v : Point) : list LatLng :=
  match v with
  | Some p => [p]
  | None => []
  end.

(** The [bounds] memo of the two versions of [RideMapMultiLeg]; [Some pts]
    stands for [L.latLngBounds(pts)], [None] for [null]. *)
Definition multiLegBounds (routeDU routeUD : list LatLng) (driver position dest : Point) :
  option (list LatLng) :=
  let pts := (routeDU ++ routeUD)%list in
  let pts :=
    match pts with
    | [] => (pushPoint driver ++ pushPoint position ++ pushPoint dest)%list
    | _ => pts
    end in
  match pts with
  | [] => None
  | _ => Some pts
  end.

Module V1Map.

Definition bounds (s : V1.State) : option (list LatLng) :=
  multiLegBounds (V1.routeDU s) (V1.routeUD s) (V1.driver s) (V1.position s) (V1.dest s).

End V1Map.

Module ViasMap.

(** The [bounds] memo of [RideMapWithVias]. *)
Definition bounds (s : Vias.State) : option (list LatLng) :=
  let pts :=
    match Vias.routeCoords s with
    | [] => (pushPoint (Vias.position s) ++ Vias.vias s ++ pushPoint (Vias.dest s))%list
    | _ => Vias.routeCoords s
    end in
  match pts with
  | [] => None
  | _ => Some pts
  end.

End ViasMap.

Module V3Map.

Definition bounds (s : V3.State) : option (list LatLng) :=
  multiLegBounds (V3.routeDU s) (V3.routeUD s) (V3.driver s) (V3.position s) (V3.dest s).

(** The effect of [ViewportController] on [[bounds, follow, map]]: the
    bounds it passes to [map.fitBounds], if it calls it;
    [userInteracting] is [userInteractingRef.current]. *)
Definition viewportEffect (s : V3.State) (userInteracting : bool) : option (list LatLng) :=
  match bounds s with
  | None => None
  | Some b => if negb (V3.follow s) || userInteracting then None else Some b
  end.

End V3Map.

(** [RecenterOnce]: its effect on [[position, map]], run with [did.current]
    equal to [did]; it gives the new [did.current] and the call of
    [map.setView] it made, if any. *)
Definition recenterOnce (position : Point) (did : bool) : bool * option (LatLng * Z) :=
  match position with
  | Some p => if negb did then (true, Some (p, 16%Z)) else (did, None)
  | None => (did, None)
  end.

(** [RecenterOnce] over the positions of successive renders: the calls of
    [map.setView], oldest first. *)
Fixpoint recenterRun (positions : list Point) (did : bool) : list (LatLng * Z) :=
  match positions with
  | [] => []
  | p :: rest =>
      let '(did', call) := recenterOnce p did in
      match call with
      | Some c => c :: recenterRun rest did'
      | None => recenterRun rest did'
      end
  end.

(** ** Requests in flight *)

Module V3Req.
Import V3.

(** A request of the leg has been issued and has not settled. *)
Definition pending (leg : Leg) (s : State) : Prop :=
  exists c, In (c, leg) (issued s) /\ ~ In c (settled s).

(** The controllers of the requests issued, oldest first. *)
Definition controllers (s : State) : list Ctrl := rev (map fst (issued s)).

(** Every request has a controller of its own, handed out before the next
    one, and [fetch] was called once for each, in order. *)
Definition distinct (s : State) : Prop :=
  NoDup (map fst (issued s)) /\
  map signal (fetched s) = controllers s /\
  (forall c l, In (c, l) (issued s) -> (c < nextCtrl s)%nat) /\
  (forall c, In c (settled s) -> (c < nextCtrl s)%nat).

(** A leg is shown as loading only while one of its requests is pending. *)
Definition loadingPending (s : State) : Prop :=
  forall leg, loading (legOf leg s) = true -> pending leg s.

(** The loading flags and the requests settled. *)
Definition flags (s : State) : bool * bool * list Ctrl :=
  (loading (legDU s), loading (legUD s), settled s).

End V3Req.

Module ViasReq.
Section Requests.
Context `{JsNumber}.
Import Vias.

(** What the route URL is built from. *)
Definition urlInputs (s : State) : Point * Point * list LatLng * bool * bool * bool :=
  (position s, dest s, vias s, avoidMotorway s, avoidFerry s, avoidToll s).

(** The road classes to avoid, in the order of the checkboxes. *)
Definition avoided (s : State) : list string :=
  ((if avoidMotorway s then ["motorway"] else []) ++
   (if avoidFerry s then ["ferry"] else []) ++
   (if avoidToll s then ["toll"] else []))%list.


(** With a position and a destination, the straight-line estimate is
    shown: no polyline, and the distance and the ETA the fallback effect
    stores for the chain. *)
Definition straightLine (s : State) : Prop :=
  forall p d, position s = Some p -> dest s = Some d ->
    routeCoords s = [] /\
    distanceKm s = Some (toFixed 2 (chainKm (p :: vias s ++ [d])%list)) /\
    durationMin s =
      Some (Math_max 1 (Math_round ((chainKm (p :: vias s ++ [d])%list / 25) * 60))).

(** The events that bring a route. *)
Definition bringsRoute (e : Event) : Prop :=
  match e with
  | FetchSettles _ r => exists rt, awaited r = inr rt
  | _ => False
  end.

(** A pending timer holds the URL of the current inputs, and the live run
    of the fetch effect is the last one started. *)
Definition fresh (s : State) : Prop :=
  (forall t, timer s = Some t -> buildRouteUrl s = Some (tUrl t)) /\
  (forall run, live s = Some run -> nextRun s = S run).

(** What a route response can change. *)
Definition shown (s : State) : list LatLng * option string * option Z * string * bool :=
  (routeCoords s, distanceKm s, durationMin s, error s, loading s).

(** [runsTo s s']: the steps the browser can deliver lead from [s] to
    [s']. *)
Inductive runsTo (s : State) : State -> Prop :=
| from_here : runsTo s s
| from_step s' now e : runsTo s s' -> enabled now e s' -> runsTo s (handle now e s').

(** Since the time [T] no timer is due earlier than [DEBOUNCE_MS] after
    [T]. *)
Definition quiet (T : Z) (s : State) : Prop :=
  (T <= clock s)%Z /\ forall t, timer s = Some t -> (T + DEBOUNCE_MS <= due t)%Z.

End Requests.
End ViasReq.

Module V1Req.
Section Requests.
Context `{JsNumber}.
Import V1.

(** The points the two legs are routed between. *)
Definition points (s : State) : Point * Point * Point := (driver s, position s, dest s).

(** The points a leg is routed between. *)
Definition legPoints (leg : Leg) (s : State) : Point * Point :=
  match leg with
  | DU => (driver s, position s)
  | UD => (position s, dest s)
  end.

(** The leg shows its straight-line estimate: no polyline, and the
    distance and the ETA the fallback effect stores for its points. *)
Definition straightLine (leg : Leg) (s : State) : Prop :=
  route (legOf leg s) = [] /\
  km (legOf leg s) = V3Inv.fallbackKm (fst (legPoints leg s)) (snd (legPoints leg s)) /\
  min_ (legOf leg s) = V3Inv.fallbackMin (fst (legPoints leg s)) (snd (legPoints leg s)).

(** The events that bring a route to the leg. *)
Definition bringsRoute (leg : Leg) (e : Event) : Prop :=
  match e with
  | FetchSettles _ l r => l = leg /\ exists rt, awaited r = inr rt
  | _ => False
  end.

(** [runsTo s s']: the steps the browser can deliver lead from [s] to
    [s']. *)
Inductive runsTo (s : State) : State -> Prop :=
| here : runsTo s s
| step s' now e : runsTo s s' -> enabled now e s' -> runsTo s (handle now e s').

(** Since the time [T] no timer of the leg is due earlier than
    [DEBOUNCE_MS] after [T]. *)
Definition quiet (leg : Leg) (T : Z) (s : State) : Prop :=
  (T <= clock s)%Z /\
  forall t, timer (legOf leg s) = Some t -> (T + DEBOUNCE_MS <= due t)%Z.

End Requests.
End V1Req.

(** ** Further sample runs *)

Module MoreRuns.

(** The third version: the map is dragged after the first fix. *)
Definition panned : V3.State := @V3.handle sampleNumbers 1500 V3.MapDragStart V3Run.located.

(** The third version: the route of the first request has arrived. *)
Definition routed : V3.State :=
  @V3.handle sampleNumbers 20000
    (V3.FetchSettles 0%nat V3.UD (Json [V3Run.someRoute])) V3Run.requested.


(** The version with vias: Clear is pressed while the request is in
    flight. *)
Definition cleared : Vias.State := @Vias.handle sampleNumbers 4000 Vias.ClickClear ViasRun.requested.

(** The version with vias: a via is added after the first fix. *)
Definition withVia : Vias.State :=
  @Vias.handle sampleNumbers 1500 (Vias.MapClick true 2 2) ViasRun.located.

(** The version with vias: ferries are to be avoided. *)
Definition noFerry : Vias.State := @Vias.handle sampleNumbers 2500 Vias.ToggleFerry ViasRun.destined.

End MoreRuns.

(** * Properties *)

(** Case analysis on an innermost scrutinee of the goal. *)
Ltac break_match :=
  match goal with
  | |- context [match ?x with _ => _ end] =>
      lazymatch x with
      | context [match _ with _ => _ end] => fail
      | _ => destruct x eqn:?
      end
  end.

(** ** The haversine distance *)

Section Haversine.
Import HaversineSpec.

Lemma haversineKm_spec p q : haversineKm p q = greatCircleKm p q.
Proof.
  destruct p as [lat1 lon1], q as [lat2 lon2].
  unfold haversineKm, greatCircleKm, earthRadiusKm, radians, Rsqr; simpl.
  replace ((lat2 - lat1) * PI / 180) with (lat2 * PI / 180 - lat1 * PI / 180) by lra.
  replace ((lon2 - lon1) * PI / 180) with (lon2 * PI / 180 - lon1 * PI / 180) by lra.
  repeat rewrite Rmult_1_r. reflexivity.
Qed.

Lemma haversineKm_refl p : haversineKm p p = 0.
Proof.
  destruct p as [lat lon]. unfold haversineKm.
  replace ((lat - lat) * PI / 180 / 2) with 0 by lra.
  replace ((lon - lon) * PI / 180 / 2) with 0 by lra.
  rewrite sin_0. simpl.
  replace (0 * (0 * 1) + cos (lat * PI / 180) * cos (lat * PI / 180) * (0 * (0 * 1))) with 0 by lra.
  rewrite sqrt_0, asin_0. lra.
Qed.

Lemma distanceMeters_refl p : distanceMeters p p = 0.
Proof. unfold distanceMeters. rewrite haversineKm_refl. lra. Qed.

Lemma sin_half_sqr x : Rsqr (sin (x / 2)) = (1 - cos x) / 2.
Proof.
  replace x with (2 * (x / 2)) at 2 by lra.
  rewrite cos_2a_sin. unfold Rsqr. lra.
Qed.

Lemma hav_cos phi1 phi2 dlam :
  1 - 2 * hav phi1 phi2 dlam = cos phi1 * cos phi2 * cos dlam + sin phi1 * sin phi2.
Proof. unfold hav. rewrite !sin_half_sqr, cos_minus. lra. Qed.

Lemma dot_onSphere p q :
  dot (onSphere p) (onSphere q) =
  cos (radians (fst p)) * cos (radians (fst q)) * cos (radians (snd q) - radians (snd p))
  + sin (radians (fst p)) * sin (radians (fst q)).
Proof. unfold dot, onSphere. rewrite cos_minus. lra. Qed.

Lemma convex_bound a b c :
  -1 <= c <= 1 -> a + b <= 1 -> a - b <= 1 -> - a - b <= 1 -> - a + b <= 1 ->
  -1 <= a * c + b <= 1.
Proof. intros Hc H1 H2 H3 H4. destruct (Rle_dec 0 a); nra. Qed.

Lemma hav_range phi1 phi2 dlam : 0 <= hav phi1 phi2 dlam <= 1.
Proof.
  pose proof (hav_cos phi1 phi2 dlam) as E.
  assert (B : -1 <= cos phi1 * cos phi2 * cos dlam + sin phi1 * sin phi2 <= 1).
  { pose proof (COS_bound (phi1 - phi2)) as Cm. rewrite cos_minus in Cm.
    pose proof (COS_bound (phi1 + phi2)) as Cp. rewrite cos_plus in Cp.
    apply convex_bound; [apply COS_bound | lra ..]. }
  lra.
Qed.

Lemma asin_sqrt_range a : 0 <= a <= 1 -> 0 <= asin (sqrt a) <= PI / 2.
Proof.
  intros Ha.
  assert (S0 : 0 <= sqrt a <= 1).
  { split; [apply sqrt_pos|]. rewrite <- sqrt_1. apply sqrt_le_1_alt. lra. }
  pose proof (asin_bound (sqrt a)) as B. split; [|lra].
  destruct (Rle_dec 0 (asin (sqrt a))) as [|N]; [assumption|].
  pose proof PI_RGT_0 as P.
  assert (L : sin (asin (sqrt a)) < 0) by (apply sin_lt_0_var; lra).
  rewrite sin_asin in L by lra. lra.
Qed.

Lemma two_asin_sqrt a : 0 <= a <= 1 -> 2 * asin (sqrt a) = acos (1 - 2 * a).
Proof.
  intros Ha. pose proof (asin_sqrt_range a Ha) as Hx.
  assert (S0 : 0 <= sqrt a <= 1).
  { split; [apply sqrt_pos|]. rewrite <- sqrt_1. apply sqrt_le_1_alt. lra. }
  rewrite <- (acos_cos (2 * asin (sqrt a))) by lra.
  f_equal. rewrite cos_2a_sin, sin_asin by lra.
  pose proof (sqrt_sqrt a (proj1 Ha)) as Q. nra.
Qed.

(** The haversine distance is the Earth radius times the central angle. *)
Lemma haversineKm_central_angle p q :
  haversineKm p q = earthRadiusKm * centralAngle p q.
Proof.
  rewrite haversineKm_spec. unfold greatCircleKm, centralAngle.
  rewrite dot_onSphere.
  fold (hav (radians (fst p)) (radians (fst q)) (radians (snd q) - radians (snd p))).
  rewrite <- hav_cos, <- two_asin_sqrt by apply hav_range. lra.
Qed.

(** The loop of the fallback effect, read off a list one point longer. *)
Lemma chain_loop_shift p l k n a :
  fold_left
    (fun km i => km + haversineKm (nth i (p :: l) (0, 0)) (nth (i + 1) (p :: l) (0, 0)))
    (seq (S k) n) a =
  fold_left
    (fun km i => km + haversineKm (nth i l (0, 0)) (nth (i + 1) l (0, 0)))
    (seq k n) a.
Proof.
  revert k a. induction n as [|n IH]; intros k a; simpl; [reflexivity|].
  rewrite IH. reflexivity.
Qed.

Lemma chain_loop_sum pts a :
  fold_left
    (fun km i => km + haversineKm (nth i pts (0, 0)) (nth (i + 1) pts (0, 0)))
    (seq 0 (List.length pts - 1)) a =
  a + chainKm pts.
Proof.
  revert a. induction pts as [|p rest IH]; intros a.
  - simpl. unfold chainKm. simpl. lra.
  - destruct rest as [|q rest'].
    + simpl. unfold chainKm. simpl. lra.
    + replace (List.length (p :: q :: rest') - 1)%nat with (S (List.length (q :: rest') - 1))
        by (simpl; lia).
      cbn [seq fold_left]. rewrite chain_loop_shift, IH.
      unfold chainKm, legs. cbn [tl combine map fold_right fst snd nth Nat.add].
      rewrite haversineKm_spec. lra.
Qed.

Lemma vias_chainKm_spec pts : Vias.chainKm pts = chainKm pts.
Proof. unfold Vias.chainKm. rewrite chain_loop_sum. lra. Qed.

End Haversine.

(** C5.  [haversineKm] is the haversine formula with R = 6371 km on angles
    in radians, which is the great-circle distance (the radius times the
    central angle); the two-leg versions store it (as [toFixed(2)]) for each
    leg, and the vias version stores the sum of it over the consecutive
    points of user, vias, destination. *)
Theorem fallback_is_haversine `{JsNumber} :
  (forall p q, haversineKm p q = HaversineSpec.greatCircleKm p q) /\
  (forall p q,
     haversineKm p q = HaversineSpec.earthRadiusKm * HaversineSpec.centralAngle p q) /\
  HaversineSpec.earthRadiusKm = 6371 /\
  (forall s p d,
     Vias.position s = Some p -> Vias.dest s = Some d ->
     Vias.distanceKm (Vias.fallback s) =
     Some (toFixed 2 (HaversineSpec.chainKm (p :: Vias.vias s ++ [d])%list))) /\
  (forall s p d,
     V3.position s = Some p -> V3.dest s = Some d ->
     V3.kmUD (V3.fallbackUD s) = Some (toFixed 2 (HaversineSpec.greatCircleKm p d))) /\
  (forall s d p,
     V3.driver s = Some d -> V3.position s = Some p ->
     V3.kmDU (V3.fallbackDU s) = Some (toFixed 2 (HaversineSpec.greatCircleKm d p))).
Proof.
  split; [exact haversineKm_spec|].
  split; [exact haversineKm_central_angle|].
  split; [reflexivity|].
  split; [|split].
  - intros s p d Hp Hd. unfold Vias.fallback. rewrite Hp, Hd. simpl.
    rewrite vias_chainKm_spec. reflexivity.
  - intros s p d Hp Hd. unfold V3.fallbackUD, V3.kmUD. rewrite Hp, Hd. simpl.
    rewrite haversineKm_spec. reflexivity.
  - intros s d p Hd Hp. unfold V3.fallbackDU, V3.kmDU. rewrite Hp, Hd. simpl.
    rewrite haversineKm_spec. reflexivity.
Qed.

(** ** The third version *)

Arguments haversineKm : simpl never.
Arguments Math_round : simpl never.
Arguments Math_max : simpl never.
Arguments V3Inv.fallbackKm : simpl never.
Arguments V3Inv.fallbackMin : simpl never.

Section V3Facts.
Context `{JsNumber}.
Import V3 V3Inv.

(** *** The effects as updates *)

Lemma fallbackDU_eq s :
  fallbackDU s =
  setMin DU (fallbackMin (driver s) (position s))
    (setKm DU (fallbackKm (driver s) (position s)) s).
Proof. unfold fallbackDU. destruct (driver s), (position s); reflexivity. Qed.

Lemma fallbackUD_eq s :
  fallbackUD s =
  setMin UD (fallbackMin (position s) (dest s))
    (setKm UD (fallbackKm (position s) (dest s)) s).
Proof. unfold fallbackUD. destruct (position s), (dest s); reflexivity. Qed.

Lemma etaOk_fallbackMin a b : etaOk (fallbackMin a b).
Proof. destruct a, b; simpl; trivial. unfold Math_max. lia. Qed.


Lemma isLatLng_false v : isLatLng v = false -> v = None.
Proof. destruct v; [discriminate|reflexivity]. Qed.

(** The effects after Clear change nothing but the timers. *)
Lemma onClear_eq now s :
  onClear now s =
  if isLatLng (driver s) || isLatLng (dest s) then fetchEffect now (clearHandler s)
  else clearHandler s.
Proof.
  unfold onClear, clearHandler, abortCurrent, fallbackDU, fallbackUD. simpl.
  destruct (abort (legDU s)); simpl; destruct (abort (legUD s)); simpl;
    destruct (isLatLng (driver s)); simpl; destruct (isLatLng (dest s)); simpl;
    destruct (position s); vm_compute; reflexivity.
Qed.

Lemma legOf_setClock leg now s : legOf leg (setClock now s) = legOf leg s.
Proof. destruct leg; reflexivity. Qed.

Lemma legOf_settle leg c s : legOf leg (settle c s) = legOf leg s.
Proof. destruct leg; reflexivity. Qed.

Lemma routeState_setClock l now s : routeState l (setClock now s) = routeState l s.
Proof. destruct l; reflexivity. Qed.

Lemma routeState_settle l c s : routeState l (settle c s) = routeState l s.
Proof. destruct l; reflexivity. Qed.

Lemma routeState_inv l s' s :
  routeState l s' = routeState l s ->
  route (legOf l s') = route (legOf l s) /\ km (legOf l s') = km (legOf l s) /\
  min_ (legOf l s') = min_ (legOf l s).
Proof. unfold routeState. intros [= -> -> ->]. repeat split. Qed.

(** *** [fetchLeg] *)

(** What [fetchLeg] does when it does not issue a request. *)
Lemma fetchLeg_skips now leg from_ to_ s :
  match from_, to_ with
  | Some f, Some t => gated now (last (legOf leg s)) f t = true
  | _, _ => True
  end ->
  fetchLeg now leg from_ to_ s = s.
Proof.
  unfold fetchLeg. destruct from_, to_; try reflexivity. intros ->. reflexivity.
Qed.

(** What [fetchLeg] does past the gate. *)
Lemma fetchLeg_issues now leg f t s :
  gated now (last (legOf leg s)) f t = false ->
  issued (fetchLeg now leg (Some f) (Some t) s) = (nextCtrl s, leg) :: issued s /\
  aborted (fetchLeg now leg (Some f) (Some t) s) =
    match abort (legOf leg s) with Some c => c :: aborted s | None => aborted s end /\
  nextCtrl (fetchLeg now leg (Some f) (Some t) s) = S (nextCtrl s) /\
  abort (legOf leg (fetchLeg now leg (Some f) (Some t) s)) = Some (nextCtrl s) /\
  abort (legOf (other leg) (fetchLeg now leg (Some f) (Some t) s)) =
    abort (legOf (other leg) s) /\
  fetched (fetchLeg now leg (Some f) (Some t) s) =
    (fetched s ++ [{| url := routeUrl f t; signal := nextCtrl s |}])%list /\
  last (legOf leg (fetchLeg now leg (Some f) (Some t) s)) =
    {| from := Some f; to := Some t; ts := now |} /\
  loading (legOf leg (fetchLeg now leg (Some f) (Some t) s)) = true.
Proof.
  intros G. unfold fetchLeg. rewrite G. unfold abortCurrent.
  destruct leg; simpl; destruct (abort _); simpl; repeat split; reflexivity.
Qed.

(** What [fetchLeg] never touches. *)
Lemma fetchLeg_frame now leg from_ to_ s :
  top (fetchLeg now leg from_ to_ s) = top s /\
  error (fetchLeg now leg from_ to_ s) = error s /\
  (forall l, routeState l (fetchLeg now leg from_ to_ s) = routeState l s) /\
  (forall l, timer (legOf l (fetchLeg now leg from_ to_ s)) = timer (legOf l s)).
Proof.
  unfold fetchLeg. destruct from_ as [f|], to_ as [t|];
    try (repeat split; reflexivity).
  destruct (gated _ _ _ _); [repeat split; reflexivity|].
  unfold abortCurrent.
  destruct (abort (legOf leg s)); destruct leg; repeat split; intros []; reflexivity.
Qed.


(** *** The rest of [fetchLeg] *)

(** The response of a request whose controller is not the stored one
    changes no route state. *)
Lemma resume_stale leg c r s l :
  abort (legOf leg s) <> Some c ->
  routeState l (fetchLegResume leg c r s) = routeState l s.
Proof.
  unfold routeState, fetchLegResume. intros N.
  destruct (awaited r) as [e|rt].
  - destruct (String.eqb (name e) "AbortError"); destruct leg, l; reflexivity.
  - destruct (abort (legOf leg s)) as [c'|] eqn:Ea.
    + destruct (Nat.eqb c' c) eqn:E.
      * apply Nat.eqb_eq in E. congruence.
      * destruct leg, l; reflexivity.
    + destruct leg, l; reflexivity.
Qed.

(** A response never touches the other leg. *)
Lemma resume_other_leg leg c r s :
  routeState (other leg) (fetchLegResume leg c r s) = routeState (other leg) s.
Proof.
  unfold routeState, fetchLegResume.
  destruct (awaited r) as [e|rt].
  - destruct (String.eqb (name e) "AbortError"); destruct leg; reflexivity.
  - destruct (abort (legOf leg s)) as [c'|]; [destruct (Nat.eqb c' c)|]; destruct leg; reflexivity.
Qed.

(** A failure changes no route state. *)
Lemma resume_failure leg c r e s l :
  awaited r = inl e ->
  routeState l (fetchLegResume leg c r s) = routeState l s.
Proof.
  unfold routeState, fetchLegResume. intros ->.
  destruct (String.eqb (name e) "AbortError"); destruct leg, l; reflexivity.
Qed.

(** The response of the request whose controller is the stored one is
    applied. *)
Lemma resume_latest leg c rt rest s :
  abort (legOf leg s) = Some c ->
  routeState leg (fetchLegResume leg c (Json (rt :: rest)) s) =
  (toPath rt, Some (toFixed 2 (distance rt / 1000)),
   Some (Math_max 1 (Math_round (duration rt / 60)))).
Proof.
  unfold routeState, fetchLegResume. intros E. simpl. rewrite E, Nat.eqb_refl.
  destruct leg; reflexivity.
Qed.

(** An [AbortError] sets no error and changes no route state: it only
    resets the loading flag. *)
Lemma resume_abort leg c e s :
  name e = "AbortError" ->
  fetchLegResume leg c (Rejected e) s = setLoading leg false s.
Proof. unfold fetchLegResume. simpl. intros ->. reflexivity. Qed.


(** What the rest of [fetchLeg] never touches. *)
Lemma resume_frame leg c r s :
  top (fetchLegResume leg c r s) = top s /\
  book (fetchLegResume leg c r s) = book s /\
  (forall l, timer (legOf l (fetchLegResume leg c r s)) = timer (legOf l s)).
Proof.
  unfold fetchLegResume. destruct (awaited r) as [e|rt].
  - destruct (String.eqb (name e) "AbortError"); destruct leg;
      repeat split; intros []; reflexivity.
  - destruct (abort (legOf leg s)) as [c'|]; [destruct (Nat.eqb c' c)|];
      destruct leg; repeat split; intros []; reflexivity.
Qed.

(** The ETA the rest of [fetchLeg] stores. *)
Lemma resume_eta leg c r s l :
  etaOk (min_ (legOf l s)) -> etaOk (min_ (legOf l (fetchLegResume leg c r s))).
Proof.
  intros E. unfold fetchLegResume. destruct (awaited r) as [e|rt].
  - destruct (String.eqb (name e) "AbortError"); destruct leg, l; exact E.
  - destruct (abort (legOf leg s)) as [c'|]; [destruct (Nat.eqb c' c)|];
      destruct leg, l; try exact E; simpl; unfold Math_max; lia.
Qed.

(** *** The gate *)

Lemma Rltb_true x y : x < y -> Rltb x y = true.
Proof. unfold Rltb. intros L. destruct (Rlt_dec x y); [reflexivity|contradiction]. Qed.

Lemma gated_true now rec f t pf pt :
  from rec = Some pf -> to rec = Some pt ->
  (now - ts rec < MIN_FETCH_INTERVAL_MS)%Z ->
  distanceMeters pf f < MIN_MOVE_M -> distanceMeters pt t < MIN_MOVE_M ->
  gated now rec f t = true.
Proof.
  intros Ef Et Hts Hf Ht. unfold gated, distChange. rewrite Ef, Et.
  apply andb_true_intro. split.
  - apply Z.ltb_lt. exact Hts.
  - apply Rltb_true. apply Rmax_lub_lt; assumption.
Qed.

(** The gate is exactly the two conditions. *)
Lemma gated_iff now rec f t :
  gated now rec f t = true <->
  (now - ts rec < MIN_FETCH_INTERVAL_MS)%Z /\
  exists pf pt, from rec = Some pf /\ to rec = Some pt /\
    distanceMeters pf f < MIN_MOVE_M /\ distanceMeters pt t < MIN_MOVE_M.
Proof.
  split.
  - unfold gated, distChange. intros G. apply andb_prop in G. destruct G as [G1 G2].
    split; [apply Z.ltb_lt; exact G1|].
    destruct (from rec) as [pf|]; [|discriminate].
    destruct (to rec) as [pt|]; [|discriminate].
    exists pf, pt. unfold Rltb in G2. destruct (Rlt_dec _ _) as [L|]; [|discriminate].
    repeat split.
    + eapply Rle_lt_trans; [apply Rmax_l|exact L].
    + eapply Rle_lt_trans; [apply Rmax_r|exact L].
  - intros (Hts & pf & pt & Ef & Et & Hf & Ht). eapply gated_true; eauto.
Qed.

(** A gated timer callback only uses up the timer. *)
Lemma timer_gated now leg s t f g :
  timer (legOf leg s) = Some t -> tFrom t = Some f -> tTo t = Some g ->
  gated now (last (legOf leg s)) f g = true ->
  handle now (TimerFires leg) s = setClock now (setTimer leg None s).
Proof.
  intros Et Ef Eg G. unfold handle, timerFires. rewrite Et, Ef, Eg.
  rewrite fetchLeg_skips; [reflexivity|]. destruct leg; exact G.
Qed.


(** *** Steps *)

(** Case analysis on the event of a step; the handlers that only update
    variables are unfolded to the updates. *)
Ltac v3_event e s :=
  destruct e as [lat lon acc|msg|lat lng| | | | | | | |leg1|c1 leg1 r1];
  unfold handle;
  [ unfold onGpsFix; rewrite fallbackUD_eq, fallbackDU_eq; unfold fetchEffect
  | unfold onGpsError
  | unfold onMapClick, onSet;
    destruct (tapMode s) as [[|]|] eqn:Etap; [destruct (moved s) eqn:Emoved..|];
    rewrite ?fallbackUD_eq, ?fallbackDU_eq; unfold fetchEffect
  | unfold onUserPan
  | unfold onUserPan
  | unfold onMoveEnd
  | unfold toggleTap; destruct (tapMode s) as [[|]|] eqn:Etap
  | unfold toggleTap; destruct (tapMode s) as [[|]|] eqn:Etap
  | unfold onFollow
  | rewrite onClear_eq; unfold clearHandler, abortCurrent; simpl;
    destruct (abort (legDU s)) eqn:EaD; simpl; destruct (abort (legUD s)) eqn:EaU; simpl;
    destruct (isLatLng (driver s)) eqn:Edrv; simpl; destruct (isLatLng (dest s)) eqn:Edst;
    simpl; unfold fetchEffect
  | idtac
  | idtac ].

Lemma etas_step now e s : etas s -> etas (handle now e s).
Proof.
  unfold etas, minDU, minUD. intros [HD HU].
  v3_event e s; [simpl; auto using etaOk_fallbackMin .. | | ].
  - unfold timerFires. destruct (timer (legOf leg1 s)) as [t|]; [|destruct leg1; auto].
    destruct (fetchLeg_frame now leg1 (tFrom t) (tTo t) (setTimer leg1 None s))
      as (_ & _ & Er & _).
    destruct (routeState_inv _ _ _ (Er DU)) as (_ & _ & ED).
    destruct (routeState_inv _ _ _ (Er UD)) as (_ & _ & EU).
    cbn [legOf] in ED, EU. cbn [setClock legDU legUD]. rewrite ED, EU.
    destruct leg1; auto.
  - cbn [setClock legDU legUD]. split.
    + apply (resume_eta leg1 c1 r1 (settle c1 s) DU). exact HD.
    + apply (resume_eta leg1 c1 r1 (settle c1 s) UD). exact HU.
Qed.

Lemma etas_reachable s : reachable s -> etas s.
Proof.
  induction 1 as [now g|s now e _ IH _].
  - destruct g; split; exact I.
  - apply etas_step, IH.
Qed.


(** *** The request bookkeeping *)

Lemma book_eq s' s :
  book s' = book s ->
  issued s' = issued s /\ aborted s' = aborted s /\ nextCtrl s' = nextCtrl s /\
  abort (legDU s') = abort (legDU s) /\ abort (legUD s') = abort (legUD s) /\
  fetched s' = fetched s.
Proof. unfold book, abortDU, abortUD. intros [= -> -> -> -> -> ->]. repeat split. Qed.

Lemma book_other now e s : touchesBook e = false -> book (handle now e s) = book s.
Proof.
  intros T. v3_event e s; try discriminate T; try reflexivity.
  destruct (resume_frame leg1 c1 r1 (settle c1 s)) as (_ & B & _).
  change (book (fetchLegResume leg1 c1 r1 (settle c1 s)) = book s). rewrite B. reflexivity.
Qed.

Lemma book_clear now s :
  issued (handle now ClickClear s) = issued s /\
  nextCtrl (handle now ClickClear s) = nextCtrl s /\
  fetched (handle now ClickClear s) = fetched s /\
  abortDU (handle now ClickClear s) = abortDU s /\
  abortUD (handle now ClickClear s) = abortUD s /\
  (forall c, In c (aborted (handle now ClickClear s)) <->
             In c (aborted s) \/ abortDU s = Some c \/ abortUD s = Some c).
Proof.
  unfold handle. rewrite onClear_eq. unfold abortDU, abortUD, clearHandler, abortCurrent.
  simpl.
  destruct (abort (legDU s)) eqn:EaD; simpl; destruct (abort (legUD s)) eqn:EaU; simpl;
    destruct (isLatLng (driver s) || isLatLng (dest s)); simpl;
    repeat split; try assumption; simpl; intros; intuition (subst; auto; congruence).
Qed.

Lemma handle_timer now leg s :
  book (handle now (TimerFires leg) s) = book s \/
  exists t f g,
    timer (legOf leg s) = Some t /\ tFrom t = Some f /\ tTo t = Some g /\
    gated now (last (legOf leg s)) f g = false /\
    issued (handle now (TimerFires leg) s) = (nextCtrl s, leg) :: issued s /\
    aborted (handle now (TimerFires leg) s) =
      match abort (legOf leg s) with Some c => c :: aborted s | None => aborted s end /\
    nextCtrl (handle now (TimerFires leg) s) = S (nextCtrl s) /\
    abort (legOf leg (handle now (TimerFires leg) s)) = Some (nextCtrl s) /\
    abort (legOf (other leg) (handle now (TimerFires leg) s)) =
      abort (legOf (other leg) s) /\
    fetched (handle now (TimerFires leg) s) =
      (fetched s ++ [{| url := routeUrl f g; signal := nextCtrl s |}])%list.
Proof.
  unfold handle, timerFires.
  destruct (timer (legOf leg s)) as [t|] eqn:Et; [|left; reflexivity].
  destruct (tFrom t) as [f|] eqn:Ef; [|left; destruct leg; reflexivity].
  destruct (tTo t) as [g|] eqn:Eg; [|left; destruct leg; reflexivity].
  destruct (gated now (last (legOf leg s)) f g) eqn:G.
  - left. rewrite fetchLeg_skips; [destruct leg; reflexivity|].
    destruct leg; simpl; exact G.
  - right. exists t, f, g.
    assert (G' : gated now (last (legOf leg (setTimer leg None s))) f g = false)
      by (destruct leg; exact G).
    pose proof (fetchLeg_issues now leg f g (setTimer leg None s) G') as F.
    destruct leg; simpl in F |- *; intuition.
Qed.

(** What the callback of a timer leaves alone. *)
Lemma timer_frame now leg s :
  top (handle now (TimerFires leg) s) = top s /\
  error (handle now (TimerFires leg) s) = error s /\
  (forall l, routeState l (handle now (TimerFires leg) s) = routeState l s).
Proof.
  unfold handle, timerFires. destruct (timer (legOf leg s)) as [t|].
  - destruct (fetchLeg_frame now leg (tFrom t) (tTo t) (setTimer leg None s))
      as (Et & Ee & Er & _).
    repeat split.
    + change (top (fetchLeg now leg (tFrom t) (tTo t) (setTimer leg None s)) = top s).
      rewrite Et. destruct leg; reflexivity.
    + change (error (fetchLeg now leg (tFrom t) (tTo t) (setTimer leg None s)) = error s).
      rewrite Ee. destruct leg; reflexivity.
    + intros l. rewrite routeState_setClock, Er. destruct leg, l; reflexivity.
  - repeat split; intros []; reflexivity.
Qed.

Lemma top_eq s' s :
  top s' = top s ->
  position s' = position s /\ accuracy s' = accuracy s /\ driver s' = driver s /\
  dest s' = dest s.
Proof. unfold top. intros [= -> -> -> -> _ _ _]. repeat split. Qed.

Lemma latest_step now e s : latest s -> latest (handle now e s).
Proof.
  unfold latest. intros L leg.
  destruct (touchesBook e) eqn:T.
  - destruct e; try discriminate.
    + destruct (book_clear now s) as (-> & _ & _ & ED & EU & _).
      unfold abortDU, abortUD in *. rewrite <- L. destruct leg; assumption.
    + destruct (handle_timer now leg0 s)
        as [B|(t & f & g & _ & _ & _ & _ & E1 & _ & _ & E4 & E5 & _)].
      * apply book_eq in B. destruct B as (-> & _ & _ & BD & BU & _).
        rewrite <- L. destruct leg; assumption.
      * rewrite E1. destruct leg0, leg; cbn [legOf other latestIssued sameLeg] in *;
          rewrite <- ?L; assumption.
  - pose proof (book_other now e s T) as B.
    apply book_eq in B. destruct B as (-> & _ & _ & BD & BU & _).
    rewrite <- L. destruct leg; assumption.
Qed.

Lemma latest_reachable s : reachable s -> latest s.
Proof.
  induction 1 as [now g|s now e _ IH _].
  - intros leg. destruct g, leg; reflexivity.
  - apply latest_step, IH.
Qed.


(** *** The timers *)

Lemma inputs_top l s' s : top s' = top s -> inputs l s' = inputs l s.
Proof.
  intros E. apply top_eq in E. destruct E as (Ep & _ & Edr & Ed).
  destruct l; simpl; congruence.
Qed.

Lemma timer_after_callback now leg s l t :
  timer (legOf l (handle now (TimerFires leg) s)) = Some t ->
  timer (legOf l s) = Some t /\ l <> leg.
Proof.
  unfold handle, timerFires. rewrite legOf_setClock.
  destruct (timer (legOf leg s)) as [t'|] eqn:Et.
  - destruct (fetchLeg_frame now leg (tFrom t') (tTo t') (setTimer leg None s))
      as (_ & _ & _ & ->).
    destruct leg, l; simpl; intros E; try discriminate; split; congruence.
  - intros E. split; [exact E|]. intros ->. congruence.
Qed.

Lemma timer_after_settle now c leg r s l :
  timer (legOf l (handle now (FetchSettles c leg r) s)) = timer (legOf l s).
Proof.
  unfold handle. rewrite legOf_setClock.
  destruct (resume_frame leg c r (settle c s)) as (_ & _ & ->). destruct l; reflexivity.
Qed.

Lemma top_after_settle now c leg r s : top (handle now (FetchSettles c leg r) s) = top s.
Proof.
  unfold handle.
  change (top (fetchLegResume leg c r (settle c s)) = top s).
  destruct (resume_frame leg c r (settle c s)) as (-> & _). reflexivity.
Qed.

Lemma timersFresh_step now e s :
  (clock s <= now)%Z -> timersFresh s -> timersFresh (handle now e s).
Proof.
  unfold timersFresh. intros Hc T leg t.
  pose proof (T DU) as TD. pose proof (T UD) as TU. cbn [legOf inputs] in TD, TU.
  v3_event e s;
    [ destruct leg; simpl; unfold DEBOUNCE_MS in *; intros Ht;
      try (injection Ht as <-; simpl; split; [reflexivity|lia]);
      try apply isLatLng_false in Edrv; try apply isLatLng_false in Edst;
      try (destruct (TD _ Ht) as [E1 E2]; split; [congruence|lia]);
      try (destruct (TU _ Ht) as [E1 E2]; split; [congruence|lia]) .. | | ].
  - intros Ht.
    change (clock (setClock now (timerFires now leg1 s))) with now.
    apply timer_after_callback in Ht. destruct Ht as [Ht _].
    destruct (timer_frame now leg1 s) as (Et & _).
    change (inputs leg (setClock now (timerFires now leg1 s)))
      with (inputs leg (handle now (TimerFires leg1) s)).
    rewrite (inputs_top leg _ _ Et). destruct (T leg t Ht) as [E1 E2]. split; [exact E1|lia].
  - intros Ht.
    change (clock (setClock now (fetchLegResume leg1 c1 r1 (settle c1 s)))) with now.
    change (setClock now (fetchLegResume leg1 c1 r1 (settle c1 s)))
      with (handle now (FetchSettles c1 leg1 r1) s) in *.
    rewrite timer_after_settle in Ht.
    rewrite (inputs_top leg _ _ (top_after_settle now c1 leg1 r1 s)).
    destruct (T leg t Ht) as [E1 E2]. split; [exact E1|lia].
Qed.

Lemma timersFresh_reachable s : reachable s -> timersFresh s.
Proof.
  induction 1 as [now g|s now e _ IH [Hc _]].
  - intros leg t. destruct g, leg; simpl; intros [= <-]; simpl; unfold DEBOUNCE_MS; split;
      (reflexivity || lia).
  - apply timersFresh_step; assumption.
Qed.

(** A step that changes the points of a leg sets the timer of the leg anew. *)
Lemma inputs_change_reschedules now e s leg :
  inputs leg (handle now e s) <> inputs leg s ->
  timer (legOf leg (handle now e s)) =
  Some {| due := now + DEBOUNCE_MS;
          tFrom := fst (inputs leg (handle now e s));
          tTo := snd (inputs leg (handle now e s)) |}.
Proof.
  v3_event e s;
    [ destruct leg; simpl; intros N; try reflexivity; try congruence;
      try apply isLatLng_false in Edrv; try apply isLatLng_false in Edst;
      congruence .. | | ].
  - change (setClock now (timerFires now leg1 s)) with (handle now (TimerFires leg1) s).
    destruct (timer_frame now leg1 s) as (Et & _).
    rewrite (inputs_top leg _ _ Et). congruence.
  - change (setClock now (fetchLegResume leg1 c1 r1 (settle c1 s)))
      with (handle now (FetchSettles c1 leg1 r1) s).
    rewrite (inputs_top leg _ _ (top_after_settle now c1 leg1 r1 s)). congruence.
Qed.

(** A step keeps the timer of a leg, uses it up, or sets it anew, due
    [DEBOUNCE_MS] after the step. *)
Lemma timer_step now e s leg t :
  timer (legOf leg (handle now e s)) = Some t ->
  timer (legOf leg s) = Some t \/ due t = (now + DEBOUNCE_MS)%Z.
Proof.
  v3_event e s;
    [ destruct leg; simpl; intros Ht;
      try (left; exact Ht); right; injection Ht as <-; reflexivity .. | | ].
  - intros Ht. left. apply (timer_after_callback now leg1 s leg t Ht).
  - intros Ht. left.
    change (setClock now (fetchLegResume leg1 c1 r1 (settle c1 s)))
      with (handle now (FetchSettles c1 leg1 r1) s) in Ht.
    rewrite timer_after_settle in Ht. exact Ht.
Qed.


(** *** Controllers and requests *)

Lemma allocated_step now e s : allocated s -> allocated (handle now e s).
Proof.
  unfold allocated. intros (A1 & A2 & A3).
  pose proof (A3 DU) as AD. pose proof (A3 UD) as AU. simpl in AD, AU.
  destruct (touchesBook e) eqn:T.
  - destruct e; try discriminate.
    + destruct (book_clear now s) as (E1 & E2 & E3 & E4 & E5 & E6).
      unfold abortDU, abortUD in *. rewrite E2. repeat split.
      * intros c l. rewrite E1. apply A1.
      * intros c I. apply E6 in I. destruct I as [I|[I|I]]; eauto.
      * intros [] c; cbn [legOf]; [rewrite E4|rewrite E5]; eauto.
    + destruct (handle_timer now leg s)
        as [B|(t & f & g & _ & _ & _ & _ & E1 & E2 & E3 & E4 & E5 & _)].
      * apply book_eq in B. destruct B as (-> & -> & -> & BD & BU & _).
        repeat split; auto. intros [] c; cbn [legOf]; [rewrite BD|rewrite BU]; auto.
      * rewrite E1, E2, E3. repeat split.
        -- intros c l [[= <- <-]|I]; [lia|]. apply A1 in I. lia.
        -- intros c I. destruct (abort (legOf leg s)) eqn:Ea;
             [destruct I as [<-|I]; [apply A3 in Ea; lia|]|]; apply A2 in I; lia.
        -- intros l c E.
           destruct leg, l; cbn [legOf other] in *;
             try (rewrite E4 in E; injection E as <-; lia);
             rewrite E5 in E; (apply AD in E || apply AU in E); lia.
  - pose proof (book_other now e s T) as B.
    apply book_eq in B. destruct B as (-> & -> & -> & BD & BU & _).
    repeat split; auto. intros [] c; cbn [legOf]; [rewrite BD|rewrite BU]; auto.
Qed.

Lemma allocated_reachable s : reachable s -> allocated s.
Proof.
  induction 1 as [now g|s now e _ IH _].
  - repeat split; destruct g; simpl; try contradiction; intros []; discriminate.
  - apply allocated_step, IH.
Qed.

Lemma superseded_step now e s : superseded s -> superseded (handle now e s).
Proof.
  unfold superseded. intros S.
  destruct (touchesBook e) eqn:T.
  - destruct e; try discriminate.
    + destruct (book_clear now s) as (E1 & E2 & E3 & E4 & E5 & E6).
      unfold abortDU, abortUD in *. intros c l. rewrite E1. intros I.
      destruct (S c l I) as [E|I']; [|right; apply E6; auto].
      left. destruct l; cbn [legOf] in *; congruence.
    + destruct (handle_timer now leg s)
        as [B|(t & f & g & _ & _ & _ & _ & E1 & E2 & E3 & E4 & E5 & _)].
      * apply book_eq in B. destruct B as (-> & -> & _ & BD & BU & _).
        intros c l I. destruct (S c l I) as [E|I']; [left|right; assumption].
        destruct l; cbn [legOf] in *; congruence.
      * intros c l. rewrite E1, E2. intros [[= <- <-]|I]; [left; assumption|].
        destruct (S c l I) as [E|I'].
        -- destruct leg, l; cbn [legOf other] in *; rewrite ?E5; auto;
             rewrite E; right; left; reflexivity.
        -- right. destruct (abort (legOf leg s)); [right|]; assumption.
  - pose proof (book_other now e s T) as B.
    apply book_eq in B. destruct B as (-> & -> & _ & BD & BU & _).
    intros c l I. destruct (S c l I) as [E|I']; [left|right; assumption].
    destruct l; cbn [legOf] in *; congruence.
Qed.

Lemma superseded_reachable s : reachable s -> superseded s.
Proof.
  induction 1 as [now g|s now e _ IH _].
  - intros c l. destruct g; simpl; contradiction.
  - apply superseded_step, IH.
Qed.

Lemma routeUrl_https f t : urlScheme (routeUrl f t) = "https".
Proof. reflexivity. Qed.

Lemma https_step now e s :
  Forall https (fetched s) -> Forall https (fetched (handle now e s)).
Proof.
  intros F. destruct (touchesBook e) eqn:T.
  - destruct e; try discriminate.
    + destruct (book_clear now s) as (_ & _ & -> & _). exact F.
    + destruct (handle_timer now leg s) as [B|(t & f & g & _ & _ & _ & _ & _ & _ & _ & _ & _ & ->)].
      * apply book_eq in B. destruct B as (_ & _ & _ & _ & _ & ->). exact F.
      * apply Forall_app. split; [exact F|]. constructor; [|constructor].
        apply routeUrl_https.
  - pose proof (book_other now e s T) as B.
    apply book_eq in B. destruct B as (_ & _ & _ & _ & _ & ->). exact F.
Qed.

Lemma https_reachable s : reachable s -> Forall https (fetched s).
Proof.
  induction 1 as [now g|s now e _ IH _].
  - destruct g; constructor.
  - apply https_step, IH.
Qed.



(** Only a timer that is due issues a request. *)
Lemma fetched_by_timer now e s :
  enabled now e s -> fetched (handle now e s) <> fetched s ->
  exists leg t, e = TimerFires leg /\ timer (legOf leg s) = Some t /\ (due t <= now)%Z.
Proof.
  intros [_ En] N. destruct (touchesBook e) eqn:T.
  - destruct e; try discriminate.
    + destruct (book_clear now s) as (_ & _ & E & _). contradiction.
    + destruct En as (t & Et & Hd). eauto.
  - apply book_other with (now := now) (s := s) in T. apply book_eq in T.
    destruct T as (_ & _ & _ & _ & _ & E). contradiction.
Qed.


(** *** The destination *)



(** *** Clear *)

Lemma clear_resets now s :
  driver (handle now ClickClear s) = None /\ dest (handle now ClickClear s) = None /\
  routeDU (handle now ClickClear s) = [] /\ routeUD (handle now ClickClear s) = [] /\
  kmDU (handle now ClickClear s) = None /\ kmUD (handle now ClickClear s) = None /\
  minDU (handle now ClickClear s) = None /\ minUD (handle now ClickClear s) = None /\
  error (handle now ClickClear s) = "" /\ follow (handle now ClickClear s) = true /\
  lastDU (handle now ClickClear s) = emptyRec /\ lastUD (handle now ClickClear s) = emptyRec /\
  position (handle now ClickClear s) = position s /\
  accuracy (handle now ClickClear s) = accuracy s.
Proof.
  unfold handle. rewrite onClear_eq.
  unfold routeDU, routeUD, kmDU, kmUD, minDU, minUD, lastDU, lastUD.
  unfold clearHandler, abortCurrent. simpl.
  destruct (abort (legDU s)); simpl; destruct (abort (legUD s)); simpl;
    destruct (isLatLng (driver s) || isLatLng (dest s)); simpl;
    repeat split; reflexivity.
Qed.


(** *** Debounce along a run *)

Lemma quiet_step leg T now e s :
  quiet leg T s -> enabled now e s -> quiet leg T (handle now e s).
Proof.
  intros [Hc Q] [Hn _]. split.
  - change (clock (handle now e s)) with now. lia.
  - intros t Ht. destruct (timer_step now e s leg t Ht) as [Ho| ->]; [apply Q, Ho|lia].
Qed.

Lemma quiet_runs leg T s s' : quiet leg T s -> runsTo s s' -> quiet leg T s'.
Proof.
  intros Q R. induction R as [|s' now e _ IH En]; [exact Q|].
  apply quiet_step; assumption.
Qed.

Lemma quiet_after_change leg T e s :
  inputs leg (handle T e s) <> inputs leg s -> quiet leg T (handle T e s).
Proof.
  intros N. split.
  - change (clock (handle T e s)) with T. lia.
  - intros t. rewrite (inputs_change_reschedules T e s leg N). intros [= <-]. simpl. lia.
Qed.

(** The callback of the timer of a leg does not run within [DEBOUNCE_MS]
    of a change of the points of the leg. *)
Lemma debounced_after_change leg T e s s' now :
  inputs leg (handle T e s) <> inputs leg s ->
  runsTo (handle T e s) s' ->
  enabled now (TimerFires leg) s' ->
  (T + DEBOUNCE_MS <= now)%Z.
Proof.
  intros N R [_ (t & Et & Hd)].
  destruct (quiet_runs leg T _ _ (quiet_after_change leg T e s N) R) as [_ Q].
  specialize (Q t Et). lia.
Qed.

(** Only the callback of the timer of a leg issues a request for the leg. *)
Lemma issued_by_timer now e s c leg :
  In (c, leg) (issued (handle now e s)) -> ~ In (c, leg) (issued s) ->
  e = TimerFires leg.
Proof.
  intros I N. destruct (touchesBook e) eqn:T.
  - destruct e; try discriminate.
    + destruct (book_clear now s) as (E & _). rewrite E in I. contradiction.
    + destruct (handle_timer now leg0 s) as [B|(t & f & g & _ & _ & _ & _ & E & _)].
      * apply book_eq in B. destruct B as (E & _). rewrite E in I. contradiction.
      * rewrite E in I. destruct I as [[= _ ->]|I]; [reflexivity|contradiction].
  - apply book_other with (now := now) (s := s) in T. apply book_eq in T.
    destruct T as (E & _). rewrite E in I. contradiction.
Qed.

End V3Facts.

(** ** The first version *)

Section V1Facts.
Context `{JsNumber}.
Import V1 V1Inv.

Ltac v1_unfold :=
  unfold handle, onGpsFix, onGpsError, onMapClick, onSet, toggleTap,
    onClear, clearHandler, timerFires, fetchLeg, fetchLegResume,
    fallbackDU, fallbackUD, fetchEffect.
Ltac v1_legs := repeat match goal with l : Leg |- _ => destruct l end.
Ltac v1_cases := v1_legs; simpl; v1_unfold; repeat (break_match; simpl).

Lemma v1_etas_step now e s : etas s -> etas (handle now e s).
Proof.
  unfold etas, minDU, minUD. intros [HD HU].
  destruct e; v1_cases; split; simpl; auto; unfold Math_max; lia.
Qed.

Lemma v1_etas_reachable s : reachable s -> etas s.
Proof.
  induction 1 as [now g|s now e _ IH _].
  - destruct g; split; exact I.
  - apply v1_etas_step, IH.
Qed.

Lemma v1_routeUrl_https f t : urlScheme (routeUrl f t) = "https".
Proof. reflexivity. Qed.

(** Only a timer that is due issues a request, and the request is https. *)
Lemma v1_fetched_step now e s :
  fetched (handle now e s) = fetched s \/
  exists leg t f g,
    e = TimerFires leg /\ timer (legOf leg s) = Some t /\
    tFrom t = Some f /\ tTo t = Some g /\
    fetched (handle now e s) = (fetched s ++ [routeUrl f g])%list.
Proof.
  destruct e as [lat lon acc|msg|lat lng| | | |leg|c leg r];
    try (left; v1_cases; reflexivity).
  unfold handle, timerFires.
  destruct (timer (legOf leg s)) as [t|] eqn:Et; [|left; reflexivity].
  destruct (tFrom t) as [f|] eqn:Ef; [|left; destruct leg; reflexivity].
  destruct (tTo t) as [g|] eqn:Eg; [|left; destruct leg; reflexivity].
  right. exists leg, t, f, g. repeat split; auto; destruct leg; reflexivity.
Qed.

Lemma v1_https_reachable s : reachable s -> Forall https (fetched s).
Proof.
  induction 1 as [now g|s now e _ IH _].
  - destruct g; constructor.
  - destruct (v1_fetched_step now e s) as [->|(leg & t & f & g & _ & _ & _ & _ & ->)];
      [exact IH|].
    apply Forall_app. split; [exact IH|]. constructor; [|constructor].
    apply v1_routeUrl_https.
Qed.

Lemma v1_fetched_by_timer now e s :
  enabled now e s -> fetched (handle now e s) <> fetched s ->
  exists leg t, e = TimerFires leg /\ timer (legOf leg s) = Some t /\ (due t <= now)%Z.
Proof.
  intros [_ En] N.
  destruct (v1_fetched_step now e s) as [E|(leg & t & f & g & -> & Et & _)];
    [contradiction|].
  destruct En as (t' & Et' & Hd). eauto.
Qed.


Lemma v1_onClear_eq now s :
  onClear now s =
  if isLatLng (driver s) || isLatLng (dest s) then fetchEffect now (clearHandler s)
  else clearHandler s.
Proof.
  unfold onClear, clearHandler, fallbackDU, fallbackUD. simpl.
  destruct (isLatLng (driver s)); simpl; destruct (isLatLng (dest s)); simpl;
    destruct (position s); vm_compute; reflexivity.
Qed.

Lemma v1_clear_resets now s :
  driver (handle now ClickClear s) = None /\ dest (handle now ClickClear s) = None /\
  routeDU (handle now ClickClear s) = [] /\ routeUD (handle now ClickClear s) = [] /\
  kmDU (handle now ClickClear s) = None /\ kmUD (handle now ClickClear s) = None /\
  minDU (handle now ClickClear s) = None /\ minUD (handle now ClickClear s) = None /\
  error (handle now ClickClear s) = "" /\
  position (handle now ClickClear s) = position s /\
  accuracy (handle now ClickClear s) = accuracy s.
Proof.
  unfold handle. rewrite v1_onClear_eq.
  unfold routeDU, routeUD, kmDU, kmUD, minDU, minUD, clearHandler.
  destruct (isLatLng (driver s) || isLatLng (dest s)); simpl; repeat split; reflexivity.
Qed.

End V1Facts.

(** ** The version with vias *)

Arguments Vias.buildRouteUrl : simpl never.
Arguments Vias.chainKm : simpl never.

Section ViasFacts.
Context `{JsNumber}.
Import Vias ViasInv.

Lemma buildRouteUrl_https s u : buildRouteUrl s = Some u -> urlScheme u = "https".
Proof.
  unfold buildRouteUrl. destruct (position s), (dest s); try discriminate.
  intros [= <-]. reflexivity.
Qed.

Lemma buildRouteUrl_dest s u : buildRouteUrl s = Some u -> dest s <> None.
Proof.
  unfold buildRouteUrl. destruct (position s), (dest s); discriminate.
Qed.

Lemma buildRouteUrl_none s : dest s = None -> buildRouteUrl s = None.
Proof. unfold buildRouteUrl. intros ->. destruct (position s); reflexivity. Qed.

Lemma fallback_none s : dest s = None -> fallback s = s.
Proof. unfold fallback. intros ->. destruct (position s); reflexivity. Qed.

(** What the fallback effect leaves alone. *)
Lemma fallback_frame s :
  fetched (fallback s) = fetched s /\ timer (fallback s) = timer s /\
  live (fallback s) = live s /\ canceled (fallback s) = canceled s /\
  inflight (fallback s) = inflight s /\ dest (fallback s) = dest s /\
  position (fallback s) = position s /\ vias (fallback s) = vias s /\
  accuracy (fallback s) = accuracy s /\ error (fallback s) = error s.
Proof.
  unfold fallback.
  destruct (position s) eqn:Ep; [destruct (dest s) eqn:Ed|]; repeat split; simpl; congruence.
Qed.

(** What the fetch effect leaves alone. *)
Lemma fetchEffect_frame now s :
  fetched (fetchEffect now s) = fetched s /\ inflight (fetchEffect now s) = inflight s /\
  dest (fetchEffect now s) = dest s /\ position (fetchEffect now s) = position s /\
  vias (fetchEffect now s) = vias s /\ accuracy (fetchEffect now s) = accuracy s /\
  routeCoords (fetchEffect now s) = routeCoords s /\
  distanceKm (fetchEffect now s) = distanceKm s /\
  durationMin (fetchEffect now s) = durationMin s.
Proof.
  unfold fetchEffect, cleanup.
  destruct (live s); destruct (buildRouteUrl _); repeat split; reflexivity.
Qed.

(** After its cleanup the fetch effect finds no timer and no live run, and
    every request not settled cancelled. *)
Lemma cleanup_runs s :
  runs0 s ->
  timer (cleanup s) = None /\ live (cleanup s) = None /\
  (forall run, In run (inflight s) -> In run (canceled (cleanup s))) /\
  inflight (cleanup s) = inflight s /\ dest (cleanup s) = dest s /\
  distanceKm (cleanup s) = distanceKm s /\ fetched (cleanup s) = fetched s.
Proof.
  intros (J1 & J2 & _). unfold cleanup. destruct (live s) as [run|] eqn:El; simpl.
  - repeat split; try reflexivity. intros r I. destruct (J1 r I) as [[= ->]|I']; auto.
  - repeat split; try reflexivity; try assumption.
    + destruct (timer s) as [t|]; [|reflexivity]. specialize (J2 t eq_refl). discriminate.
    + intros r I. destruct (J1 r I) as [|]; [discriminate|assumption].
Qed.

Lemma fetchEffect_runs now s : runs0 s -> runs (fetchEffect now s).
Proof.
  intros J. destruct (cleanup_runs s J) as (Ct & Cl & Cc & Ci & Cd & Ck & _).
  destruct J as (_ & _ & J3).
  unfold fetchEffect. destruct (buildRouteUrl (cleanup s)) as [u|] eqn:Eu.
  - apply buildRouteUrl_dest in Eu. rewrite Cd in Eu.
    repeat split; simpl.
    + intros r I. rewrite Ci in I. right. auto.
    + intros t [= <-]. reflexivity.
    + rewrite Cd. intros E. contradiction.
    + rewrite Cd. intros E. contradiction.
  - repeat split.
    + intros r I. rewrite Ci in I. right. auto.
    + rewrite Ct. discriminate.
    + rewrite Cd, Ck. exact J3.
    + intros _. exact Cl.
Qed.

Lemma fallback_runs0 s : runs0 s -> runs0 (fallback s).
Proof.
  intros (J1 & J2 & J3). unfold fallback.
  destruct (position s) eqn:Ep; [destruct (dest s) eqn:Ed|]; repeat split; simpl;
    try assumption; try congruence; try (intros E; apply J3; congruence).
Qed.

Lemma effects_runs now s : runs0 s -> runs (effects now s).
Proof. intros J. apply fetchEffect_runs, fallback_runs0, J. Qed.

Lemma setClock_runs now s : runs s -> runs (setClock now s).
Proof. intros J. exact J. Qed.

Lemma runs_step now e s : enabled now e s -> runs s -> runs (handle now e s).
Proof.
  intros [_ En] [J K]. pose proof J as (J1 & J2 & J3).
  unfold handle. apply setClock_runs.
  destruct e as [lat lon acc|msg|shiftKey lat lng|i lat lng| | | | | | |run r].
  - apply effects_runs. exact J.
  - split; assumption.
  - apply effects_runs. unfold click, onAddVia, onSetDest.
    destruct shiftKey; repeat split; simpl; try assumption; discriminate.
  - apply effects_runs. exact J.
  - apply fetchEffect_runs. exact J.
  - apply fetchEffect_runs. exact J.
  - apply fetchEffect_runs. exact J.
  - apply effects_runs. exact J.
  - apply effects_runs. repeat split; simpl; auto.
  - unfold timerFires. destruct (timer s) as [t|] eqn:Et; [|split; assumption].
    repeat split; simpl; auto.
    + intros r [<-|I]; [left; apply J2; reflexivity|apply J1, I].
    + discriminate.
  - assert (S : runs (settle run s)).
    { repeat split; simpl; auto. intros r' I. apply filter_In in I. apply J1, I. }
    unfold fetchResume.
    destruct (existsb (Nat.eqb run) (canceled (settle run s))) eqn:Ec.
    + destruct (awaited r); exact S.
    + assert (L : live s = Some run).
      { destruct (J1 run En) as [L|I]; [exact L|].
        assert (X : existsb (Nat.eqb run) (canceled s) = true)
          by (apply existsb_exists; exists run; split; [exact I|apply Nat.eqb_refl]).
        simpl in Ec. congruence. }
      assert (D : dest s <> None) by (intros E; apply K in E; congruence).
      destruct S as ((S1 & S2 & S3) & S4).
      destruct (awaited r);
        (split; [split; [exact S1|split; [exact S2|]]|exact S4]);
        simpl; intros E; exfalso; apply D; exact E.
Qed.

Lemma runs_reachable s : reachable s -> runs s.
Proof.
  induction 1 as [now g|s now e _ IH En].
  - unfold mounted. apply effects_runs.
    destruct g; repeat split; simpl; auto; try contradiction; discriminate.
  - apply runs_step; assumption.
Qed.


(** The ETA *)

Lemma vias_eta_step now e s : etaOk (durationMin s) -> etaOk (durationMin (handle now e s)).
Proof.
  intros E.
  assert (F : forall x, etaOk (durationMin x) -> etaOk (durationMin (fallback x))).
  { intros x Ex. unfold fallback. destruct (position x), (dest x); try exact Ex.
    simpl. unfold Math_max. lia. }
  assert (G : forall x, etaOk (durationMin x) -> etaOk (durationMin (effects now x))).
  { intros x Ex. unfold effects.
    destruct (fetchEffect_frame now (fallback x)) as (_ & _ & _ & _ & _ & _ & _ & _ & ->).
    apply F, Ex. }
  unfold handle. change (etaOk (durationMin
    match e with
    | GpsFix lat lon acc => onGpsFix now lat lon acc s
    | GpsError msg => onGpsError msg s
    | MapClick shiftKey lat lng => onMapClick now shiftKey lat lng s
    | ViaDragEnd i lat lng => onViaDragEnd now i lat lng s
    | ToggleMotorway => onAvoid now (negb (avoidMotorway s)) (avoidFerry s) (avoidToll s) s
    | ToggleFerry => onAvoid now (avoidMotorway s) (negb (avoidFerry s)) (avoidToll s) s
    | ToggleToll => onAvoid now (avoidMotorway s) (avoidFerry s) (negb (avoidToll s)) s
    | ClickClearVias => onClearVias now s
    | ClickClear => onClear now s
    | TimerFires => timerFires s
    | FetchSettles run r => fetchResume run r (settle run s)
    end)).
  destruct e as [lat lon acc|msg|shiftKey lat lng|i lat lng| | | | | | |run r].
  - apply G. exact E.
  - exact E.
  - apply G. destruct shiftKey; exact E.
  - apply G. exact E.
  - unfold onAvoid.
    destruct (fetchEffect_frame now (setAvoid (negb (avoidMotorway s)) (avoidFerry s) (avoidToll s) s))
      as (_ & _ & _ & _ & _ & _ & _ & _ & ->). exact E.
  - unfold onAvoid.
    destruct (fetchEffect_frame now (setAvoid (avoidMotorway s) (negb (avoidFerry s)) (avoidToll s) s))
      as (_ & _ & _ & _ & _ & _ & _ & _ & ->). exact E.
  - unfold onAvoid.
    destruct (fetchEffect_frame now (setAvoid (avoidMotorway s) (avoidFerry s) (negb (avoidToll s)) s))
      as (_ & _ & _ & _ & _ & _ & _ & _ & ->). exact E.
  - apply G. exact E.
  - apply G. exact I.
  - unfold timerFires. destruct (timer s); exact E.
  - unfold fetchResume.
    destruct (existsb (Nat.eqb run) (canceled (settle run s))); destruct (awaited r);
      try exact E. simpl. unfold Math_max. lia.
Qed.

Lemma vias_eta_reachable s : reachable s -> etaOk (durationMin s).
Proof.
  induction 1 as [now g|s now e _ IH _].
  - destruct g; exact I.
  - apply vias_eta_step, IH.
Qed.

(** The requests *)

Lemma fetchEffect_timer now x t :
  timer (fetchEffect now x) = Some t ->
  https (tUrl t) /\ due t = (now + DEBOUNCE_MS)%Z \/ timer x = Some t.
Proof.
  unfold fetchEffect.
  destruct (buildRouteUrl (cleanup x)) as [u|] eqn:Eu.
  - simpl. intros [= <-]. left. simpl. split; [|reflexivity].
    eapply buildRouteUrl_https, Eu.
  - unfold cleanup. destruct (live x); simpl; [discriminate|]. right. assumption.
Qed.

(** What a step does to the calls of [fetch] and to the timer. *)
Lemma vias_fetched_step now e s :
  (fetched (handle now e s) = fetched s \/
   exists t, e = TimerFires /\ timer s = Some t /\
     fetched (handle now e s) = (fetched s ++ [tUrl t])%list) /\
  (forall t, timer (handle now e s) = Some t ->
     https (tUrl t) /\ due t = (now + DEBOUNCE_MS)%Z \/ timer s = Some t).
Proof.
  assert (F : forall x, fetched x = fetched s -> timer x = timer s ->
    fetched (setClock now (fetchEffect now x)) = fetched s /\
    forall t, timer (setClock now (fetchEffect now x)) = Some t ->
      https (tUrl t) /\ due t = (now + DEBOUNCE_MS)%Z \/ timer s = Some t).
  { intros x Ex Et. simpl. destruct (fetchEffect_frame now x) as (-> & _).
    split; [exact Ex|]. intros t Ht. apply fetchEffect_timer in Ht. rewrite <- Et. exact Ht. }
  assert (G : forall x, fetched x = fetched s -> timer x = timer s ->
    fetched (setClock now (effects now x)) = fetched s /\
    forall t, timer (setClock now (effects now x)) = Some t ->
      https (tUrl t) /\ due t = (now + DEBOUNCE_MS)%Z \/ timer s = Some t).
  { intros x Ex Et. unfold effects.
    destruct (fallback_frame x) as (Ff & Ft & _). apply F; congruence. }
  destruct e as [lat lon acc|msg|shiftKey lat lng|i lat lng| | | | | | |run r];
    unfold handle.
  - destruct (G (setAccuracy (Some acc) (setPosition (Some (lat, lon)) (setError "" s))))
      as [E T]; auto.
  - split; [left; reflexivity|]. intros t Ht. right. exact Ht.
  - destruct (G (click shiftKey lat lng s)) as [E T];
      try (destruct shiftKey; reflexivity). auto.
  - destruct (G (setVias (replaceAt i (lat, lng) (vias s)) s)) as [E T]; auto.
  - destruct (F (setAvoid (negb (avoidMotorway s)) (avoidFerry s) (avoidToll s) s))
      as [E T]; auto.
  - destruct (F (setAvoid (avoidMotorway s) (negb (avoidFerry s)) (avoidToll s) s))
      as [E T]; auto.
  - destruct (F (setAvoid (avoidMotorway s) (avoidFerry s) (negb (avoidToll s)) s))
      as [E T]; auto.
  - destruct (G (setVias [] s)) as [E T]; auto.
  - destruct (G (clearHandler s)) as [E T]; auto.
  - unfold timerFires. destruct (timer s) as [t|] eqn:Et; simpl.
    + split; [right; exists t; auto|discriminate].
    + split; [left; reflexivity|]. rewrite Et. discriminate.
  - assert (E : fetched (fetchResume run r (settle run s)) = fetched s /\
                timer (fetchResume run r (settle run s)) = timer s).
    { unfold fetchResume.
      destruct (existsb (Nat.eqb run) (canceled (settle run s))); destruct (awaited r);
        split; reflexivity. }
    destruct E as [Ef Et]. simpl. rewrite Ef, Et. auto.
Qed.

Lemma urls_reachable s : reachable s -> urls s.
Proof.
  induction 1 as [now g|s now e _ [IF IT] _].
  - unfold mounted, effects. split.
    + destruct (fetchEffect_frame now (fallback (if g then initial now
        else setError "Geolocation not supported." (initial now)))) as (-> & _).
      destruct (fallback_frame (if g then initial now
        else setError "Geolocation not supported." (initial now))) as (-> & _).
      destruct g; constructor.
    + intros t Ht. apply fetchEffect_timer in Ht. destruct Ht as [[Hh _]|Ht]; [exact Hh|].
      destruct (fallback_frame (if g then initial now
        else setError "Geolocation not supported." (initial now))) as (_ & Et & _).
      rewrite Et in Ht. destruct g; discriminate.
  - destruct (vias_fetched_step now e s) as [[E|(t & _ & Et & E)] T]; split.
    + rewrite E. exact IF.
    + intros t Ht. destruct (T t Ht) as [[Hh _]|Ht']; auto.
    + rewrite E. apply Forall_app. split; [exact IF|]. constructor; [|constructor].
      apply IT, Et.
    + intros t' Ht. destruct (T t' Ht) as [[Hh _]|Ht']; auto.
Qed.

(** Only a timer that is due issues a request. *)
Lemma vias_fetched_by_timer now e s :
  enabled now e s -> fetched (handle now e s) <> fetched s ->
  exists t, e = TimerFires /\ timer s = Some t /\ (due t <= now)%Z.
Proof.
  intros [_ En] N.
  destruct (vias_fetched_step now e s) as [[E|(t & -> & Et & _)] _]; [contradiction|].
  destruct En as (t' & Et' & Hd). exists t'. auto.
Qed.

(** Failures *)


(** Whatever a cancelled run settles to changes nothing. *)
Lemma vias_resume_canceled run r s :
  existsb (Nat.eqb run) (canceled s) = true -> fetchResume run r s = s.
Proof. unfold fetchResume. intros ->. destruct (awaited r); reflexivity. Qed.

(** Clicks *)

(** A click sets the destination or adds a via; the effects after it leave
    both alone. *)
Lemma vias_click_frame now shiftKey lat lng s :
  vias (handle now (MapClick shiftKey lat lng) s) = vias (click shiftKey lat lng s) /\
  dest (handle now (MapClick shiftKey lat lng) s) = dest (click shiftKey lat lng s).
Proof.
  unfold handle, onMapClick, effects.
  change (vias (fetchEffect now (fallback (click shiftKey lat lng s))) =
          vias (click shiftKey lat lng s) /\
          dest (fetchEffect now (fallback (click shiftKey lat lng s))) =
          dest (click shiftKey lat lng s)).
  destruct (fetchEffect_frame now (fallback (click shiftKey lat lng s)))
    as (_ & _ & -> & _ & -> & _).
  destruct (fallback_frame (click shiftKey lat lng s)) as (_ & _ & _ & _ & _ & -> & _ & -> & _).
  split; reflexivity.
Qed.

(** After Clear. *)
Lemma vias_clear_frame now s :
  vias (handle now ClickClear s) = [] /\ dest (handle now ClickClear s) = None /\
  position (handle now ClickClear s) = position s /\
  accuracy (handle now ClickClear s) = accuracy s /\
  routeCoords (handle now ClickClear s) = [] /\ distanceKm (handle now ClickClear s) = None /\
  durationMin (handle now ClickClear s) = None /\ error (handle now ClickClear s) = "".
Proof.
  unfold handle, onClear, effects.
  assert (E : fetchEffect now (fallback (clearHandler s)) = cleanup (clearHandler s)).
  { rewrite fallback_none by reflexivity. unfold fetchEffect.
    rewrite buildRouteUrl_none; [reflexivity|].
    unfold cleanup. destruct (live (clearHandler s)); reflexivity. }
  rewrite E. unfold cleanup.
  destruct (live (clearHandler s)); repeat split; vm_compute; reflexivity.
Qed.

End ViasFacts.

(** ** The straight-line estimate on display *)

Section V1StraightLine.
Context `{JsNumber}.
Import V1 V1Req.












End V1StraightLine.

Section ViasStraightLine.
Context `{JsNumber}.
Import Vias ViasInv ViasReq.














End ViasStraightLine.

(** ** Properties of the three versions *)

Section Properties.
Context `{JsNumber}.

(** C1.  In the third version a route response is applied to the route
    state of its leg (polyline, distance, ETA) only if the controller of
    its request is the one stored for the leg, which is the controller of
    the request issued last for the leg; a response for any other request
    changes the route state of neither leg, and the response for the
    latest request is applied: the last request of a leg wins. *)
Theorem stale_response_discarded :
  (forall s, V3.reachable s ->
     forall leg, V3.abort (V3.legOf leg s) = V3.latestIssued leg (V3.issued s)) /\
  (forall s leg c r l,
     V3.abort (V3.legOf leg s) <> Some c ->
     V3.routeState l (V3.fetchLegResume leg c r s) = V3.routeState l s) /\
  (forall s now leg c r l,
     V3.reachable s -> V3.latestIssued leg (V3.issued s) <> Some c ->
     V3.routeState l (V3.handle now (V3.FetchSettles c leg r) s) = V3.routeState l s) /\
  (forall s leg c r,
     V3.routeState leg (V3.fetchLegResume leg c r s) <> V3.routeState leg s ->
     V3.abort (V3.legOf leg s) = Some c /\ exists rt, awaited r = inr rt) /\
  (forall s leg c rt rest,
     V3.abort (V3.legOf leg s) = Some c ->
     V3.routeState leg (V3.fetchLegResume leg c (Json (rt :: rest)) s) =
     (toPath rt, Some (toFixed 2 (distance rt / 1000)),
      Some (Math_max 1 (Math_round (duration rt / 60))))) /\
  (forall s leg c r,
     V3.routeState (V3.other leg) (V3.fetchLegResume leg c r s) =
     V3.routeState (V3.other leg) s).
Proof.
  split; [exact latest_reachable|].
  split; [intros s leg c r l N; apply resume_stale, N|].
  split.
  { intros s now leg c r l R N. unfold V3.handle.
    rewrite routeState_setClock, resume_stale, routeState_settle; [reflexivity|].
    rewrite legOf_settle, (latest_reachable s R leg). exact N. }
  split.
  { intros s leg c r N. split.
    - destruct (V3.abort (V3.legOf leg s)) as [c'|] eqn:Ea.
      + destruct (Nat.eq_dec c' c) as [->|D]; [reflexivity|].
        exfalso. apply N, resume_stale. rewrite Ea. congruence.
      + exfalso. apply N, resume_stale. rewrite Ea. discriminate.
    - destruct (awaited r) as [e|rt] eqn:Er; [|exists rt; reflexivity].
      exfalso. apply N. eapply resume_failure, Er. }
  split; [intros s leg c rt rest E; apply resume_latest, E|].
  intros s leg c r. apply resume_other_leg.
Qed.

(** C2.  In the third version a request is issued only by the callback of
    a debounce timer that is due; the timer of a leg is set 350 ms ahead
    (300 ms in the other two versions), holds the current points of the
    leg, and is set anew by every step that changes them, so that the
    callback never runs within 350 ms of such a change; and the callback
    issues no request and changes nothing of its leg when less than
    5000 ms have passed since the last request of the leg and both points
    are less than 30 m from those of that request. *)
Theorem fetch_debounced_and_gated :
  V3.DEBOUNCE_MS = 350%Z /\ V1.DEBOUNCE_MS = 300%Z /\ Vias.DEBOUNCE_MS = 300%Z /\
  V3.MIN_FETCH_INTERVAL_MS = 5000%Z /\ V3.MIN_MOVE_M = 30 /\
  (forall s now e,
     V3.enabled now e s -> V3.fetched (V3.handle now e s) <> V3.fetched s ->
     exists leg t,
       e = V3.TimerFires leg /\ V3.timer (V3.legOf leg s) = Some t /\
       (V3.due t <= now)%Z) /\
  (forall s now e c leg,
     In (c, leg) (V3.issued (V3.handle now e s)) -> ~ In (c, leg) (V3.issued s) ->
     e = V3.TimerFires leg) /\
  (forall leg T e s s' now,
     V3.inputs leg (V3.handle T e s) <> V3.inputs leg s ->
     V3Inv.runsTo (V3.handle T e s) s' ->
     V3.enabled now (V3.TimerFires leg) s' ->
     (T + 350 <= now)%Z) /\
  (forall s, V3.reachable s ->
     forall leg t, V3.timer (V3.legOf leg s) = Some t ->
       (V3.tFrom t, V3.tTo t) = V3.inputs leg s /\
       (V3.due t - V3.DEBOUNCE_MS <= V3.clock s)%Z) /\
  (forall s now e leg,
     V3.inputs leg (V3.handle now e s) <> V3.inputs leg s ->
     V3.timer (V3.legOf leg (V3.handle now e s)) =
     Some {| V3.due := now + V3.DEBOUNCE_MS;
             V3.tFrom := fst (V3.inputs leg (V3.handle now e s));
             V3.tTo := snd (V3.inputs leg (V3.handle now e s)) |}) /\
  (forall s now leg f t pf pt,
     V3.from (V3.last (V3.legOf leg s)) = Some pf ->
     V3.to (V3.last (V3.legOf leg s)) = Some pt ->
     (now - V3.ts (V3.last (V3.legOf leg s)) < V3.MIN_FETCH_INTERVAL_MS)%Z ->
     distanceMeters pf f < V3.MIN_MOVE_M ->
     distanceMeters pt t < V3.MIN_MOVE_M ->
     V3.fetchLeg now leg (Some f) (Some t) s = s /\
     forall tm, V3.timer (V3.legOf leg s) = Some tm ->
       V3.tFrom tm = Some f -> V3.tTo tm = Some t ->
       V3.handle now (V3.TimerFires leg) s = V3.setClock now (V3.setTimer leg None s)) /\
  (forall s now e,
     V1.enabled now e s -> V1.fetched (V1.handle now e s) <> V1.fetched s ->
     exists leg t,
       e = V1.TimerFires leg /\ V1.timer (V1.legOf leg s) = Some t /\
       (V1.due t <= now)%Z) /\
  (forall s now e,
     Vias.enabled now e s -> Vias.fetched (Vias.handle now e s) <> Vias.fetched s ->
     exists t, e = Vias.TimerFires /\ Vias.timer s = Some t /\ (Vias.due t <= now)%Z) /\
  (forall s now leg t,
     V1.timer (V1.legOf leg (V1.fetchEffect now s)) = Some t ->
     V1.due t = (now + 300)%Z) /\
  (forall s now t,
     Vias.timer (Vias.fetchEffect now s) = Some t ->
     Vias.due t = (now + 300)%Z \/ Vias.timer s = Some t).
Proof.
  repeat (split; [reflexivity|]).
  split; [intros s now e; apply fetched_by_timer|].
  split; [intros s now e c leg; apply issued_by_timer|].
  split; [intros leg T e s s' now; apply debounced_after_change|].
  split; [intros s R; apply timersFresh_reachable, R|].
  split; [intros s now e leg; apply inputs_change_reschedules|].
  split.
  { intros s now leg f t pf pt Ef Et Hts Hf Ht.
    assert (G : V3.gated now (V3.last (V3.legOf leg s)) f t = true)
      by (eapply gated_true; eauto).
    split.
    - apply fetchLeg_skips. exact G.
    - intros tm Em Emf Emt. eapply timer_gated; eauto. }
  split; [intros s now e; apply v1_fetched_by_timer|].
  split; [intros s now e; apply vias_fetched_by_timer|].
  split.
  - intros s now leg t. destruct leg; simpl; intros [= <-]; reflexivity.
  - intros s now t Ht. apply fetchEffect_timer in Ht.
    destruct Ht as [[_ D]|E]; [left; exact D|right; exact E].
Qed.

(** C3.  In the third version [fetchLeg], past the gate, calls [abort()] on
    the controller stored for the leg, so that every earlier request of the
    leg has been aborted, stores a new controller that has not been aborted
    and passes its signal to [fetch]; and an [AbortError] only resets the
    loading flag: it sets no error string and changes no route state. *)
Theorem superseded_request_aborted :
  (forall s now leg f t,
     V3.gated now (V3.last (V3.legOf leg s)) f t = false ->
     (forall c, V3.abort (V3.legOf leg s) = Some c ->
        In c (V3.aborted (V3.fetchLeg now leg (Some f) (Some t) s))) /\
     V3.abort (V3.legOf leg (V3.fetchLeg now leg (Some f) (Some t) s)) =
       Some (V3.nextCtrl s) /\
     V3.fetched (V3.fetchLeg now leg (Some f) (Some t) s) =
       (V3.fetched s ++
        [{| V3.url := V3.routeUrl f t; V3.signal := V3.nextCtrl s |}])%list) /\
  (forall s now leg f t,
     V3.reachable s ->
     V3.gated now (V3.last (V3.legOf leg s)) f t = false ->
     (forall c, In (c, leg) (V3.issued s) ->
        In c (V3.aborted (V3.fetchLeg now leg (Some f) (Some t) s))) /\
     ~ In (V3.nextCtrl s) (V3.aborted (V3.fetchLeg now leg (Some f) (Some t) s))) /\
  (forall s leg c e,
     name e = "AbortError" ->
     V3.fetchLegResume leg c (Rejected e) s = V3.setLoading leg false s) /\
  (forall s leg c,
     V3.fetchLegResume leg c (Rejected AbortError) s = V3.setLoading leg false s) /\
  (forall s leg c e,
     name e = "AbortError" ->
     V3.error (V3.fetchLegResume leg c (Rejected e) s) = V3.error s /\
     forall l, V3.routeState l (V3.fetchLegResume leg c (Rejected e) s) = V3.routeState l s).
Proof.
  split.
  { intros s now leg f t G.
    destruct (fetchLeg_issues now leg f t s G) as (_ & Ea & _ & Eb & _ & Ef & _).
    repeat split; try assumption.
    intros c E. rewrite Ea, E. left. reflexivity. }
  split.
  { intros s now leg f t R G.
    destruct (fetchLeg_issues now leg f t s G) as (_ & Ea & _).
    destruct (allocated_reachable s R) as (_ & A2 & A3).
    rewrite Ea. split.
    - intros c I. destruct (superseded_reachable s R c leg I) as [E|I'].
      + rewrite E. left. reflexivity.
      + destruct (V3.abort (V3.legOf leg s)); [right|]; exact I'.
    - intros I. destruct (V3.abort (V3.legOf leg s)) as [c|] eqn:E.
      + destruct I as [->|I]; [apply A3 in E; lia|apply A2 in I; lia].
      + apply A2 in I. lia. }
  split; [intros s leg c e N; apply resume_abort, N|].
  split; [intros s leg c; apply resume_abort; reflexivity|].
  intros s leg c e N. rewrite (resume_abort leg c e s N).
  split; [destruct leg; reflexivity|intros l; destruct leg, l; reflexivity].
Qed.


(** C6.  Every route request of the three versions goes to the
    OSRM endpoint over https. *)
Theorem osrm_requests_use_https :
  (forall s, V3.reachable s ->
     Forall (fun q => urlScheme (V3.url q) = "https") (V3.fetched s)) /\
  (forall s, V1.reachable s -> Forall (fun u => urlScheme u = "https") (V1.fetched s)) /\
  (forall s, Vias.reachable s -> Forall (fun u => urlScheme u = "https") (Vias.fetched s)) /\
  (forall f t, exists rest, V3.routeUrl f t = osrmBase ++ rest) /\
  (forall f t, exists rest, V1.routeUrl f t = osrmBase ++ rest) /\
  (forall s u, Vias.buildRouteUrl s = Some u -> exists rest, u = osrmBase ++ rest) /\
  urlScheme osrmBase = "https".
Proof.
  split; [exact https_reachable|].
  split; [exact v1_https_reachable|].
  split; [intros s R; apply (urls_reachable s R)|].
  split; [intros f t; eexists; reflexivity|].
  split; [intros f t; eexists; reflexivity|].
  split; [|reflexivity].
  intros s u. unfold Vias.buildRouteUrl.
  destruct (Vias.position s), (Vias.dest s); try discriminate.
  intros [= <-]. eexists. reflexivity.
Qed.


(** C8.  In the version with vias a click with Shift held appends the
    clicked point to the vias and leaves the earlier vias and the
    destination as they were; a click without it sets the destination to
    the clicked point and leaves the vias as they were. *)
Theorem shift_click_adds_via :
  forall now lat lng s,
    (Vias.vias (Vias.handle now (Vias.MapClick true lat lng) s) =
       (Vias.vias s ++ [(lat, lng)])%list /\
     Vias.dest (Vias.handle now (Vias.MapClick true lat lng) s) = Vias.dest s) /\
    (Vias.dest (Vias.handle now (Vias.MapClick false lat lng) s) = Some (lat, lng) /\
     Vias.vias (Vias.handle now (Vias.MapClick false lat lng) s) = Vias.vias s).
Proof.
  intros now lat lng s.
  destruct (vias_click_frame now true lat lng s) as [-> ->].
  destruct (vias_click_frame now false lat lng s) as [-> ->].
  repeat split.
Qed.

(** C9.  Every ETA the three versions store is null or at least one minute,
    and so is the total the two-leg versions display. *)
Theorem eta_at_least_one_minute :
  (forall s, V3.reachable s ->
     etaOk (V3.minDU s) /\ etaOk (V3.minUD s) /\ etaOk (V3.totalMin s)) /\
  (forall s, Vias.reachable s -> etaOk (Vias.durationMin s)) /\
  (forall s, V1.reachable s ->
     etaOk (V1.minDU s) /\ etaOk (V1.minUD s) /\ etaOk (V1.totalMin s)) /\
  (forall x, (1 <= Math_max 1 (Math_round x))%Z).
Proof.
  split.
  { intros s R. destruct (etas_reachable s R) as [D U]. repeat split; try assumption.
    unfold V3.totalMin.
    destruct (0 <? _)%Z eqn:E; [|exact I]. apply Z.ltb_lt in E. simpl. lia. }
  split; [exact vias_eta_reachable|].
  split.
  { intros s R. destruct (v1_etas_reachable s R) as [D U]. repeat split; try assumption.
    unfold V1.totalMin.
    destruct (0 <? _)%Z eqn:E; [|exact I]. apply Z.ltb_lt in E. simpl. lia. }
  intros x. unfold Math_max. lia.
Qed.

(** C10.  Clear resets the ride: driver and destination (and vias) to
    null or empty, the polylines to empty, distances and ETAs to null, the
    error string to empty; the third version also turns follow mode on,
    resets the records of the last requests and aborts every request
    issued; the GPS position and its accuracy stay as they were. *)
Theorem clear_resets_ride :
  (forall now s,
     V3.driver (V3.handle now V3.ClickClear s) = None /\
     V3.dest (V3.handle now V3.ClickClear s) = None /\
     V3.routeDU (V3.handle now V3.ClickClear s) = [] /\
     V3.routeUD (V3.handle now V3.ClickClear s) = [] /\
     V3.kmDU (V3.handle now V3.ClickClear s) = None /\
     V3.kmUD (V3.handle now V3.ClickClear s) = None /\
     V3.minDU (V3.handle now V3.ClickClear s) = None /\
     V3.minUD (V3.handle now V3.ClickClear s) = None /\
     V3.error (V3.handle now V3.ClickClear s) = "" /\
     V3.follow (V3.handle now V3.ClickClear s) = true /\
     V3.lastDU (V3.handle now V3.ClickClear s) = V3.emptyRec /\
     V3.lastUD (V3.handle now V3.ClickClear s) = V3.emptyRec /\
     V3.position (V3.handle now V3.ClickClear s) = V3.position s /\
     V3.accuracy (V3.handle now V3.ClickClear s) = V3.accuracy s) /\
  (forall now s c,
     V3.abortDU s = Some c \/ V3.abortUD s = Some c ->
     In c (V3.aborted (V3.handle now V3.ClickClear s))) /\
  (forall now s, V3.reachable s ->
     forall c l, In (c, l) (V3.issued (V3.handle now V3.ClickClear s)) ->
       In c (V3.aborted (V3.handle now V3.ClickClear s))) /\
  (forall now s,
     V1.driver (V1.handle now V1.ClickClear s) = None /\
     V1.dest (V1.handle now V1.ClickClear s) = None /\
     V1.routeDU (V1.handle now V1.ClickClear s) = [] /\
     V1.routeUD (V1.handle now V1.ClickClear s) = [] /\
     V1.kmDU (V1.handle now V1.ClickClear s) = None /\
     V1.kmUD (V1.handle now V1.ClickClear s) = None /\
     V1.minDU (V1.handle now V1.ClickClear s) = None /\
     V1.minUD (V1.handle now V1.ClickClear s) = None /\
     V1.error (V1.handle now V1.ClickClear s) = "" /\
     V1.position (V1.handle now V1.ClickClear s) = V1.position s /\
     V1.accuracy (V1.handle now V1.ClickClear s) = V1.accuracy s) /\
  (forall now s,
     Vias.vias (Vias.handle now Vias.ClickClear s) = [] /\
     Vias.dest (Vias.handle now Vias.ClickClear s) = None /\
     Vias.position (Vias.handle now Vias.ClickClear s) = Vias.position s /\
     Vias.accuracy (Vias.handle now Vias.ClickClear s) = Vias.accuracy s /\
     Vias.routeCoords (Vias.handle now Vias.ClickClear s) = [] /\
     Vias.distanceKm (Vias.handle now Vias.ClickClear s) = None /\
     Vias.durationMin (Vias.handle now Vias.ClickClear s) = None /\
     Vias.error (Vias.handle now Vias.ClickClear s) = "").
Proof.
  split; [exact clear_resets|].
  split.
  { intros now s c E. destruct (book_clear now s) as (_ & _ & _ & _ & _ & A).
    apply A. right. exact E. }
  split.
  { intros now s R c l. destruct (book_clear now s) as (-> & _ & _ & _ & _ & A).
    intros I. apply A. destruct (superseded_reachable s R c l I) as [E|I'].
    - right. destruct l; [left|right]; exact E.
    - left. exact I'. }
  split; [exact v1_clear_resets|exact vias_clear_frame].
Qed.

End Properties.

(** ** The sample runs *)

Lemma v3run_reachable :
  @V3.reachable sampleNumbers V3Run.located /\
  @V3.reachable sampleNumbers V3Run.requested /\
  @V3.reachable sampleNumbers V3Run.relocated /\
  @V3.reachable sampleNumbers V3Run.requestedAgain.
Proof.
  assert (R0 : @V3.reachable sampleNumbers V3Run.start) by constructor.
  assert (R1 : @V3.reachable sampleNumbers V3Run.located).
  { apply V3.reach_step; [exact R0|]. split; [vm_compute; discriminate|exact I]. }
  assert (R2 : @V3.reachable sampleNumbers V3Run.armed).
  { apply V3.reach_step; [exact R1|]. split; vm_compute; discriminate. }
  assert (R3 : @V3.reachable sampleNumbers V3Run.destined).
  { apply V3.reach_step; [exact R2|]. split; vm_compute; discriminate. }
  assert (R4 : @V3.reachable sampleNumbers V3Run.requested).
  { apply V3.reach_step; [exact R3|]. split; [vm_compute; discriminate|].
    eexists. split; [vm_compute; reflexivity|vm_compute; discriminate]. }
  assert (R5 : @V3.reachable sampleNumbers V3Run.relocated).
  { apply V3.reach_step; [exact R4|]. split; [vm_compute; discriminate|exact I]. }
  repeat split; try assumption.
  apply V3.reach_step; [exact R5|]. split; [vm_compute; discriminate|].
  eexists. split; [vm_compute; reflexivity|vm_compute; discriminate].
Qed.

Lemma viasrun_reachable :
  @Vias.reachable sampleNumbers ViasRun.located /\
  @Vias.reachable sampleNumbers ViasRun.destined /\
  @Vias.reachable sampleNumbers ViasRun.requested /\
  @Vias.reachable sampleNumbers ViasRun.redirected.
Proof.
  assert (R0 : @Vias.reachable sampleNumbers ViasRun.start) by constructor.
  assert (R1 : @Vias.reachable sampleNumbers ViasRun.located).
  { apply Vias.reach_step; [exact R0|]. split; [vm_compute; discriminate|exact I]. }
  assert (R2 : @Vias.reachable sampleNumbers ViasRun.destined).
  { apply Vias.reach_step; [exact R1|]. split; vm_compute; discriminate. }
  assert (R3 : @Vias.reachable sampleNumbers ViasRun.requested).
  { apply Vias.reach_step; [exact R2|]. split; [vm_compute; discriminate|].
    eexists. split; [vm_compute; reflexivity|vm_compute; discriminate]. }
  repeat split; try assumption.
  apply Vias.reach_step; [exact R3|]. split; vm_compute; discriminate.
Qed.

(** In the first version a response that arrives after Clear is still
    applied: the leg to the destination has a distance and no destination. *)
Lemma v1_late_response_after_clear :
  @V1.reachable sampleNumbers V1Run.late /\
  V1.dest V1Run.late = None /\ V1.kmUD V1Run.late <> None.
Proof.
  assert (R0 : @V1.reachable sampleNumbers V1Run.start) by constructor.
  assert (R1 : @V1.reachable sampleNumbers V1Run.located).
  { apply V1.reach_step; [exact R0|]. split; [vm_compute; discriminate|exact I]. }
  assert (R2 : @V1.reachable sampleNumbers V1Run.armed).
  { apply V1.reach_step; [exact R1|]. split; vm_compute; discriminate. }
  assert (R3 : @V1.reachable sampleNumbers V1Run.destined).
  { apply V1.reach_step; [exact R2|]. split; vm_compute; discriminate. }
  assert (R4 : @V1.reachable sampleNumbers V1Run.requested).
  { apply V1.reach_step; [exact R3|]. split; [vm_compute; discriminate|].
    eexists. split; [vm_compute; reflexivity|vm_compute; discriminate]. }
  assert (R5 : @V1.reachable sampleNumbers V1Run.cleared).
  { apply V1.reach_step; [exact R4|]. split; vm_compute; discriminate. }
  split; [|split; vm_compute; [reflexivity|discriminate]].
  apply V1.reach_step; [exact R5|]. split; [vm_compute; discriminate|].
  vm_compute. left. reflexivity.
Qed.


(** ** The properties at the sample runs *)

(** C1 at the sample run: the first of two requests of the leg to the
    destination brings a route after the second was issued. *)
Lemma stale_response_discarded_witness :
  V3.routeState V3.UD
    (@V3.handle sampleNumbers 40000
       (V3.FetchSettles 0%nat V3.UD (Json [V3Run.someRoute])) V3Run.requestedAgain) =
  V3.routeState V3.UD V3Run.requestedAgain.
Proof.
  apply (proj1 (proj2 (proj2 (@stale_response_discarded sampleNumbers)))).
  - apply v3run_reachable.
  - vm_compute. discriminate.
Defined.

(** C2 at the sample run: two seconds after the first request, with both
    points where they were. *)
Lemma fetch_debounced_and_gated_witness :
  @V3.fetchLeg sampleNumbers 12000 V3.UD (Some (0, 0)) (Some (1, 1)) V3Run.requested =
  V3Run.requested.
Proof.
  refine (proj1 (proj1 (proj2 (proj2 (proj2 (proj2 (proj2 (proj2 (proj2 (proj2 (proj2 (proj2
    (@fetch_debounced_and_gated sampleNumbers)))))))))))
    V3Run.requested 12000%Z V3.UD (0, 0) (1, 1) (0, 0) (1, 1) _ _ _ _ _)).
  - vm_compute. reflexivity.
  - vm_compute. reflexivity.
  - vm_compute. reflexivity.
  - rewrite distanceMeters_refl. unfold V3.MIN_MOVE_M. lra.
  - rewrite distanceMeters_refl. unfold V3.MIN_MOVE_M. lra.
Defined.

(** C3 at the sample run: the second request of the leg to the
    destination. *)
Lemma superseded_request_aborted_witness :
  (forall c, In (c, V3.UD) (V3.issued V3Run.relocated) ->
     In c (V3.aborted
       (@V3.fetchLeg sampleNumbers 30000 V3.UD (Some (0, 0)) (Some (1, 1)) V3Run.relocated))) /\
  ~ In (V3.nextCtrl V3Run.relocated)
      (V3.aborted
        (@V3.fetchLeg sampleNumbers 30000 V3.UD (Some (0, 0)) (Some (1, 1)) V3Run.relocated)).
Proof.
  apply (proj1 (proj2 (@superseded_request_aborted sampleNumbers))).
  - apply v3run_reachable.
  - vm_compute. reflexivity.
Defined.


(** C5 at the sample run: the fallback between the user and the
    destination. *)
Lemma fallback_is_haversine_witness :
  Vias.distanceKm (@Vias.fallback sampleNumbers ViasRun.destined) =
  Some (@toFixed sampleNumbers 2 (HaversineSpec.chainKm [(0, 0); (1, 1)])).
Proof.
  refine (proj1 (proj2 (proj2 (proj2 (@fallback_is_haversine sampleNumbers))))
    ViasRun.destined (0, 0) (1, 1) _ _).
  - vm_compute. reflexivity.
  - vm_compute. reflexivity.
Defined.

(** C6, a request that is not over plain http: the one of the sample
    run. *)
Lemma osrm_request_not_plain_http :
  @V3.reachable sampleNumbers V3Run.requested /\
  exists q, In q (V3.fetched V3Run.requested) /\
    urlScheme (V3.url q) = "https" /\ urlScheme (V3.url q) <> "http".
Proof.
  split; [apply v3run_reachable|].
  eexists. split; [vm_compute; left; reflexivity|].
  split; [vm_compute; reflexivity|vm_compute; discriminate].
Qed.

(** C6 at the sample run. *)
Lemma osrm_requests_use_https_witness :
  Forall (fun q => urlScheme (V3.url q) = "https") (V3.fetched V3Run.requested).
Proof.
  apply (proj1 (@osrm_requests_use_https sampleNumbers)).
  apply v3run_reachable.
Defined.



(** C9 at the sample run. *)
Lemma eta_at_least_one_minute_witness :
  etaOk (V3.minDU V3Run.requested) /\ etaOk (V3.minUD V3Run.requested) /\
  etaOk (V3.totalMin V3Run.requested).
Proof.
  apply (proj1 (@eta_at_least_one_minute sampleNumbers)).
  apply v3run_reachable.
Defined.

(** C10 at the sample run: Clear after two requests, the second still in
    flight. *)
Lemma clear_resets_ride_witness :
  In 1%nat (V3.aborted (@V3.handle sampleNumbers 50000 V3.ClickClear V3Run.requestedAgain)).
Proof.
  refine (proj1 (proj2 (proj2 (@clear_resets_ride sampleNumbers)))
    50000%Z V3Run.requestedAgain _ 1%nat V3.UD _).
  - apply v3run_reachable.
  - vm_compute. left. reflexivity.
Defined.

(** * Further properties of the code *)

(** ** The haversine distance *)

Section HaversineFacts.

Import HaversineSpec.

Lemma dot_sym u v : dot u v = dot v u.
Proof. destruct u as [[x1 y1] z1], v as [[x2 y2] z2]. unfold dot. lra. Qed.

End HaversineFacts.

(** X1. The haversine distance does not depend on the order of its two
    points, in kilometres and in metres. *)
Theorem haversineKm_symmetric (p q : LatLng) :
  haversineKm p q = haversineKm q p /\ distanceMeters p q = distanceMeters q p.
Proof.
  assert (E : haversineKm p q = haversineKm q p).
  { rewrite !haversineKm_central_angle. unfold HaversineSpec.centralAngle.
    rewrite dot_sym. reflexivity. }
  unfold distanceMeters. rewrite E. split; reflexivity.
Qed.

(** ** Rounding to minutes *)

Lemma Math_round_bounds x : IZR (Math_round x) - / 2 <= x < IZR (Math_round x) + / 2.
Proof.
  unfold Math_round. destruct (base_Int_part (x + / 2)) as [A B]. lra.
Qed.

Lemma Math_round_mono x y : x <= y -> (Math_round x <= Math_round y)%Z.
Proof.
  intros L. pose proof (Math_round_bounds x) as Bx. pose proof (Math_round_bounds y) as By.
  assert (IZR (Math_round x) < IZR (Math_round y) + 1) as I by lra.
  rewrite <- plus_IZR in I. apply lt_IZR in I. lia.
Qed.

Lemma Math_round_small x : 0 <= x < 3 / 2 -> (Math_round x <= 1)%Z.
Proof.
  intros B. pose proof (Math_round_bounds x) as Bx.
  assert (IZR (Math_round x) < IZR 2) as I by (simpl; lra).
  apply lt_IZR in I. lia.
Qed.

Lemma Math_round_large x : 3 / 2 <= x -> (1 <= Math_round x)%Z.
Proof.
  intros B. pose proof (Math_round_bounds x) as Bx.
  assert (IZR 0 < IZR (Math_round x)) as I by (simpl; lra).
  apply lt_IZR in I. lia.
Qed.

(** The minutes stored for a time of [t] minutes. *)
Lemma minutes_rounded t :
  0 <= t ->
  (t < 3 / 2 -> Math_max 1 (Math_round t) = 1%Z) /\
  (3 / 2 <= t ->
   IZR (Math_max 1 (Math_round t)) - / 2 <= t < IZR (Math_max 1 (Math_round t)) + / 2).
Proof.
  intros P. unfold Math_max. split; intros B.
  - pose proof (Math_round_small t (conj P B)). lia.
  - pose proof (Math_round_large t B). rewrite Z.max_r by lia. apply Math_round_bounds.
Qed.

Lemma haversineKm_nonneg p q : 0 <= haversineKm p q.
Proof.
  rewrite haversineKm_central_angle.
  unfold HaversineSpec.centralAngle, HaversineSpec.earthRadiusKm.
  pose proof (acos_bound (HaversineSpec.dot (HaversineSpec.onSphere p) (HaversineSpec.onSphere q))).
  nra.
Qed.

(** X4. In the third version the straight-line ETA to the destination is
    the travel time at 25 km/h rounded to the nearest minute, and 1 minute
    for every distance below 625 m; a longer distance never gives a
    shorter ETA. *)
Theorem fallback_eta_rounded `{JsNumber} (s : V3.State) (p d : LatLng) :
  V3.position s = Some p -> V3.dest s = Some d ->
  exists m,
    V3.minUD (V3.fallbackUD s) = Some m /\
    (haversineKm p d < 625 / 1000 -> m = 1%Z) /\
    (625 / 1000 <= haversineKm p d ->
     IZR m - / 2 <= haversineKm p d / 25 * 60 < IZR m + / 2) /\
    (forall s' p' d' m',
       V3.position s' = Some p' -> V3.dest s' = Some d' ->
       haversineKm p d <= haversineKm p' d' ->
       V3.minUD (V3.fallbackUD s') = Some m' -> (m <= m')%Z).
Proof.
  intros Ep Ed. exists (Math_max 1 (Math_round (haversineKm p d / 25 * 60))).
  pose proof (haversineKm_nonneg p d) as P.
  destruct (minutes_rounded (haversineKm p d / 25 * 60)) as [A B]; [lra|].
  split; [unfold V3.fallbackUD; rewrite Ep, Ed; reflexivity|].
  split; [intros L; apply A; lra|].
  split; [intros L; apply B; lra|].
  intros s' p' d' m' Ep' Ed' L. unfold V3.fallbackUD. rewrite Ep', Ed'.
  intros E. change (Some (Math_max 1 (Math_round (haversineKm p' d' / 25 * 60))) = Some m') in E.
  injection E as <-. unfold Math_max.
  apply Z.max_le_compat_l, Math_round_mono. lra.
Qed.

(** ** The third version: the gate and the requests in flight *)

Section V3Requests.
Context `{JsNumber}.
Import V3 V3Inv V3Req.

(** Case analysis on the event of a step, the effects as updates. *)
Ltac v3_step e s :=
  destruct e as [lat lon acc|msg|lat lng| | | | | | | |leg1|c1 leg1 r1];
  unfold handle;
  [ unfold onGpsFix; rewrite fallbackUD_eq, fallbackDU_eq; unfold fetchEffect
  | unfold onGpsError
  | unfold onMapClick, onSet;
    destruct (tapMode s) as [[|]|] eqn:Etap; [destruct (moved s) eqn:Emoved..|];
    rewrite ?fallbackUD_eq, ?fallbackDU_eq; unfold fetchEffect
  | unfold onUserPan
  | unfold onUserPan
  | unfold onMoveEnd
  | unfold toggleTap; destruct (tapMode s) as [[|]|] eqn:Etap
  | unfold toggleTap; destruct (tapMode s) as [[|]|] eqn:Etap
  | unfold onFollow
  | rewrite onClear_eq; unfold clearHandler, abortCurrent; simpl;
    destruct (abort (legDU s)) eqn:EaD; simpl; destruct (abort (legUD s)) eqn:EaU; simpl;
    destruct (isLatLng (driver s)) eqn:Edrv; simpl; destruct (isLatLng (dest s)) eqn:Edst;
    simpl; unfold fetchEffect
  | idtac
  | idtac ].

Lemma flags_eq s' s :
  flags s' = flags s ->
  loading (legDU s') = loading (legDU s) /\ loading (legUD s') = loading (legUD s) /\
  settled s' = settled s.
Proof. unfold flags. intros [= -> -> ->]. repeat split. Qed.

Lemma flags_fetchLeg now leg from_ to_ s :
  settled (fetchLeg now leg from_ to_ s) = settled s /\
  loading (legOf (other leg) (fetchLeg now leg from_ to_ s)) = loading (legOf (other leg) s) /\
  (loading (legOf leg (fetchLeg now leg from_ to_ s)) = loading (legOf leg s) \/
   issued (fetchLeg now leg from_ to_ s) = (nextCtrl s, leg) :: issued s).
Proof.
  unfold fetchLeg. destruct from_ as [f|], to_ as [t|]; try (repeat split; left; reflexivity).
  destruct (gated _ _ _ _); [repeat split; left; reflexivity|].
  unfold abortCurrent.
  destruct (abort (legOf leg s)); destruct leg; repeat split; right; reflexivity.
Qed.

Lemma flags_timer now leg s :
  settled (handle now (TimerFires leg) s) = settled s /\
  loading (legOf (other leg) (handle now (TimerFires leg) s)) =
    loading (legOf (other leg) s) /\
  (loading (legOf leg (handle now (TimerFires leg) s)) = loading (legOf leg s) \/
   issued (handle now (TimerFires leg) s) = (nextCtrl s, leg) :: issued s).
Proof.
  unfold handle, timerFires. destruct (timer (legOf leg s)) as [t|].
  - destruct (flags_fetchLeg now leg (tFrom t) (tTo t) (setTimer leg None s)) as (A & B & C).
    rewrite !legOf_setClock.
    change (settled (fetchLeg now leg (tFrom t) (tTo t) (setTimer leg None s)) = settled s /\
            loading (legOf (other leg) (fetchLeg now leg (tFrom t) (tTo t) (setTimer leg None s))) =
              loading (legOf (other leg) s) /\
            (loading (legOf leg (fetchLeg now leg (tFrom t) (tTo t) (setTimer leg None s))) =
               loading (legOf leg s) \/
             issued (fetchLeg now leg (tFrom t) (tTo t) (setTimer leg None s)) =
               (nextCtrl s, leg) :: issued s)).
    rewrite A, B. split; [destruct leg; reflexivity|]. split; [destruct leg; reflexivity|].
    destruct C as [C|C]; [left; rewrite C|right; rewrite C]; destruct leg; reflexivity.
  - repeat split; try left; destruct leg; reflexivity.
Qed.

Lemma flags_settle now c leg r s :
  settled (handle now (FetchSettles c leg r) s) = c :: settled s /\
  loading (legOf leg (handle now (FetchSettles c leg r) s)) = false /\
  loading (legOf (other leg) (handle now (FetchSettles c leg r) s)) =
    loading (legOf (other leg) s) /\
  book (handle now (FetchSettles c leg r) s) = book s.
Proof.
  split; [|split; [|split]].
  - unfold handle, fetchLegResume. cbn [setClock settled].
    destruct (awaited r) as [e|rt].
    + destruct (String.eqb (name e) "AbortError"); destruct leg; reflexivity.
    + destruct (abort (legOf leg (settle c s))) as [c'|]; [destruct (Nat.eqb c' c)|];
        destruct leg; reflexivity.
  - unfold handle, fetchLegResume. rewrite legOf_setClock. destruct leg; reflexivity.
  - unfold handle, fetchLegResume. rewrite legOf_setClock.
    destruct (awaited r) as [e|rt].
    + destruct (String.eqb (name e) "AbortError"); destruct leg; reflexivity.
    + destruct (abort (legOf leg (settle c s))) as [c'|]; [destruct (Nat.eqb c' c)|];
        destruct leg; reflexivity.
  - apply (book_other now (FetchSettles c leg r) s). reflexivity.
Qed.

Lemma flags_other now e s :
  match e with TimerFires _ | FetchSettles _ _ _ => False | _ => True end ->
  flags (handle now e s) = flags s.
Proof.
  intros T. v3_step e s; try contradiction; reflexivity.
Qed.

Lemma book_any now e s :
  book (handle now e s) = book s \/ e = ClickClear \/ exists leg, e = TimerFires leg.
Proof.
  destruct (touchesBook e) eqn:T.
  - destruct e; try discriminate; [right; left; reflexivity|right; right; eauto].
  - left. apply book_other, T.
Qed.

Lemma settled_step now e s c :
  In c (settled (handle now e s)) ->
  In c (settled s) \/ exists leg r, e = FetchSettles c leg r.
Proof.
  intros I.
  destruct e as [lat lon acc|msg|lat lng| | | | | | | |leg1|c1 leg1 r1];
    try (left; revert I;
         match goal with |- In _ (settled (handle now ?ev s)) -> _ =>
           rewrite (proj2 (proj2 (flags_eq _ _ (flags_other now ev s Logic.I))))
         end; trivial; fail).
  - left. revert I. destruct (flags_timer now leg1 s) as (-> & _). trivial.
  - revert I. destruct (flags_settle now c1 leg1 r1 s) as (-> & _).
    intros [<-|I]; [right; eauto|left; exact I].
Qed.

Lemma distinct_step now e s : enabled now e s -> distinct s -> distinct (handle now e s).
Proof.
  unfold distinct, controllers. intros [_ En] (N & F & A & S).
  assert (S' : forall c, In c (settled (handle now e s)) -> (c < nextCtrl s)%nat).
  { intros c I. apply settled_step in I. destruct I as [I|(leg & r & ->)]; [auto|].
    destruct En as (I & _). eapply A, I. }
  destruct (book_any now e s) as [B|[->|[leg ->]]].
  - apply book_eq in B. destruct B as (-> & _ & -> & _ & _ & ->). auto.
  - destruct (book_clear now s) as (-> & -> & -> & _). auto.
  - destruct (handle_timer now leg s)
      as [B|(t & f & g & _ & _ & _ & _ & E1 & _ & E3 & _ & _ & E6)].
    + apply book_eq in B. destruct B as (-> & _ & -> & _ & _ & ->). auto.
    + rewrite E1, E3, E6. cbn [map fst rev]. repeat split.
      * constructor; [|exact N]. intros I. apply in_map_iff in I.
        destruct I as ([c l] & Ec & I). simpl in Ec. subst c. apply A in I. lia.
      * rewrite map_app, F. reflexivity.
      * intros c l [[= <- <-]|I]; [lia|]. apply A in I. lia.
      * intros c I. apply S' in I. lia.
Qed.

Lemma distinct_reachable s : reachable s -> distinct s.
Proof.
  induction 1 as [now g|s now e _ IH En].
  - destruct g; repeat split; simpl; try constructor; contradiction.
  - apply distinct_step; assumption.
Qed.

Lemma distinct_leg s c l l' :
  distinct s -> In (c, l) (issued s) -> In (c, l') (issued s) -> l = l'.
Proof.
  intros (N & _). revert N. induction (issued s) as [|[c0 l0] rest IH]; [contradiction|].
  cbn [map fst]. intros N I I'. inversion N as [|? ? N1 N2]; subst.
  destruct I as [E|I], I' as [E'|I'].
  - congruence.
  - injection E as -> ->. exfalso. apply N1. apply in_map_iff. exists (c, l'). auto.
  - injection E' as -> ->. exfalso. apply N1. apply in_map_iff. exists (c, l). auto.
  - auto.
Qed.

Lemma other_neq leg : other leg <> leg.
Proof. destruct leg; discriminate. Qed.

Lemma other_cases leg l : l = leg \/ l = other leg.
Proof. destruct leg, l; auto. Qed.

Lemma loadingPending_step now e s :
  enabled now e s -> distinct s -> loadingPending s -> loadingPending (handle now e s).
Proof.
  unfold loadingPending, pending. intros En D L l Hl.
  destruct e as [lat lon acc|msg|lat lng| | | | | | | |leg1|c1 leg1 r1];
    try (match type of Hl with loading (legOf l (handle now ?ev s)) = _ =>
           pose proof (flags_other now ev s Logic.I) as F
         end;
         match type of F with flags (handle now ?ev s) = _ =>
           destruct (book_any now ev s) as [B|[E|[? E]]]; try discriminate E;
           first [apply book_eq in B; destruct B as (-> & _)
                 |destruct (book_clear now s) as (-> & _)]
         end;
         apply flags_eq in F; destruct F as (FD & FU & ->);
         apply L; destruct l; cbn [legOf] in *; congruence).
  - destruct (flags_timer now leg1 s) as (-> & Eo & El).
    destruct (handle_timer now leg1 s)
      as [B|(t & f & g & _ & _ & _ & _ & E1 & _)].
    + apply book_eq in B. destruct B as (EI & _). rewrite EI.
      destruct El as [El|El]; [|rewrite EI in El; exfalso;
        apply (f_equal (@List.length _)) in El; simpl in El; lia].
      apply L. destruct (other_cases leg1 l) as [->| ->]; congruence.
    + rewrite E1. destruct (other_cases leg1 l) as [->| ->].
      * exists (nextCtrl s). split; [left; reflexivity|].
        intros I. destruct D as (_ & _ & _ & S). apply S in I. lia.
      * rewrite Eo in Hl. destruct (L _ Hl) as (c & I & N). exists c. split; [right; exact I|exact N].
  - destruct (flags_settle now c1 leg1 r1 s) as (-> & Ef & Eo & B).
    apply book_eq in B. destruct B as (-> & _).
    destruct (other_cases leg1 l) as [->| ->]; [congruence|].
    rewrite Eo in Hl. destruct (L _ Hl) as (c & I & N). exists c. split; [exact I|].
    intros [<-|I']; [|contradiction].
    destruct En as (_ & I1 & _).
    apply (other_neq leg1). eapply distinct_leg; eauto.
Qed.

Lemma loadingPending_reachable s : reachable s -> loadingPending s.
Proof.
  induction 1 as [now g|s now e R IH En].
  - intros l. destruct g, l; discriminate.
  - apply loadingPending_step; [assumption|apply distinct_reachable; assumption|assumption].
Qed.

Lemma route_other now e s l :
  match e with ClickClear | TimerFires _ | FetchSettles _ _ _ => False | _ => True end ->
  route (legOf l (handle now e s)) = route (legOf l s).
Proof.
  intros T. v3_step e s; try contradiction; destruct l; reflexivity.
Qed.

Lemma route_step now e s l :
  route (legOf l (handle now e s)) <> route (legOf l s) ->
  e = ClickClear \/
  exists c r rt, e = FetchSettles c l r /\ awaited r = inr rt /\ abort (legOf l s) = Some c.
Proof.
  intros N.
  destruct e as [lat lon acc|msg|lat lng| | | | | | | |leg1|c1 leg1 r1];
    try (exfalso; apply N; apply route_other; exact I).
  - left. reflexivity.
  - exfalso. apply N. destruct (timer_frame now leg1 s) as (_ & _ & E).
    apply (routeState_inv _ _ _ (E l)).
  - right. unfold handle in N. rewrite legOf_setClock in N.
    assert (M : routeState l (fetchLegResume leg1 c1 r1 (settle c1 s)) <>
                routeState l (settle c1 s)).
    { intros E. apply N. apply routeState_inv in E. destruct E as (E & _).
      rewrite E. destruct l; reflexivity. }
    destruct (other_cases leg1 l) as [-> | ->];
      [|exfalso; apply M, resume_other_leg].
    destruct (awaited r1) as [e|rt] eqn:Er;
      [exfalso; apply M; eapply resume_failure, Er|].
    exists c1, r1, rt. repeat split; [exact Er|].
    destruct (abort (legOf leg1 s)) as [c'|] eqn:Ea.
    + destruct (Nat.eq_dec c' c1) as [->|D]; [reflexivity|].
      exfalso. apply M, resume_stale. rewrite legOf_settle, Ea. congruence.
    + exfalso. apply M, resume_stale. rewrite legOf_settle, Ea. discriminate.
Qed.

Lemma top_other now e s :
  match e with
  | GpsFix _ _ _ | MapClick _ _ | ClickClear | MapDragStart | MapZoomStart | MapMoveEnd
  | ClickSetDriver | ClickSetDestination | ClickFollow => False
  | _ => True
  end ->
  top (handle now e s) = top s.
Proof.
  destruct e; try contradiction; intros _.
  - reflexivity.
  - apply timer_frame.
  - apply top_after_settle.
Qed.

Lemma follow_step now e s :
  follow (handle now e s) =
  match e with
  | MapDragStart | MapZoomStart => false
  | ClickFollow | ClickClear => true
  | _ => follow s
  end.
Proof.
  destruct e as [lat lon acc|msg|lat lng| | | | | | | |leg1|c1 leg1 r1].
  - unfold handle, onGpsFix. rewrite fallbackUD_eq, fallbackDU_eq. reflexivity.
  - reflexivity.
  - unfold handle, onMapClick, onSet.
    destruct (tapMode s) as [[|]|]; [destruct (moved s)..|];
      rewrite ?fallbackUD_eq, ?fallbackDU_eq; reflexivity.
  - reflexivity.
  - reflexivity.
  - reflexivity.
  - unfold handle, toggleTap. destruct (tapMode s) as [[|]|]; reflexivity.
  - unfold handle, toggleTap. destruct (tapMode s) as [[|]|]; reflexivity.
  - reflexivity.
  - apply clear_resets.
  - destruct (timer_frame now leg1 s) as (E & _). unfold top in E. congruence.
  - pose proof (top_after_settle now c1 leg1 r1 s) as E. unfold top in E. congruence.
Qed.

Lemma points_step now e s :
  position (handle now e s) =
    match e with
    | GpsFix lat lon _ => Some (roundGPS (lat, lon))
    | _ => position s
    end /\
  (position s = None -> driver s = None -> dest s = None ->
   match e with
   | GpsFix _ _ _ | GpsError _ | TimerFires _ | FetchSettles _ _ _ => True
   | _ => False
   end ->
   driver (handle now e s) = None /\ dest (handle now e s) = None).
Proof.
  destruct e as [lat lon acc|msg|lat lng| | | | | | | |leg1|c1 leg1 r1].
  - unfold handle, onGpsFix. rewrite fallbackUD_eq, fallbackDU_eq. split; [reflexivity|].
    intros _ D1 D2 _. split; [exact D1|exact D2].
  - split; [reflexivity|]. intros _ D1 D2 _. split; [exact D1|exact D2].
  - split; [|intros _ _ _ []]. unfold handle, onMapClick, onSet.
    destruct (tapMode s) as [[|]|]; [destruct (moved s)..|];
      rewrite ?fallbackUD_eq, ?fallbackDU_eq; reflexivity.
  - split; [reflexivity|intros _ _ _ []].
  - split; [reflexivity|intros _ _ _ []].
  - split; [reflexivity|intros _ _ _ []].
  - split; [|intros _ _ _ []].
    unfold handle, toggleTap. destruct (tapMode s) as [[|]|]; reflexivity.
  - split; [|intros _ _ _ []].
    unfold handle, toggleTap. destruct (tapMode s) as [[|]|]; reflexivity.
  - split; [reflexivity|intros _ _ _ []].
  - split; [apply clear_resets|intros _ _ _ []].
  - destruct (timer_frame now leg1 s) as (E & _). apply top_eq in E.
    destruct E as (-> & _ & -> & ->). split; [reflexivity|].
    intros _ D1 D2 _. split; [exact D1|exact D2].
  - pose proof (top_after_settle now c1 leg1 r1 s) as E. apply top_eq in E.
    destruct E as (-> & _ & -> & ->). split; [reflexivity|].
    intros _ D1 D2 _. split; [exact D1|exact D2].
Qed.

End V3Requests.

(** X5. In the third version [fetchLeg], called with two valid points,
    sends no request exactly when less than 5000 ms have passed since the
    last request of the leg and both points are less than 30 m from the
    points of that request; in every other case, in particular for the
    first request of a leg and for the first after Clear, it sends the
    request for the two points. *)
Theorem request_skipped_iff_gated `{JsNumber}
  (now : Z) (leg : V3.Leg) (f t : LatLng) (s : V3.State) :
  (V3.fetched (V3.fetchLeg now leg (Some f) (Some t) s) = V3.fetched s <->
   (now - V3.ts (V3.last (V3.legOf leg s)) < 5000)%Z /\
   exists pf pt,
     V3.from (V3.last (V3.legOf leg s)) = Some pf /\
     V3.to (V3.last (V3.legOf leg s)) = Some pt /\
     distanceMeters pf f < 30 /\ distanceMeters pt t < 30) /\
  (V3.fetched (V3.fetchLeg now leg (Some f) (Some t) s) <> V3.fetched s ->
   V3.fetched (V3.fetchLeg now leg (Some f) (Some t) s) =
     (V3.fetched s ++ [{| V3.url := V3.routeUrl f t; V3.signal := V3.nextCtrl s |}])%list /\
   V3.last (V3.legOf leg (V3.fetchLeg now leg (Some f) (Some t) s)) =
     {| V3.from := Some f; V3.to := Some t; V3.ts := now |}) /\
  (V3.last (V3.legOf leg s) = V3.emptyRec ->
   V3.fetched (V3.fetchLeg now leg (Some f) (Some t) s) <> V3.fetched s).
Proof.
  assert (G : V3.gated now (V3.last (V3.legOf leg s)) f t = true ->
              V3.fetched (V3.fetchLeg now leg (Some f) (Some t) s) = V3.fetched s).
  { intros G. rewrite fetchLeg_skips; [reflexivity|exact G]. }
  assert (N : V3.gated now (V3.last (V3.legOf leg s)) f t = false ->
              V3.fetched (V3.fetchLeg now leg (Some f) (Some t) s) <> V3.fetched s).
  { intros G' E. destruct (fetchLeg_issues now leg f t s G') as (_ & _ & _ & _ & _ & Ef & _).
    rewrite Ef in E. apply (f_equal (@List.length _)) in E.
    rewrite length_app in E. simpl in E. lia. }
  split; [|split].
  - rewrite <- (gated_iff now (V3.last (V3.legOf leg s)) f t). split; [|exact G].
    intros E. destruct (V3.gated now (V3.last (V3.legOf leg s)) f t) eqn:G'; [reflexivity|].
    exfalso. exact (N eq_refl E).
  - intros D. destruct (V3.gated now (V3.last (V3.legOf leg s)) f t) eqn:G';
      [exfalso; exact (D (G eq_refl))|].
    destruct (fetchLeg_issues now leg f t s G') as (_ & _ & _ & _ & _ & Ef & El & _).
    split; assumption.
  - intros E. apply N. unfold V3.gated, V3.distChange. rewrite E. simpl.
    apply andb_false_r.
Qed.

(** X6. In the third version every request has an [AbortController] of
    its own, [fetch] is called once for each request with the signal of
    its controller, in the order of the requests, and at most one request
    of a leg has not been aborted. *)
Theorem requests_have_own_controllers `{JsNumber} (s : V3.State) :
  V3.reachable s ->
  NoDup (V3Req.controllers s) /\
  map V3.signal (V3.fetched s) = V3Req.controllers s /\
  (forall leg c c',
     In (c, leg) (V3.issued s) -> In (c', leg) (V3.issued s) ->
     ~ In c (V3.aborted s) -> ~ In c' (V3.aborted s) -> c = c').
Proof.
  intros R. destruct (distinct_reachable s R) as (N & F & _).
  split; [|split].
  - unfold V3Req.controllers. apply NoDup_rev, N.
  - exact F.
  - intros leg c c' I I' A A'.
    destruct (superseded_reachable s R c leg I) as [E|]; [|contradiction].
    destruct (superseded_reachable s R c' leg I') as [E'|]; [|contradiction].
    congruence.
Qed.

(** X7. In the third version a leg is shown as loading only while one of
    its requests is pending; and every request of the leg that settles,
    the latest or not, resets the loading flag of the leg. *)
Theorem loading_only_while_pending `{JsNumber} :
  (forall s, V3.reachable s ->
     forall leg, V3.loading (V3.legOf leg s) = true ->
       exists c, In (c, leg) (V3.issued s) /\ ~ In c (V3.settled s)) /\
  (forall now c leg r s,
     V3.loading (V3.legOf leg (V3.handle now (V3.FetchSettles c leg r) s)) = false).
Proof.
  split.
  - intros s R leg L. exact (loadingPending_reachable s R leg L).
  - intros now c leg r s. apply flags_settle.
Qed.

(** X8. In the third version a polyline changes only when Clear is pressed
    or when the route of the latest request of its leg arrives: no GPS
    fix, tap, timer or failed or superseded response changes or empties
    it. *)
Theorem polyline_kept_until_route_or_clear `{JsNumber}
  (now : Z) (e : V3.Event) (s : V3.State) (l : V3.Leg) :
  V3.route (V3.legOf l (V3.handle now e s)) <> V3.route (V3.legOf l s) ->
  e = V3.ClickClear \/
  exists c r rt,
    e = V3.FetchSettles c l r /\ awaited r = inr rt /\ V3.abort (V3.legOf l s) = Some c.
Proof. apply route_step. Qed.

(** X9. In the third version a click on the map sets a point only while a
    tap mode is armed and the map is not being dragged or zoomed; it then
    sets the point of that mode to the clicked place, leaves the other
    point, the position and the polylines as they are, and disarms the
    tap mode. *)
Theorem map_click_sets_armed_point `{JsNumber} (now : Z) (lat lng : R) (s : V3.State) :
  (V3.tapMode s = None \/ V3.moved s = true ->
   V3.handle now (V3.MapClick lat lng) s = V3.setClock now s) /\
  (V3.moved s = false -> V3.tapMode s = Some V3.TapDriver ->
   V3.driver (V3.handle now (V3.MapClick lat lng) s) = Some (lat, lng) /\
   V3.dest (V3.handle now (V3.MapClick lat lng) s) = V3.dest s) /\
  (V3.moved s = false -> V3.tapMode s = Some V3.TapDest ->
   V3.dest (V3.handle now (V3.MapClick lat lng) s) = Some (lat, lng) /\
   V3.driver (V3.handle now (V3.MapClick lat lng) s) = V3.driver s) /\
  (V3.moved s = false -> V3.tapMode s <> None ->
   V3.tapMode (V3.handle now (V3.MapClick lat lng) s) = None /\
   V3.position (V3.handle now (V3.MapClick lat lng) s) = V3.position s /\
   V3.routeDU (V3.handle now (V3.MapClick lat lng) s) = V3.routeDU s /\
   V3.routeUD (V3.handle now (V3.MapClick lat lng) s) = V3.routeUD s).
Proof.
  unfold V3.handle, V3.onMapClick, V3.onSet.
  split; [|split; [|split]].
  - intros [-> | ->]; [reflexivity|]. destruct (V3.tapMode s); reflexivity.
  - intros -> ->. rewrite fallbackDU_eq. split; reflexivity.
  - intros -> ->. rewrite fallbackUD_eq. split; reflexivity.
  - intros -> N. destruct (V3.tapMode s) as [[|]|]; [| |contradiction].
    + rewrite fallbackDU_eq. repeat split.
    + rewrite fallbackUD_eq. repeat split.
Qed.

(** X10. In the third version the view is fitted to the bounds only in
    follow mode and while the user is not moving the map; a drag or a zoom
    ends follow mode, after which no step fits the view again until Follow
    or Clear is pressed, and nothing else ends follow mode. *)
Theorem auto_fit_only_while_following `{JsNumber} :
  (forall s u b,
     V3Map.viewportEffect s u = Some b ->
     V3.follow s = true /\ u = false /\ V3Map.bounds s = Some b) /\
  (forall now s u,
     V3Map.viewportEffect (V3.handle now V3.MapDragStart s) u = None /\
     V3Map.viewportEffect (V3.handle now V3.MapZoomStart s) u = None) /\
  (forall now e s u,
     V3.follow s = false -> e <> V3.ClickFollow -> e <> V3.ClickClear ->
     V3Map.viewportEffect (V3.handle now e s) u = None) /\
  (forall now e s,
     V3.follow s = true -> e <> V3.MapDragStart -> e <> V3.MapZoomStart ->
     V3.follow (V3.handle now e s) = true).
Proof.
  assert (F : forall s u, V3.follow s = false -> V3Map.viewportEffect s u = None).
  { intros s u E. unfold V3Map.viewportEffect. rewrite E.
    destruct (V3Map.bounds s); reflexivity. }
  split; [|split; [|split]].
  - intros s u b. unfold V3Map.viewportEffect.
    destruct (V3Map.bounds s) as [b'|]; [|discriminate].
    destruct (V3.follow s), u; simpl; try discriminate. intros [= ->]. repeat split.
  - intros now s u. split; apply F; rewrite follow_step; reflexivity.
  - intros now e s u E N1 N2. apply F. rewrite follow_step.
    destruct e; try exact E; try reflexivity; contradiction.
  - intros now e s E N1 N2. rewrite follow_step.
    destruct e; try exact E; try reflexivity; contradiction.
Qed.

(** X11. In the third version the total ETA is shown exactly when a leg
    has an ETA, and it is then the sum of the ETAs of the legs that have
    one. *)
Theorem total_eta_is_sum `{JsNumber} (s : V3.State) :
  V3.reachable s ->
  (V3.totalMin s = None <-> V3.minDU s = None /\ V3.minUD s = None) /\
  (forall a b, V3.minDU s = Some a -> V3.minUD s = Some b -> V3.totalMin s = Some (a + b)%Z) /\
  (forall a, V3.minDU s = Some a -> V3.minUD s = None -> V3.totalMin s = Some a) /\
  (forall b, V3.minDU s = None -> V3.minUD s = Some b -> V3.totalMin s = Some b).
Proof.
  intros R. destruct (etas_reachable s R) as [ED EU]. unfold V3.totalMin.
  destruct (V3.minDU s) as [a|], (V3.minUD s) as [b|]; simpl in ED, EU.
  - assert (L : (0 <? a + b)%Z = true) by (apply Z.ltb_lt; lia). rewrite L.
    repeat split; try discriminate; try (intros [? ?]; discriminate).
    intros a' b' [= <-] [= <-]. reflexivity.
  - assert (L : (0 <? a + 0)%Z = true) by (apply Z.ltb_lt; lia). rewrite L.
    repeat split; try discriminate; try (intros [? ?]; discriminate).
    intros a' [= <-] _. f_equal. lia.
  - assert (L : (0 <? 0 + b)%Z = true) by (apply Z.ltb_lt; lia). rewrite L.
    repeat split; try discriminate; try (intros [? ?]; discriminate).
    intros b' _ [= <-]. reflexivity.
  - simpl. repeat split; discriminate.
Qed.

(** X12. In the third version the position changes only by a GPS fix, to
    the fix rounded by [roundGPS]; it is never unset again, and while it
    is unknown neither the driver nor the destination can be set. *)
Theorem position_only_from_gps `{JsNumber} :
  (forall now e s,
     V3.position (V3.handle now e s) <> V3.position s ->
     exists lat lon acc,
       e = V3.GpsFix lat lon acc /\
       V3.position (V3.handle now e s) = Some (roundGPS (lat, lon))) /\
  (forall now e s, V3.position s <> None -> V3.position (V3.handle now e s) <> None) /\
  (forall s, V3.reachable s ->
     (forall p, V3.position s = Some p -> exists lat lon, p = roundGPS (lat, lon)) /\
     (V3.position s = None -> V3.driver s = None /\ V3.dest s = None)).
Proof.
  split; [|split].
  - intros now e s N. destruct (points_step now e s) as (E & _).
    destruct e; try (exfalso; apply N; exact E). eauto.
  - intros now e s N. destruct (points_step now e s) as (-> & _).
    destruct e; try exact N. discriminate.
  - induction 1 as [now g|s now e R [IH1 IH2] [_ En]].
    + split; [destruct g; discriminate|destruct g; split; reflexivity].
    + destruct (points_step now e s) as (E & D). split.
      * intros p. rewrite E.
        destruct e as [lat lon acc|msg|lat lng| | | | | | | |leg1|c1 leg1 r1];
          try apply IH1.
        intros [= <-]. exists lat, lon. reflexivity.
      * rewrite E. intros P.
        destruct e; try discriminate P; destruct (IH2 P) as (D1 & D2);
          try (apply D; [exact P|exact D1|exact D2|exact I]);
          exfalso; try (apply En; exact P); destruct En as [En _]; apply En; exact P.
Qed.

(** ** The viewport *)

Lemma pushPoint_in v p : In p (pushPoint v) <-> v = Some p.
Proof.
  destruct v as [q|]; simpl; split; try contradiction; try discriminate.
  - intros [->|[]]. reflexivity.
  - intros [= ->]. left. reflexivity.
Qed.

Lemma multiLegBounds_spec rDU rUD driver position dest :
  (forall b, multiLegBounds rDU rUD driver position dest = Some b -> b <> []) /\
  (position <> None -> multiLegBounds rDU rUD driver position dest <> None) /\
  ((rDU ++ rUD)%list <> [] ->
   multiLegBounds rDU rUD driver position dest = Some (rDU ++ rUD)%list) /\
  (rDU = [] -> rUD = [] ->
   forall b, multiLegBounds rDU rUD driver position dest = Some b ->
     b = (pushPoint driver ++ pushPoint position ++ pushPoint dest)%list) /\
  (multiLegBounds rDU rUD driver position dest = None <->
   rDU = [] /\ rUD = [] /\ driver = None /\ position = None /\ dest = None).
Proof.
  unfold multiLegBounds.
  destruct (rDU ++ rUD)%list as [|x r] eqn:E.
  - apply app_eq_nil in E. destruct E as [-> ->].
    destruct driver, position, dest; simpl;
      repeat split; try discriminate; try congruence;
      try (intros; intuition congruence).
  - repeat split; try discriminate; try congruence.
    + intros -> ->. discriminate.
    + intros (-> & -> & _). discriminate.
Qed.

(** X13. In both versions with two legs the bounds the map is fitted to
    are never empty and exist whenever the position is known; while a
    polyline is shown they are the points of the polylines alone, and
    otherwise the driver, the position and the destination that are set. *)
Theorem bounds_follow_routes_or_markers (s : V3.State) (s1 : V1.State) :
  ((forall b, V3Map.bounds s = Some b -> b <> []) /\
   (V3.position s <> None -> V3Map.bounds s <> None) /\
   ((V3.routeDU s ++ V3.routeUD s)%list <> [] ->
    V3Map.bounds s = Some (V3.routeDU s ++ V3.routeUD s)%list) /\
   (V3.routeDU s = [] -> V3.routeUD s = [] ->
    forall b, V3Map.bounds s = Some b ->
      b = (pushPoint (V3.driver s) ++ pushPoint (V3.position s) ++ pushPoint (V3.dest s))%list)) /\
  ((forall b, V1Map.bounds s1 = Some b -> b <> []) /\
   (V1.position s1 <> None -> V1Map.bounds s1 <> None) /\
   ((V1.routeDU s1 ++ V1.routeUD s1)%list <> [] ->
    V1Map.bounds s1 = Some (V1.routeDU s1 ++ V1.routeUD s1)%list) /\
   (V1.routeDU s1 = [] -> V1.routeUD s1 = [] ->
    forall b, V1Map.bounds s1 = Some b ->
      b = (pushPoint (V1.driver s1) ++ pushPoint (V1.position s1) ++ pushPoint (V1.dest s1))%list)).
Proof.
  split.
  - destruct (multiLegBounds_spec (V3.routeDU s) (V3.routeUD s) (V3.driver s)
                (V3.position s) (V3.dest s)) as (A & B & C & D & _).
    repeat split; assumption.
  - destruct (multiLegBounds_spec (V1.routeDU s1) (V1.routeUD s1) (V1.driver s1)
                (V1.position s1) (V1.dest s1)) as (A & B & C & D & _).
    repeat split; assumption.
Qed.

(** X14. In the version with vias the bounds the map is fitted to are the
    points of the route while there is one, and otherwise the position,
    the vias in their order and the destination, each if it is set; they
    are null only when there is none of these, and exist whenever the
    position is known. *)
Theorem vias_bounds_follow_route_or_chain (s : Vias.State) :
  (Vias.routeCoords s <> [] -> ViasMap.bounds s = Some (Vias.routeCoords s)) /\
  (Vias.routeCoords s = [] ->
   (pushPoint (Vias.position s) ++ Vias.vias s ++ pushPoint (Vias.dest s))%list <> [] ->
   ViasMap.bounds s =
     Some (pushPoint (Vias.position s) ++ Vias.vias s ++ pushPoint (Vias.dest s))%list) /\
  (ViasMap.bounds s = None <->
   Vias.routeCoords s = [] /\ Vias.position s = None /\ Vias.vias s = [] /\
   Vias.dest s = None) /\
  (Vias.position s <> None -> ViasMap.bounds s <> None) /\
  (forall b, ViasMap.bounds s = Some b -> b <> []).
Proof.
  unfold ViasMap.bounds. destruct (Vias.routeCoords s) as [|x r].
  - split; [congruence|]. split.
    { intros _ N.
      destruct (pushPoint (Vias.position s) ++ Vias.vias s ++ pushPoint (Vias.dest s))%list;
        [contradiction|reflexivity]. }
    split.
    { destruct (Vias.position s) as [p|]; simpl.
      - split; [discriminate|]. intros (_ & E & _). discriminate.
      - destruct (Vias.vias s) as [|v l]; simpl.
        + destruct (Vias.dest s) as [d|]; simpl.
          * split; [discriminate|]. intros (_ & _ & _ & E). discriminate.
          * split; auto.
        + split; [discriminate|]. intros (_ & _ & E & _). discriminate. }
    split.
    + destruct (Vias.position s); [discriminate|congruence].
    + intros b. destruct (pushPoint _ ++ _ ++ _)%list; [discriminate|].
      intros [= <-]. discriminate.
  - split; [reflexivity|]. split; [discriminate|]. split.
    { split; [discriminate|]. intros (E & _). discriminate. }
    split; [discriminate|]. intros b [= <-]. discriminate.
Qed.

(** X15. [RecenterOnce] centres the map at most once: over any sequence of
    positions it calls [setView] for the first position that is set, with
    zoom 16, and never again. *)
Theorem recenter_at_most_once (positions : list Point) :
  (List.length (recenterRun positions false) <= 1)%nat /\
  recenterRun positions true = [] /\
  (forall before p after,
     positions = (before ++ Some p :: after)%list ->
     Forall (fun v => v = None) before ->
     recenterRun positions false = [(p, 16%Z)]) /\
  (Forall (fun v => v = None) positions -> recenterRun positions false = []).
Proof.
  assert (T : forall l, recenterRun l true = []).
  { induction l as [|[q|] l IH]; simpl; auto. }
  assert (N : forall l, Forall (fun v => v = None) l -> recenterRun l false = []).
  { induction 1 as [|v l -> _ IH]; simpl; auto. }
  split; [|split; [apply T|split; [|apply N]]].
  - induction positions as [|[q|] l IH]; simpl; [lia| |exact IH].
    rewrite T. simpl. lia.
  - intros before p after -> F. induction F as [|v l -> _ IH]; simpl.
    + rewrite T. reflexivity.
    + exact IH.
Qed.

(** ** The version with vias: the requests, the avoid options, the vias *)

Section ViasRequests.
Context `{JsNumber}.
Import Vias ViasInv ViasReq.

Lemma buildRouteUrl_inputs x y : urlInputs x = urlInputs y -> buildRouteUrl x = buildRouteUrl y.
Proof.
  unfold urlInputs, buildRouteUrl. intros [= -> -> -> -> -> ->]. reflexivity.
Qed.

Lemma fallback_inputs s : urlInputs (fallback s) = urlInputs s.
Proof. unfold fallback. destruct (position s), (dest s); reflexivity. Qed.

Lemma cleanup_inputs s : urlInputs (cleanup s) = urlInputs s.
Proof. unfold cleanup. destruct (live s); reflexivity. Qed.

Lemma fetchEffect_inputs now s : urlInputs (fetchEffect now s) = urlInputs s.
Proof.
  unfold fetchEffect. destruct (buildRouteUrl (cleanup s)); [|apply cleanup_inputs].
  rewrite <- (cleanup_inputs s). reflexivity.
Qed.

Lemma fallback_world s : live (fallback s) = live s /\ nextRun (fallback s) = nextRun s.
Proof. unfold fallback. destruct (position s), (dest s); split; reflexivity. Qed.

(** The fetch effect leaves a timer only for the URL of its inputs. *)
Lemma fetchEffect_fresh now x : runs0 x -> fresh (fetchEffect now x).
Proof.
  intros J. destruct (cleanup_runs x J) as (Ct & Cl & _).
  unfold fresh. rewrite (buildRouteUrl_inputs _ _ (fetchEffect_inputs now x)).
  rewrite <- (buildRouteUrl_inputs _ _ (cleanup_inputs x)).
  unfold fetchEffect. destruct (buildRouteUrl (cleanup x)) as [u|] eqn:Eu.
  - split.
    + simpl. intros t [= <-]. reflexivity.
    + simpl. intros run [= <-]. reflexivity.
  - rewrite Ct, Cl. split; discriminate.
Qed.

Lemma effects_fresh now x : runs0 x -> fresh (effects now x).
Proof. intros J. apply fetchEffect_fresh, fallback_runs0, J. Qed.

Lemma fresh_step now e s : enabled now e s -> runs s -> fresh s -> fresh (handle now e s).
Proof.
  intros [_ En] [J K] [F1 F2]. pose proof J as (J1 & J2 & J3).
  unfold handle.
  assert (C : forall x, fresh x -> fresh (setClock now x)) by (intros x X; exact X).
  apply C.
  destruct e as [lat lon acc|msg|shiftKey lat lng|i lat lng| | | | | | |run r].
  - apply effects_fresh. exact J.
  - split; assumption.
  - apply effects_fresh. unfold click, onAddVia, onSetDest.
    destruct shiftKey; repeat split; simpl; try assumption; discriminate.
  - apply effects_fresh. exact J.
  - apply fetchEffect_fresh. exact J.
  - apply fetchEffect_fresh. exact J.
  - apply fetchEffect_fresh. exact J.
  - apply effects_fresh. exact J.
  - apply effects_fresh. repeat split; simpl; auto.
  - unfold timerFires. destruct (timer s) as [t|] eqn:Et.
    + split; [discriminate|exact F2].
    + split; [rewrite Et; discriminate|exact F2].
  - unfold fetchResume.
    destruct (existsb (Nat.eqb run) (canceled (settle run s))); destruct (awaited r);
      split; assumption.
Qed.

Lemma fresh_reachable s : reachable s -> fresh s.
Proof.
  induction 1 as [now g|s now e R IH En].
  - unfold mounted. apply effects_fresh.
    destruct g; repeat split; simpl; auto; try contradiction; discriminate.
  - apply fresh_step; [assumption|apply runs_reachable; assumption|assumption].
Qed.

(** *** The loading flag *)

Lemma fetchEffect_loading now x : dest x = None -> loading (fetchEffect now x) = loading x.
Proof.
  intros D. unfold fetchEffect.
  rewrite (buildRouteUrl_inputs _ _ (cleanup_inputs x)), (buildRouteUrl_none x D).
  unfold cleanup. destruct (live x); reflexivity.
Qed.

Lemma fallback_loading x : loading (fallback x) = loading x.
Proof. unfold fallback. destruct (position x), (dest x); reflexivity. Qed.

Lemma effects_loading now x : dest x = None -> loading (effects now x) = loading x.
Proof.
  intros D. unfold effects. rewrite fetchEffect_loading, fallback_loading; [reflexivity|].
  destruct (fallback_frame x) as (_ & _ & _ & _ & _ & -> & _). exact D.
Qed.

Lemma effects_dest now x : dest (effects now x) = dest x.
Proof.
  unfold effects. destruct (fetchEffect_frame now (fallback x)) as (_ & _ & -> & _).
  apply fallback_frame.
Qed.

Lemma loading_setClock now x : loading (setClock now x) = loading x.
Proof. reflexivity. Qed.

Lemma dest_setClock now x : dest (setClock now x) = dest x.
Proof. reflexivity. Qed.

Lemma loading_without_dest now e s :
  runs s -> enabled now e s -> dest s = None -> dest (handle now e s) = None ->
  loading (handle now e s) = loading s.
Proof.
  intros [(J1 & J2 & J3) K] [_ En] D.
  assert (E : forall x, dest x = None -> loading x = loading s ->
                loading (effects now x) = loading s).
  { intros x Dx Lx. rewrite <- Lx. apply effects_loading, Dx. }
  assert (F : forall x, dest x = None -> loading x = loading s ->
                loading (fetchEffect now x) = loading s).
  { intros x Dx Lx. rewrite <- Lx. apply fetchEffect_loading, Dx. }
  destruct e as [lat lon acc|msg|shiftKey lat lng|i lat lng| | | | | | |run r];
    unfold handle; rewrite loading_setClock, dest_setClock; intros D'.
  - apply E; [exact D|reflexivity].
  - reflexivity.
  - unfold onMapClick in *. rewrite effects_dest in D'.
    apply E; [exact D'|destruct shiftKey; reflexivity].
  - apply E; [exact D|reflexivity].
  - apply F; [exact D|reflexivity].
  - apply F; [exact D|reflexivity].
  - apply F; [exact D|reflexivity].
  - apply E; [exact D|reflexivity].
  - apply E; reflexivity.
  - unfold timerFires. destruct (timer s); reflexivity.
  - rewrite vias_resume_canceled; [reflexivity|].
    apply existsb_exists. exists run. split; [|apply Nat.eqb_refl].
    destruct (J1 run En) as [L|I]; [|exact I].
    rewrite (K D) in L. discriminate.
Qed.

Lemma clear_loading now s : loading (handle now ClickClear s) = loading s.
Proof.
  unfold handle, onClear. rewrite loading_setClock.
  rewrite effects_loading; reflexivity.
Qed.

(** *** Responses *)

Lemma resume_shown now run r s :
  runs s -> fresh s -> enabled now (FetchSettles run r) s ->
  shown (handle now (FetchSettles run r) s) <> shown s ->
  live s = Some run /\ nextRun s = S run /\ ~ In run (canceled s).
Proof.
  intros [(J1 & _) _] [_ F2] [_ En] N.
  destruct (existsb (Nat.eqb run) (canceled s)) eqn:Ec.
  - exfalso. apply N. unfold handle. rewrite vias_resume_canceled; [reflexivity|exact Ec].
  - assert (C : ~ In run (canceled s)).
    { intros I. assert (X : existsb (Nat.eqb run) (canceled s) = true)
        by (apply existsb_exists; exists run; split; [exact I|apply Nat.eqb_refl]).
      congruence. }
    destruct (J1 run En) as [L|I]; [|contradiction].
    repeat split; auto.
Qed.

(** *** The route URL *)

Lemma append_assoc (a b c : string) : (a ++ b) ++ c = a ++ b ++ c.
Proof. induction a as [|x a IH]; simpl; [reflexivity|rewrite IH; reflexivity]. Qed.

Lemma exclude_tail (x c : string) (m f t : bool) :
  endsWith
    (x ++ c ++
     "?overview=full&geometries=geojson&steps=false&alternatives=false&continue_straight=true" ++
     (if String.eqb
           (join ","
              ((if m then ["motorway"] else []) ++ (if f then ["ferry"] else []) ++
               (if t then ["toll"] else []))%list) ""
      then ""
      else "&exclude=" ++
           encodeURIComponent
             (join ","
                ((if m then ["motorway"] else []) ++ (if f then ["ferry"] else []) ++
                 (if t then ["toll"] else []))%list)))
    ("&continue_straight=true" ++
     match ((if m then ["motorway"] else []) ++ (if f then ["ferry"] else []) ++
            (if t then ["toll"] else []))%list with
     | [] => ""
     | _ => "&exclude=" ++
            join "%2C"
              ((if m then ["motorway"] else []) ++ (if f then ["ferry"] else []) ++
               (if t then ["toll"] else []))%list
     end).
Proof.
  exists (x ++ c ++ "?overview=full&geometries=geojson&steps=false&alternatives=false").
  rewrite !append_assoc. f_equal. f_equal.
  destruct m, f, t; reflexivity.
Qed.

Lemma some_eq (A : Type) (a b : A) : Some a = Some b -> a = b.
Proof. congruence. Qed.

Lemma buildRouteUrl_exclude s u :
  buildRouteUrl s = Some u ->
  endsWith u
    ("&continue_straight=true" ++
     match avoided s with
     | [] => ""
     | _ => "&exclude=" ++ join "%2C" (avoided s)
     end).
Proof.
  unfold buildRouteUrl, avoided.
  destruct (position s) as [p|], (dest s) as [d|]; try discriminate.
  intros E. apply some_eq in E. rewrite <- E. apply exclude_tail.
Qed.

(** *** Dragging a via *)

Lemma replaceAt_length i v l : List.length (replaceAt i v l) = List.length l.
Proof.
  revert i. induction l as [|p l IH]; intros [|i]; simpl; auto.
Qed.

Lemma replaceAt_same i v l : (i < List.length l)%nat -> nth_error (replaceAt i v l) i = Some v.
Proof.
  revert i. induction l as [|p l IH]; intros [|i]; simpl; try lia; auto.
  intros L. apply IH. lia.
Qed.

Lemma replaceAt_other i j v l : j <> i -> nth_error (replaceAt i v l) j = nth_error l j.
Proof.
  revert i j. induction l as [|p l IH]; intros [|i] [|j] N; simpl; auto; try contradiction.
Qed.

Lemma replaceAt_beyond i v l : (List.length l <= i)%nat -> replaceAt i v l = l.
Proof.
  revert i. induction l as [|p l IH]; intros [|i]; simpl; auto; try lia.
  intros L. rewrite IH; [reflexivity|lia].
Qed.

Lemma drag_frame now i lat lng s :
  vias (handle now (ViaDragEnd i lat lng) s) = replaceAt i (lat, lng) (vias s) /\
  dest (handle now (ViaDragEnd i lat lng) s) = dest s /\
  position (handle now (ViaDragEnd i lat lng) s) = position s.
Proof.
  unfold handle, onViaDragEnd, effects. cbn [setClock vias dest position].
  destruct (fetchEffect_frame now (fallback (setVias (replaceAt i (lat, lng) (vias s)) s)))
    as (_ & _ & -> & -> & -> & _).
  destruct (fallback_frame (setVias (replaceAt i (lat, lng) (vias s)) s))
    as (_ & _ & _ & _ & _ & -> & -> & -> & _).
  repeat split.
Qed.

(** *** The debounce *)

Lemma fetchEffect_due now x t :
  runs0 x -> timer (fetchEffect now x) = Some t -> due t = (now + DEBOUNCE_MS)%Z.
Proof.
  intros J. destruct (cleanup_runs x J) as (Ct & _).
  unfold fetchEffect. destruct (buildRouteUrl (cleanup x)) as [u|].
  - simpl. intros [= <-]. reflexivity.
  - rewrite Ct. discriminate.
Qed.

Lemma change_due now e s t :
  runs s -> urlInputs (handle now e s) <> urlInputs s ->
  timer (handle now e s) = Some t -> due t = (now + DEBOUNCE_MS)%Z.
Proof.
  intros [J K] N. pose proof J as (J1 & J2 & J3).
  assert (E : forall x, runs0 x ->
                timer (setClock now (effects now x)) = Some t -> due t = (now + DEBOUNCE_MS)%Z).
  { intros x Jx. apply fetchEffect_due, fallback_runs0, Jx. }
  assert (F : forall x, runs0 x ->
                timer (setClock now (fetchEffect now x)) = Some t ->
                due t = (now + DEBOUNCE_MS)%Z).
  { intros x Jx. apply fetchEffect_due, Jx. }
  destruct e as [lat lon acc|msg|shiftKey lat lng|i lat lng| | | | | | |run r];
    unfold handle in *.
  - apply E. exact J.
  - exfalso. apply N. reflexivity.
  - apply E. unfold click, onAddVia, onSetDest.
    destruct shiftKey; repeat split; simpl; try assumption; discriminate.
  - apply E. exact J.
  - apply F. exact J.
  - apply F. exact J.
  - apply F. exact J.
  - apply E. exact J.
  - apply E. repeat split; simpl; auto.
  - exfalso. apply N. unfold timerFires. destruct (timer s); reflexivity.
  - exfalso. apply N. unfold fetchResume.
    destruct (existsb (Nat.eqb run) (canceled (settle run s))); destruct (awaited r);
      reflexivity.
Qed.

Lemma vias_quiet_step T now e s : enabled now e s -> quiet T s -> quiet T (handle now e s).
Proof.
  intros [Hc _] [Q1 Q2]. split.
  - change (T <= now)%Z. lia.
  - intros t Ht. destruct (vias_fetched_step now e s) as [_ S].
    destruct (S t Ht) as [[_ D]|Ht']; [rewrite D; lia|apply Q2, Ht'].
Qed.

Lemma vias_quiet_runs T s s' : quiet T s -> runsTo s s' -> quiet T s'.
Proof.
  intros Q. induction 1 as [|s' now e _ IH En]; [exact Q|].
  apply vias_quiet_step; assumption.
Qed.

Lemma vias_debounced T e s s' now :
  runs s -> urlInputs (handle T e s) <> urlInputs s ->
  runsTo (handle T e s) s' -> enabled now TimerFires s' ->
  (T + DEBOUNCE_MS <= now)%Z.
Proof.
  intros J N R [_ (t & Et & Hd)].
  assert (Q : quiet T (handle T e s)).
  { split; [change (T <= T)%Z; lia|].
    intros t' Ht'. rewrite (change_due T e s t' J N Ht'). lia. }
  destruct (vias_quiet_runs T _ _ Q R) as [_ Q2]. specialize (Q2 t Et). lia.
Qed.

End ViasRequests.

(** X16. In the version with vias the request a debounce timer sends is
    the one for the position, the vias, the destination and the avoid
    options of the moment it fires. *)
Theorem vias_request_for_current_inputs `{JsNumber} (now : Z) (s : Vias.State) :
  Vias.reachable s -> Vias.enabled now Vias.TimerFires s ->
  exists u,
    Vias.buildRouteUrl s = Some u /\
    Vias.fetched (Vias.handle now Vias.TimerFires s) = (Vias.fetched s ++ [u])%list.
Proof.
  intros R [_ (t & Et & _)]. exists (Vias.tUrl t). split.
  - apply (fresh_reachable s R), Et.
  - unfold Vias.handle, Vias.timerFires. rewrite Et. reflexivity.
Qed.

(** X17. In the version with vias a response changes what is shown (route,
    distance, ETA, error, loading flag) only if its request was sent by the
    live run of the fetch effect, which is the last run started: a
    response for earlier inputs is dropped. *)
Theorem vias_response_applied_only_for_live_run `{JsNumber}
  (now : Z) (run : nat) (r : Settled) (s : Vias.State) :
  Vias.reachable s -> Vias.enabled now (Vias.FetchSettles run r) s ->
  ViasReq.shown (Vias.handle now (Vias.FetchSettles run r) s) <> ViasReq.shown s ->
  Vias.live s = Some run /\ Vias.nextRun s = S run /\ ~ In run (Vias.canceled s).
Proof.
  intros R En N.
  exact (resume_shown now run r s (runs_reachable s R) (fresh_reachable s R) En N).
Qed.

(** X18. In the version with vias no step changes the loading flag while
    the destination is unset, and Clear leaves the flag as it is: a flag
    set when Clear is pressed stays set until a destination is set
    again. *)
Theorem vias_loading_frozen_without_destination `{JsNumber} :
  (forall now s, Vias.loading (Vias.handle now Vias.ClickClear s) = Vias.loading s) /\
  (forall now e s,
     Vias.reachable s -> Vias.enabled now e s ->
     Vias.dest s = None -> Vias.dest (Vias.handle now e s) = None ->
     Vias.loading (Vias.handle now e s) = Vias.loading s).
Proof.
  split.
  - intros now s. apply clear_loading.
  - intros now e s R En D D'.
    exact (loading_without_dest now e s (runs_reachable s R) En D D').
Qed.

(** X19. In the version with vias the route URL ends with
    [&continue_straight=true] when no avoid option is checked, and
    otherwise with [&exclude=] and the checked classes in the order
    motorway, ferry, toll, separated by an encoded comma. *)
Theorem exclude_lists_avoided_classes `{JsNumber} (s : Vias.State) (u : string) :
  Vias.buildRouteUrl s = Some u ->
  endsWith u
    ("&continue_straight=true" ++
     match ViasReq.avoided s with
     | [] => ""
     | _ => "&exclude=" ++ join "%2C" (ViasReq.avoided s)
     end).
Proof. apply buildRouteUrl_exclude. Qed.

(** X20. In the version with vias dragging the via of index [i] to a place
    replaces that via alone: the number and the order of the vias, every
    other via, the destination and the position stay as they are. *)
Theorem via_drag_replaces_one_via `{JsNumber}
  (now : Z) (i : nat) (lat lng : R) (s : Vias.State) :
  List.length (Vias.vias (Vias.handle now (Vias.ViaDragEnd i lat lng) s)) =
    List.length (Vias.vias s) /\
  ((i < List.length (Vias.vias s))%nat ->
   nth_error (Vias.vias (Vias.handle now (Vias.ViaDragEnd i lat lng) s)) i = Some (lat, lng)) /\
  (forall j, j <> i ->
   nth_error (Vias.vias (Vias.handle now (Vias.ViaDragEnd i lat lng) s)) j =
   nth_error (Vias.vias s) j) /\
  ((List.length (Vias.vias s) <= i)%nat ->
   Vias.vias (Vias.handle now (Vias.ViaDragEnd i lat lng) s) = Vias.vias s) /\
  Vias.dest (Vias.handle now (Vias.ViaDragEnd i lat lng) s) = Vias.dest s /\
  Vias.position (Vias.handle now (Vias.ViaDragEnd i lat lng) s) = Vias.position s.
Proof.
  destruct (drag_frame now i lat lng s) as (-> & -> & ->).
  split; [apply replaceAt_length|].
  split; [apply replaceAt_same|].
  split; [intros j; apply replaceAt_other|].
  split; [apply replaceAt_beyond|].
  split; reflexivity.
Qed.

(** X21. In the version with vias no request is sent within 300 ms of a
    step that changes the position, the destination, the vias or an avoid
    option, whatever happens after that step. *)
Theorem vias_no_request_within_debounce `{JsNumber}
  (T now : Z) (e e' : Vias.Event) (s s' : Vias.State) :
  Vias.reachable s ->
  ViasReq.urlInputs (Vias.handle T e s) <> ViasReq.urlInputs s ->
  ViasReq.runsTo (Vias.handle T e s) s' ->
  Vias.enabled now e' s' ->
  Vias.fetched (Vias.handle now e' s') <> Vias.fetched s' ->
  (T + 300 <= now)%Z.
Proof.
  intros R N Rt En F.
  destruct (vias_fetched_by_timer now e' s' En F) as (t & -> & _).
  exact (vias_debounced T e s s' now (runs_reachable s R) N Rt En).
Qed.

(** ** A GPS fix and the polylines *)

Lemma v1_fallbackDU_frame `{JsNumber} (x : V1.State) :
  V1.routeDU (V1.fallbackDU x) = [] /\ V1.routeUD (V1.fallbackDU x) = V1.routeUD x /\
  V1.driver (V1.fallbackDU x) = V1.driver x /\ V1.position (V1.fallbackDU x) = V1.position x /\
  V1.dest (V1.fallbackDU x) = V1.dest x.
Proof.
  unfold V1.fallbackDU.
  destruct (V1.driver x) eqn:E1, (V1.position x) eqn:E2; repeat split; try reflexivity; assumption.
Qed.

Lemma v1_fallbackUD_frame `{JsNumber} (x : V1.State) :
  V1.routeUD (V1.fallbackUD x) = [] /\ V1.routeDU (V1.fallbackUD x) = V1.routeDU x /\
  V1.driver (V1.fallbackUD x) = V1.driver x /\ V1.position (V1.fallbackUD x) = V1.position x /\
  V1.dest (V1.fallbackUD x) = V1.dest x.
Proof.
  unfold V1.fallbackUD.
  destruct (V1.position x) eqn:E1, (V1.dest x) eqn:E2; repeat split; try reflexivity; assumption.
Qed.

Lemma v1_gps_fix_frame `{JsNumber} (now : Z) (lat lon acc : R) (s : V1.State) :
  V1.routeDU (V1.handle now (V1.GpsFix lat lon acc) s) = [] /\
  V1.routeUD (V1.handle now (V1.GpsFix lat lon acc) s) = [] /\
  V1.driver (V1.handle now (V1.GpsFix lat lon acc) s) = V1.driver s /\
  V1.position (V1.handle now (V1.GpsFix lat lon acc) s) = Some (lat, lon) /\
  V1.dest (V1.handle now (V1.GpsFix lat lon acc) s) = V1.dest s.
Proof.
  unfold V1.handle, V1.onGpsFix.
  destruct (v1_fallbackUD_frame
              (V1.fallbackDU (V1.setAccuracy (Some acc)
                 (V1.setPosition (Some (lat, lon)) (V1.setError "" s)))))
    as (A1 & A2 & A3 & A4 & A5).
  destruct (v1_fallbackDU_frame
              (V1.setAccuracy (Some acc) (V1.setPosition (Some (lat, lon)) (V1.setError "" s))))
    as (B1 & B2 & B3 & B4 & B5).
  repeat split.
  - etransitivity; [|exact B1]. etransitivity; [|exact A2]. reflexivity.
  - etransitivity; [|exact A1]. reflexivity.
  - etransitivity; [|exact B3]. etransitivity; [|exact A3]. reflexivity.
  - etransitivity; [|exact B4]. etransitivity; [|exact A4]. reflexivity.
  - etransitivity; [|exact B5]. etransitivity; [|exact A5]. reflexivity.
Qed.

(** X22. A GPS fix empties both polylines in the first version, and the
    polyline of the version with vias while a destination is set, so that
    the bounds fall back to the markers; in the third version it leaves
    both polylines, and the bounds of a route that is shown, as they
    are. *)
Theorem gps_fix_keeps_polylines_in_third_version_only `{JsNumber}
  (now : Z) (lat lon acc : R) :
  (forall s : V1.State,
     V1.routeDU (V1.handle now (V1.GpsFix lat lon acc) s) = [] /\
     V1.routeUD (V1.handle now (V1.GpsFix lat lon acc) s) = [] /\
     V1Map.bounds (V1.handle now (V1.GpsFix lat lon acc) s) =
       Some (pushPoint (V1.driver s) ++ [(lat, lon)] ++ pushPoint (V1.dest s))%list) /\
  (forall s : Vias.State,
     Vias.dest s <> None ->
     Vias.routeCoords (Vias.handle now (Vias.GpsFix lat lon acc) s) = []) /\
  (forall s : V3.State,
     V3.routeDU (V3.handle now (V3.GpsFix lat lon acc) s) = V3.routeDU s /\
     V3.routeUD (V3.handle now (V3.GpsFix lat lon acc) s) = V3.routeUD s /\
     ((V3.routeDU s ++ V3.routeUD s)%list <> [] ->
      V3Map.bounds (V3.handle now (V3.GpsFix lat lon acc) s) = V3Map.bounds s)).
Proof.
  split; [|split].
  - intros s. destruct (v1_gps_fix_frame now lat lon acc s) as (E1 & E2 & E3 & E4 & E5).
    unfold V1Map.bounds. rewrite E1, E2, E3, E4, E5.
    destruct (V1.driver s), (V1.dest s); repeat split; reflexivity.
  - intros s D. unfold Vias.handle, Vias.onGpsFix, Vias.effects.
    change (Vias.routeCoords
              (Vias.fetchEffect now
                 (Vias.fallback
                    (Vias.setAccuracy (Some acc)
                       (Vias.setPosition (Some (lat, lon)) (Vias.setError "" s))))) = []).
    destruct (fetchEffect_frame now
                (Vias.fallback
                   (Vias.setAccuracy (Some acc)
                      (Vias.setPosition (Some (lat, lon)) (Vias.setError "" s)))))
      as (_ & _ & _ & _ & _ & _ & -> & _).
    unfold Vias.fallback. simpl. destruct (Vias.dest s); [reflexivity|contradiction].
  - intros s.
    assert (ED : V3.routeDU (V3.handle now (V3.GpsFix lat lon acc) s) = V3.routeDU s)
      by (apply (route_other now (V3.GpsFix lat lon acc) s V3.DU); exact I).
    assert (EU : V3.routeUD (V3.handle now (V3.GpsFix lat lon acc) s) = V3.routeUD s)
      by (apply (route_other now (V3.GpsFix lat lon acc) s V3.UD); exact I).
    split; [exact ED|]. split; [exact EU|].
    intros N. unfold V3Map.bounds. rewrite ED, EU. unfold multiLegBounds.
    destruct (V3.routeDU s ++ V3.routeUD s)%list; [contradiction|reflexivity].
Qed.

(** ** The first version: the debounce *)

Section V1Requests.
Context `{JsNumber}.
Import V1 V1Req.

Lemma v1_fetchEffect_due now x leg t :
  timer (legOf leg (fetchEffect now x)) = Some t -> due t = (now + DEBOUNCE_MS)%Z.
Proof. destruct leg; simpl; intros [= <-]; reflexivity. Qed.

Lemma v1_legOf_setClock leg now x : legOf leg (setClock now x) = legOf leg x.
Proof. destruct leg; reflexivity. Qed.

Lemma v1_resume_frame leg r x l :
  timer (legOf l (fetchLegResume leg r x)) = timer (legOf l x) /\
  points (fetchLegResume leg r x) = points x.
Proof.
  unfold fetchLegResume. destruct (awaited r); destruct leg, l; split; reflexivity.
Qed.

Lemma v1_timer_frame leg x l t :
  timer (legOf l (timerFires leg x)) = Some t -> timer (legOf l x) = Some t.
Proof.
  unfold timerFires. destruct (timer (legOf leg x)) as [t'|] eqn:Et; [|trivial].
  unfold fetchLeg. destruct (tFrom t'), (tTo t'); destruct leg, l; simpl;
    try discriminate; trivial.
Qed.

Lemma v1_timer_points leg x : points (timerFires leg x) = points x.
Proof.
  unfold timerFires. destruct (timer (legOf leg x)) as [t'|]; [|reflexivity].
  unfold fetchLeg. destruct (tFrom t'), (tTo t'); destruct leg; reflexivity.
Qed.

(** What a step does to a timer: it leaves it, clears it or sets it
    [DEBOUNCE_MS] ahead; and a step that changes a point sets both. *)
Lemma v1_timer_step now e s leg t :
  timer (legOf leg (handle now e s)) = Some t ->
  due t = (now + DEBOUNCE_MS)%Z \/
  (timer (legOf leg s) = Some t /\ points (handle now e s) = points s).
Proof.
  unfold handle. rewrite v1_legOf_setClock.
  change (points (setClock now ?x)) with (points x).
  destruct e as [lat lon acc|msg|lat lng| | | |leg1|c leg1 r].
  - intros Ht. left. exact (v1_fetchEffect_due now _ leg t Ht).
  - intros Ht. right. split; [destruct leg; exact Ht|reflexivity].
  - unfold onMapClick, onSet. destruct (tapMode s) as [[|]|].
    + intros Ht. left. exact (v1_fetchEffect_due now _ leg t Ht).
    + intros Ht. left. exact (v1_fetchEffect_due now _ leg t Ht).
    + intros Ht. right. split; [exact Ht|reflexivity].
  - unfold toggleTap. intros Ht. right.
    destruct (tapMode s) as [[|]|]; split; try reflexivity; destruct leg; exact Ht.
  - unfold toggleTap. intros Ht. right.
    destruct (tapMode s) as [[|]|]; split; try reflexivity; destruct leg; exact Ht.
  - rewrite v1_onClear_eq.
    destruct (isLatLng (driver s)) eqn:Ed; [intros Ht; left; exact (v1_fetchEffect_due now _ leg t Ht)|].
    destruct (isLatLng (dest s)) eqn:Et; [intros Ht; left; exact (v1_fetchEffect_due now _ leg t Ht)|].
    simpl. intros Ht. right. split; [destruct leg; exact Ht|].
    unfold points, clearHandler. simpl.
    destruct (driver s); [discriminate|]. destruct (dest s); [discriminate|]. reflexivity.
  - intros Ht. right. split; [exact (v1_timer_frame leg1 s leg t Ht)|apply v1_timer_points].
  - destruct (v1_resume_frame leg1 r (settle c s) leg) as (-> & ->).
    intros Ht. right. split; [destruct leg; exact Ht|reflexivity].
Qed.

Lemma v1_quiet_step leg T now e s :
  enabled now e s -> quiet leg T s -> quiet leg T (handle now e s).
Proof.
  intros [Hc _] [Q1 Q2]. split.
  - change (T <= now)%Z. lia.
  - intros t Ht. destruct (v1_timer_step now e s leg t Ht) as [D|[Ht' _]];
      [rewrite D; lia|apply Q2, Ht'].
Qed.

Lemma v1_quiet_runs leg T s s' : quiet leg T s -> runsTo s s' -> quiet leg T s'.
Proof.
  intros Q. induction 1 as [|s' now e _ IH En]; [exact Q|].
  apply v1_quiet_step; assumption.
Qed.

End V1Requests.

(** X23. In the first version no request of either leg is sent within
    300 ms of a step that changes the driver, the position or the
    destination, whatever happens after that step. *)
Theorem v1_no_request_within_debounce `{JsNumber}
  (T now : Z) (e e' : V1.Event) (s s' : V1.State) :
  V1Req.points (V1.handle T e s) <> V1Req.points s ->
  V1Req.runsTo (V1.handle T e s) s' ->
  V1.enabled now e' s' ->
  V1.fetched (V1.handle now e' s') <> V1.fetched s' ->
  (T + 300 <= now)%Z.
Proof.
  intros N R En F.
  destruct (v1_fetched_by_timer now e' s' En F) as (l & t & _ & Et & Hd).
  assert (Q : V1Req.quiet l T s').
  { apply (v1_quiet_runs l T (V1.handle T e s)); [|exact R].
    split; [change (T <= T)%Z; lia|].
    intros t' Ht. destruct (v1_timer_step T e s l t' Ht) as [D|[_ P]];
      [rewrite D; lia|contradiction]. }
  destruct Q as [_ Q2]. specialize (Q2 t Et). unfold V1.DEBOUNCE_MS in Q2. lia.
Qed.

(** ** The further properties at the sample runs *)

Lemma cleared_reachable : @Vias.reachable sampleNumbers MoreRuns.cleared.
Proof.
  apply Vias.reach_step; [apply viasrun_reachable|].
  split; [vm_compute; discriminate|split; vm_compute; discriminate].
Qed.

(** X4 at the sample run: the leg from the position to the destination. *)
Lemma fallback_eta_rounded_witness :
  exists m,
    V3.minUD (@V3.fallbackUD sampleNumbers V3Run.destined) = Some m /\
    (haversineKm (0, 0) (1, 1) < 625 / 1000 -> m = 1%Z).
Proof.
  destruct (@fallback_eta_rounded sampleNumbers V3Run.destined (0, 0) (1, 1))
    as (m & E & A & _).
  - vm_compute. reflexivity.
  - vm_compute. reflexivity.
  - exists m. split; [exact E|exact A].
Defined.

(** X5 at the sample run: the first request of the leg to the
    destination. *)
Lemma request_skipped_iff_gated_witness :
  V3.fetched (@V3.fetchLeg sampleNumbers 5000 V3.UD (Some (0, 0)) (Some (1, 1)) V3Run.destined)
  <> V3.fetched V3Run.destined.
Proof.
  apply (proj2 (proj2 (@request_skipped_iff_gated sampleNumbers 5000%Z V3.UD (0, 0) (1, 1)
                         V3Run.destined))).
  vm_compute. reflexivity.
Defined.

(** X6 at the sample run, after two requests of the leg to the
    destination. *)
Lemma requests_have_own_controllers_witness :
  NoDup (V3Req.controllers V3Run.requestedAgain) /\
  map V3.signal (V3.fetched V3Run.requestedAgain) = V3Req.controllers V3Run.requestedAgain /\
  (forall leg c c',
     In (c, leg) (V3.issued V3Run.requestedAgain) ->
     In (c', leg) (V3.issued V3Run.requestedAgain) ->
     ~ In c (V3.aborted V3Run.requestedAgain) ->
     ~ In c' (V3.aborted V3Run.requestedAgain) -> c = c').
Proof. apply (@requests_have_own_controllers sampleNumbers), v3run_reachable. Defined.

(** X7 at the sample run: the leg to the destination is loading. *)
Lemma loading_only_while_pending_witness :
  exists c, In (c, V3.UD) (V3.issued V3Run.requested) /\ ~ In c (V3.settled V3Run.requested).
Proof.
  apply (proj1 (@loading_only_while_pending sampleNumbers) V3Run.requested).
  - apply v3run_reachable.
  - vm_compute. reflexivity.
Defined.

(** X8 at the sample run: the route of the first request arrives. *)
Lemma polyline_kept_until_route_or_clear_witness :
  V3.FetchSettles 0%nat V3.UD (Json [V3Run.someRoute]) = V3.ClickClear \/
  exists c r rt,
    V3.FetchSettles 0%nat V3.UD (Json [V3Run.someRoute]) = V3.FetchSettles c V3.UD r /\
    awaited r = inr rt /\ V3.abort (V3.legOf V3.UD V3Run.requested) = Some c.
Proof.
  apply (@polyline_kept_until_route_or_clear sampleNumbers 20000%Z).
  vm_compute. discriminate.
Defined.

(** X9 at the sample run: the click that sets the destination. *)
Lemma map_click_sets_armed_point_witness :
  V3.dest (@V3.handle sampleNumbers 3000 (V3.MapClick 1 1) V3Run.armed) = Some (1, 1) /\
  V3.driver (@V3.handle sampleNumbers 3000 (V3.MapClick 1 1) V3Run.armed) =
    V3.driver V3Run.armed.
Proof.
  apply (proj1 (proj2 (proj2 (@map_click_sets_armed_point sampleNumbers 3000%Z 1 1
                                V3Run.armed)))).
  - vm_compute. reflexivity.
  - vm_compute. reflexivity.
Defined.

(** X10 at the sample run: a GPS fix after the map was dragged. *)
Lemma auto_fit_only_while_following_witness :
  V3Map.viewportEffect (@V3.handle sampleNumbers 2000 (V3.GpsFix 0 0 5) MoreRuns.panned) false
  = None.
Proof.
  apply (proj1 (proj2 (proj2 (@auto_fit_only_while_following sampleNumbers)))).
  - vm_compute. reflexivity.
  - discriminate.
  - discriminate.
Defined.

(** X11 at the sample run. *)
Lemma total_eta_is_sum_witness :
  V3.totalMin V3Run.requested = None <->
  V3.minDU V3Run.requested = None /\ V3.minUD V3Run.requested = None.
Proof.
  apply (@total_eta_is_sum sampleNumbers V3Run.requested), v3run_reachable.
Defined.

(** X13 at the sample runs: after the first fix. *)
Lemma bounds_follow_routes_or_markers_witness :
  V3Map.bounds V3Run.located <> None /\ V1Map.bounds V1Run.located <> None.
Proof.
  split.
  - apply (proj1 (proj2 (proj1 (bounds_follow_routes_or_markers V3Run.located V1Run.located)))).
    vm_compute. discriminate.
  - apply (proj1 (proj2 (proj2 (bounds_follow_routes_or_markers V3Run.located V1Run.located)))).
    vm_compute. discriminate.
Defined.

(** X14 at the sample run: a via is added before any destination. *)
Lemma vias_bounds_follow_route_or_chain_witness :
  ViasMap.bounds MoreRuns.withVia = Some [(0, 0); (2, 2)].
Proof.
  apply (proj1 (proj2 (vias_bounds_follow_route_or_chain MoreRuns.withVia))).
  - vm_compute. reflexivity.
  - vm_compute. discriminate.
Defined.

(** X15 on three renders: the position unknown, then two fixes. *)
Lemma recenter_at_most_once_witness :
  recenterRun [None; Some (1, 2); Some (3, 4)] false = [((1, 2), 16%Z)].
Proof.
  apply (proj1 (proj2 (proj2 (recenter_at_most_once [None; Some (1, 2); Some (3, 4)])))
           [None] (1, 2) [Some (3, 4)]).
  - reflexivity.
  - constructor; [reflexivity|constructor].
Defined.

(** X16 at the sample run: the timer set when the destination was set. *)
Lemma vias_request_for_current_inputs_witness :
  exists u,
    @Vias.buildRouteUrl sampleNumbers ViasRun.destined = Some u /\
    Vias.fetched (@Vias.handle sampleNumbers 3000 Vias.TimerFires ViasRun.destined) =
      (Vias.fetched ViasRun.destined ++ [u])%list.
Proof.
  apply (@vias_request_for_current_inputs sampleNumbers 3000%Z ViasRun.destined).
  - apply viasrun_reachable.
  - split; [vm_compute; discriminate|].
    eexists. split; [vm_compute; reflexivity|vm_compute; discriminate].
Defined.

(** X17 at the sample run: the route of the request in flight arrives. *)
Lemma vias_response_applied_only_for_live_run_witness :
  Vias.live ViasRun.requested = Some 0%nat /\ Vias.nextRun ViasRun.requested = 1%nat /\
  ~ In 0%nat (Vias.canceled ViasRun.requested).
Proof.
  apply (@vias_response_applied_only_for_live_run sampleNumbers 4000%Z 0%nat
           (Json [V3Run.someRoute]) ViasRun.requested).
  - apply viasrun_reachable.
  - split; [vm_compute; discriminate|]. vm_compute. left. reflexivity.
  - intros E.
    apply (f_equal (fun x => List.length (fst (fst (fst (fst x)))))) in E.
    vm_compute in E. discriminate E.
Defined.

(** X18 at the sample run: Clear while the request is in flight, then its
    response. *)
Lemma vias_loading_frozen_without_destination_witness :
  Vias.loading
    (@Vias.handle sampleNumbers 5000 (Vias.FetchSettles 0 (Json [V3Run.someRoute]))
       MoreRuns.cleared) =
  Vias.loading MoreRuns.cleared.
Proof.
  apply (proj2 (@vias_loading_frozen_without_destination sampleNumbers)).
  - exact cleared_reachable.
  - split; [vm_compute; discriminate|]. vm_compute. left. reflexivity.
  - vm_compute. reflexivity.
  - vm_compute. reflexivity.
Defined.

(** X19 at the sample run: ferries are to be avoided. *)
Lemma exclude_lists_avoided_classes_witness :
  endsWith
    ("https://router.project-osrm.org/route/v1/driving/0,0;0,0" ++
     "?overview=full&geometries=geojson&steps=false&alternatives=false" ++
     "&continue_straight=true&exclude=ferry")
    "&continue_straight=true&exclude=ferry".
Proof.
  apply (@exclude_lists_avoided_classes sampleNumbers MoreRuns.noFerry).
  vm_compute. reflexivity.
Defined.

(** X20 at the sample run: the only via is dragged. *)
Lemma via_drag_replaces_one_via_witness :
  nth_error
    (Vias.vias (@Vias.handle sampleNumbers 3000 (Vias.ViaDragEnd 0 3 3) MoreRuns.withVia)) 0 =
  Some (3, 3).
Proof.
  apply (proj1 (proj2 (@via_drag_replaces_one_via sampleNumbers 3000%Z 0%nat 3 3
                         MoreRuns.withVia))).
  vm_compute. apply le_n.
Defined.

(** X22 at the sample run: a GPS fix while the route is shown. *)
Lemma gps_fix_keeps_polylines_in_third_version_only_witness :
  V3Map.bounds (@V3.handle sampleNumbers 30000 (V3.GpsFix 0 0 5) MoreRuns.routed) =
  V3Map.bounds MoreRuns.routed.
Proof.
  apply (proj2 (proj2 (@gps_fix_keeps_polylines_in_third_version_only sampleNumbers
                         30000%Z 0 0 5))).
  vm_compute. discriminate.
Defined.

(** X12 at the sample run: the position after the first fix. *)
Lemma position_only_from_gps_witness :
  exists lat lon, (0, 0) = @roundGPS sampleNumbers (lat, lon).
Proof.
  apply (proj1 (proj2 (proj2 (@position_only_from_gps sampleNumbers)) V3Run.located
                  (proj1 v3run_reachable))).
  vm_compute. reflexivity.
Defined.

(** X21 at the sample run: the destination is set at 2000 ms, and the
    timer fires at 3000 ms. *)
Lemma vias_no_request_within_debounce_witness : (2000 + 300 <= 3000)%Z.
Proof.
  apply (@vias_no_request_within_debounce sampleNumbers 2000%Z 3000%Z
           (Vias.MapClick false 1 1) Vias.TimerFires ViasRun.located ViasRun.destined).
  - apply viasrun_reachable.
  - vm_compute. discriminate.
  - apply ViasReq.from_here.
  - split; [vm_compute; discriminate|].
    eexists. split; [vm_compute; reflexivity|vm_compute; discriminate].
  - vm_compute. discriminate.
Defined.

(** X23 at the sample run: the destination is set at 3000 ms, and the
    timer of the leg to it fires at 4000 ms. *)
Lemma v1_no_request_within_debounce_witness : (3000 + 300 <= 4000)%Z.
Proof.
  apply (@v1_no_request_within_debounce sampleNumbers 3000%Z 4000%Z
           (V1.MapClick 1 1) (V1.TimerFires V1.UD) V1Run.armed V1Run.destined).
  - vm_compute. discriminate.
  - apply V1Req.here.
  - split; [vm_compute; discriminate|].
    eexists. split; [vm_compute; reflexivity|vm_compute; discriminate].
  - vm_compute. discriminate.
Defined.

(** ** A failure after a route has arrived *)




